(** * quip_export: a shallow embedding of [quip_export.py]

    The script mirrors a remote folder hierarchy onto the local file
    system.  This development embeds its functions as Rocq definitions
    and proves properties of them.

    Conventions of the embedding.

    - A Python [str] is a [string]; the alphabet is the 256 characters
      of [ascii].
    - Values received from the remote service are parsed JSON: the type
      [json].  Python's dynamic operations on them ([in], [.get],
      subscripting, [len], iteration, truth value) are the [py_*]
      functions, which return an [Err] where Python raises.
    - [exn] stands for instances of Python's [Exception] class, which
      is what the [except Exception] handlers of the script catch.
    - The remote client and the HTTP library are the fields of the
      class [Remote]; the checks of [urllib] that the script does not
      determine are the class [UrlLib].
    - Effects are threaded through a state and error monad [M]: the
      state holds the remote side, the file tree and the chronological
      trace of observable events.
    - [process_folder] recurses on what the remote service answers, so
      it takes a recursion budget; [OutOfFuel] marks its exhaustion. *)

From Stdlib Require Import String Ascii ZArith List Bool Lia.
From stdpp Require Import base strings gmap list.

Open Scope string_scope.
Open Scope list_scope.
Set Warnings "-register-all".

(** ** Strings *)

Module Str.

Fixpoint filter (f : ascii → bool) (s : string) : string :=
  match s with
  | EmptyString => EmptyString
  | String c s' => if f c then String c (filter f s') else filter f s'
  end.

Fixpoint mem (c : ascii) (s : string) : bool :=
  match s with
  | EmptyString => false
  | String a s' => Ascii.eqb a c || mem c s'
  end.

Fixpoint forallb (f : ascii → bool) (s : string) : bool :=
  match s with
  | EmptyString => true
  | String c s' => f c && forallb f s'
  end.

Fixpoint map (f : ascii → ascii) (s : string) : string :=
  match s with
  | EmptyString => EmptyString
  | String c s' => String (f c) (map f s')
  end.

Definition is_empty (s : string) : bool :=
  match s with EmptyString => true | _ => false end.

(** [s.lstrip(chars)], [s.rstrip(chars)] and [s.strip(chars)], the
    character set given as a predicate. *)
Fixpoint lstrip (f : ascii → bool) (s : string) : string :=
  match s with
  | EmptyString => EmptyString
  | String c s' => if f c then lstrip f s' else s
  end.

Fixpoint rstrip (f : ascii → bool) (s : string) : string :=
  match s with
  | EmptyString => EmptyString
  | String c s' =>
      let r := rstrip f s' in
      if f c && is_empty r then EmptyString else String c r
  end.

Definition strip (f : ascii → bool) (s : string) : string :=
  rstrip f (lstrip f s).

(** [s.split(sep)] for a one-character separator. *)
Fixpoint split (sep : ascii) (s : string) : list string :=
  match s with
  | EmptyString => [EmptyString]
  | String c s' =>
      if Ascii.eqb c sep then EmptyString :: split sep s'
      else match split sep s' with
           | [] => [String c EmptyString]
           | p :: ps => String c p :: ps
           end
  end.

(** The text before the first character satisfying [f], and the text
    from that character on. *)
Fixpoint span (f : ascii → bool) (s : string) : string * string :=
  match s with
  | EmptyString => (EmptyString, EmptyString)
  | String c s' =>
      if f c then (EmptyString, s)
      else let '(a, b) := span f s' in (String c a, b)
  end.

(** [s.split(sep, 1)] when [sep] occurs in [s]: the text before the
    first [sep] and, if there is one, the text after it. *)
Fixpoint cut (sep : ascii) (s : string) : string * option string :=
  match s with
  | EmptyString => (EmptyString, None)
  | String c s' =>
      if Ascii.eqb c sep then (EmptyString, Some s')
      else let '(a, b) := cut sep s' in (String c a, b)
  end.

(** [needle in hay] on two strings. *)
Fixpoint contains (needle hay : string) : bool :=
  String.prefix needle hay ||
  match hay with
  | EmptyString => false
  | String _ hay' => contains needle hay'
  end.

Definition starts_with (c : ascii) (s : string) : bool :=
  match s with String a _ => Ascii.eqb a c | EmptyString => false end.

Fixpoint ends_with (c : ascii) (s : string) : bool :=
  match s with
  | EmptyString => false
  | String a EmptyString => Ascii.eqb a c
  | String _ s' => ends_with c s'
  end.

Fixpoint chars (s : string) : list ascii :=
  match s with
  | EmptyString => []
  | String c s' => c :: chars s'
  end.

End Str.

Definition is_char (c : ascii) : ascii → bool := Ascii.eqb c.

(** ** Exceptions and results *)

(** Instances of [Exception].  [HTTPError] is what
    [Response.raise_for_status] raises; [OtherError] is any exception
    an external collaborator raises. *)
Inductive exn : Type :=
| TypeError
| AttributeError
| KeyError
| ValueError
| FileNotFoundError
| NotADirectoryError
| IsADirectoryError
| FileExistsError
| IndexError
| HTTPError (status : Z)
| OtherError (msg : string).

Inductive result (A : Type) : Type :=
| Ok (a : A)
| Err (e : exn).
Arguments Ok {A} a.
Arguments Err {A} e.

(** ** JSON values and Python's dynamic operations on them *)

(** A JSON object is an association list whose first binding of a key
    is the one in force. *)
Inductive json : Type :=
| JNull
| JBool (b : bool)
| JNum (n : Z)
| JStr (s : string)
| JList (l : list json)
| JDict (d : list (string * json)).

Fixpoint dict_lookup (key : string) (d : list (string * json)) : option json :=
  match d with
  | [] => None
  | (k, v) :: d' => if String.eqb k key then Some v else dict_lookup key d'
  end.

Definition is_str (key : string) (x : json) : bool :=
  match x with JStr s => String.eqb s key | _ => false end.

(** [key in x] for a string [key]. *)
Definition py_in (key : string) (x : json) : result bool :=
  match x with
  | JDict d => Ok (bool_decide (is_Some (dict_lookup key d)))
  | JList l => Ok (existsb (is_str key) l)
  | JStr s => Ok (Str.contains key s)
  | JNull | JBool _ | JNum _ => Err TypeError
  end.

(** [x.get(key, default)]: only objects have the method. *)
Definition py_get (x : json) (key : string) (default : json) : result json :=
  match x with
  | JDict d => Ok (from_option id default (dict_lookup key d))
  | _ => Err AttributeError
  end.

(** [x[key]] for a string [key]. *)
Definition py_getitem (x : json) (key : string) : result json :=
  match x with
  | JDict d =>
      match dict_lookup key d with
      | Some v => Ok v
      | None => Err KeyError
      end
  | _ => Err TypeError
  end.

(** The truth value of [x]. *)
Definition truthy (x : json) : bool :=
  match x with
  | JNull => false
  | JBool b => b
  | JNum n => negb (Z.eqb n 0)
  | JStr s => negb (Str.is_empty s)
  | JList l => match l with [] => false | _ => true end
  | JDict d => match d with [] => false | _ => true end
  end.

(** [len(x)]. *)
Definition py_len (x : json) : result nat :=
  match x with
  | JStr s => Ok (String.length s)
  | JList l => Ok (length l)
  | JDict d => Ok (length d)
  | JNull | JBool _ | JNum _ => Err TypeError
  end.

(** The items [for _ in x] visits. *)
Definition py_iter (x : json) : result (list json) :=
  match x with
  | JList l => Ok l
  | JDict d => Ok (List.map (λ kv, JStr (fst kv)) d)
  | JStr s => Ok (List.map (λ c, JStr (String c EmptyString)) (Str.chars s))
  | JNull | JBool _ | JNum _ => Err TypeError
  end.

(** ** [sanitize_filename] *)

(** The character class of the pattern: backslash, slash, star,
    question mark, colon, double quote (character 34), the two angle
    brackets and the bar. *)
Definition reserved_chars : list ascii :=
  ["\"; "/"; "*"; "?"; ":"; "034"; "<"; ">"; "|"]%char.

Definition is_reserved (c : ascii) : bool :=
  existsb (Ascii.eqb c) reserved_chars.

(** [re.sub(pattern, '', s)] for that pattern: every match, that is
    every reserved character, is deleted. *)
Definition re_sub_reserved (s : string) : string :=
  Str.filter (λ c, negb (is_reserved c)) s.

(** [re.sub] raises [TypeError] on an argument that is not a string. *)
Definition sanitize_filename (filename : json) : result string :=
  match filename with
  | JStr s => Ok (re_sub_reserved s)
  | _ => Err TypeError
  end.

(** ** [os.path.join] (POSIX) for two components *)

Definition os_path_join (a b : string) : string :=
  if Str.starts_with "/" b then b
  else if Str.is_empty a || Str.ends_with "/" a then a +:+ b
  else a +:+ "/" +:+ b.

(** ** [result] as a monad *)

#[global] Instance result_ret : MRet result := λ A a, Ok a.
#[global] Instance result_bind : MBind result := λ A B f m,
  match m with
  | Ok a => f a
  | Err e => Err e
  end.

(** ** [urllib.parse.urlparse] *)

(** The parts of [urllib] that depend on data the script does not
    carry: the validation of a bracketed (IP literal) host and of a
    host with characters outside ASCII, which raise [ValueError] on
    the hosts they reject. *)
Class UrlLib : Type := { netloc_valid : string → bool }.

Record ParseResult : Type := {
  scheme : string;
  netloc : string;
  path : string;
  params : string;
  query : string;
  fragment : string
}.

Definition code (c : ascii) : nat := nat_of_ascii c.

Definition c0_control_or_space (c : ascii) : bool := (code c <=? 32)%nat.

(** Tab, line feed and carriage return are deleted wherever they are. *)
Definition unsafe_url_byte (c : ascii) : bool :=
  ((code c =? 9) || (code c =? 10) || (code c =? 13))%nat.

Definition is_ascii (c : ascii) : bool := (code c <? 128)%nat.
Definition is_upper (c : ascii) : bool :=
  ((65 <=? code c) && (code c <=? 90))%nat.
Definition is_lower (c : ascii) : bool :=
  ((97 <=? code c) && (code c <=? 122))%nat.
Definition is_digit (c : ascii) : bool :=
  ((48 <=? code c) && (code c <=? 57))%nat.
Definition is_alpha (c : ascii) : bool := is_upper c || is_lower c.

Definition scheme_char (c : ascii) : bool :=
  is_alpha c || is_digit c || Str.mem c "+-.".

Definition lower (c : ascii) : ascii :=
  if is_upper c then ascii_of_nat (code c + 32) else c.

(** A leading [scheme:] is split off when it starts with a letter and
    consists of scheme characters. *)
Definition split_scheme (url : string) : string * string :=
  match Str.cut ":" url with
  | (String c pre, Some rest) =>
      if is_alpha c && Str.forallb scheme_char pre
      then (Str.map lower (String c pre), rest)
      else (EmptyString, url)
  | _ => (EmptyString, url)
  end.

(** After a leading [//] the host runs up to the first of [/ ? #]. *)
Definition split_netloc (url : string) : string * string :=
  match url with
  | String "/" (String "/" rest) =>
      Str.span (λ c, Str.mem c "/?#") rest
  | _ => (EmptyString, url)
  end.

Definition check_netloc {urllib : UrlLib} (n : string) : result unit :=
  let lb := Str.mem "[" n in
  let rb := Str.mem "]" n in
  if xorb lb rb then Err ValueError
  else if (lb && rb) || negb (Str.forallb is_ascii n)
       then (if netloc_valid n then Ok tt else Err ValueError)
       else Ok tt.

(** [s.split(sep, 1)] taken as a pair, the second part empty when
    [sep] is absent. *)
Definition cut_off (sep : ascii) (s : string) : string * string :=
  let '(a, b) := Str.cut sep s in (a, default EmptyString b).

(** The text up to and including the last [sep], and the text after
    it. *)
Fixpoint rcut (sep : ascii) (s : string) : string * string :=
  match s with
  | EmptyString => (EmptyString, EmptyString)
  | String c s' =>
      let '(a, b) := rcut sep s' in
      if Str.is_empty a
      then (if Ascii.eqb c sep
            then (String c EmptyString, b)
            else (EmptyString, String c b))
      else (String c a, b)
  end.

Definition uses_params : list string :=
  [""; "ftp"; "hdl"; "prospero"; "http"; "imap"; "https"; "shttp"; "rtsp";
   "rtspu"; "sip"; "sips"; "mms"; "sftp"; "tel"].

(** The parameters of the last path segment: the text after its first
    semicolon. *)
Definition split_params (url : string) : string * string :=
  let '(dir, seg) := rcut "/" url in
  match Str.cut ";" seg with
  | (a, Some b) => (dir +:+ a, b)
  | (_, None) => (url, EmptyString)
  end.

Definition urlparse {urllib : UrlLib} (url : string) : result ParseResult :=
  let url := Str.lstrip c0_control_or_space url in
  let url := Str.filter (λ c, negb (unsafe_url_byte c)) url in
  let '(scheme, url) := split_scheme url in
  let '(netloc, url) := split_netloc url in
  let '(url, fragment) := cut_off "#" url in
  let '(url, query) := cut_off "?" url in
  _ ← check_netloc netloc;
  let '(url, params) :=
    if existsb (String.eqb scheme) uses_params && Str.mem ";" url
    then split_params url
    else (url, EmptyString) in
  mret {| scheme := scheme; netloc := netloc; path := url;
          params := params; query := query; fragment := fragment |}.

(** ** [extract_id_from_link] and [get_domain_from_link] *)

(** [l[0]] and [l[-1]]. *)
Definition first_item (l : list string) : result string :=
  match l with
  | [] => Err IndexError
  | x :: _ => Ok x
  end.

Definition last_item (l : list string) : result string :=
  match List.last (List.map Some l) None with
  | None => Err IndexError
  | Some x => Ok x
  end.

(** The result is [None] where the Python function returns [None]. *)
Definition extract_id_from_link {urllib : UrlLib} (link : string)
  : result (option string) :=
  parsed_url ← urlparse link;
  let path := Str.strip (is_char "/") (path parsed_url) in
  let parts := Str.split "/" path in
  if bool_decide (parts = []) then mret None
  else
    potential_id ← last_item parts;
    potential_id ← first_item (Str.split "#" potential_id);
    mret (Some potential_id).

Definition get_domain_from_link {urllib : UrlLib} (link : string) : result string :=
  parsed_url ← urlparse link;
  mret (netloc parsed_url).

(** A validator that accepts every host, for running examples. *)
Definition lenient_urllib : UrlLib := {| netloc_valid := λ _, true |}.

(** ** The file tree *)

(** A POSIX file tree without links or permissions.  Entries are keyed
    by their canonical path, the list of names from the root; the root
    is a directory that is always there.  File contents are byte
    strings. *)
Inductive node : Type :=
| Dir
| File (content : string).

Definition node_at (t : gmap (list string) node) (q : list string)
  : option node :=
  if bool_decide (q = []) then Some Dir else t !! q.

Definition is_dir (t : gmap (list string) node) (q : list string) : bool :=
  match node_at t q with Some Dir => true | _ => false end.

(** One step of path resolution is lexical: an empty name and a dot
    stay, two dots go up, any other name goes down. *)
Definition step (cur : list string) (c : string) : list string :=
  if String.eqb c "" || String.eqb c "." then cur
  else if String.eqb c ".." then removelast cur
  else cur ++ [c].

(** Resolution of the names [comps] from the directory [cur]: every
    name is looked up in a directory; the entry that the last name
    designates need not exist. *)
Fixpoint namei (t : gmap (list string) node) (cur : list string)
    (comps : list string) : option (list string) :=
  match comps with
  | [] => Some cur
  | c :: rest => if is_dir t cur then namei t (step cur c) rest else None
  end.

Definition start_dir (cwd : list string) (p : string) : list string :=
  if Str.starts_with "/" p then [] else cwd.

Definition resolve (t : gmap (list string) node) (cwd : list string)
    (p : string) : option (list string) :=
  if Str.is_empty p then None
  else namei t (start_dir cwd p) (Str.split "/" p).

(** [os.path.exists]. *)
Definition exists_in (t : gmap (list string) node) (cwd : list string)
    (p : string) : bool :=
  match resolve t cwd p with
  | Some q => bool_decide (is_Some (node_at t q))
  | None => false
  end.

(** The walk of [os.makedirs]: the directories that are missing are
    created along the way and a file on the way stops it.  The result
    is the tree the walk leaves and the error it ends with, if any:
    [mkdir] refuses the last entry when the walk did not create it,
    which is what [fresh] records. *)
Fixpoint mkdir_walk (t : gmap (list string) node) (cur : list string)
    (comps : list string) (fresh : bool)
  : gmap (list string) node * option exn :=
  match comps with
  | [] => (t, if fresh then None else Some FileExistsError)
  | c :: rest =>
      if is_dir t cur then
        if String.eqb c "" || String.eqb c "." then mkdir_walk t cur rest fresh
        else
          let nxt := step cur c in
          match node_at t nxt with
          | Some Dir => mkdir_walk t nxt rest false
          | Some (File _) => (t, Some NotADirectoryError)
          | None => mkdir_walk (<[nxt := Dir]> t) nxt rest true
          end
      else (t, Some NotADirectoryError)
  end.

(** [os.makedirs(p)], which refuses an entry that exists. *)
Definition makedirs (t : gmap (list string) node) (cwd : list string)
    (p : string) : gmap (list string) node * option exn :=
  if Str.is_empty p then (t, Some FileNotFoundError)
  else if exists_in t cwd p then (t, Some FileExistsError)
  else mkdir_walk t (start_dir cwd p) (Str.split "/" p) false.

(** The error of a resolution that fails: a file on the way is not a
    directory, a name that is missing is not found. *)
Fixpoint namei_error (t : gmap (list string) node) (cur : list string)
    (comps : list string) : exn :=
  match comps with
  | [] => FileNotFoundError
  | c :: rest =>
      if is_dir t cur then namei_error t (step cur c) rest
      else match node_at t cur with
           | Some _ => NotADirectoryError
           | None => FileNotFoundError
           end
  end.

Definition resolve_error (t : gmap (list string) node) (cwd : list string)
    (p : string) : exn :=
  if Str.is_empty p then FileNotFoundError
  else namei_error t (start_dir cwd p) (Str.split "/" p).

(** [open(p, 'w')] and [open(p, 'wb')]: the file is created, or
    emptied if it is there; the result is the entry opened. *)
Definition open_for_write (t : gmap (list string) node) (cwd : list string)
    (p : string) : result (list string * gmap (list string) node) :=
  match resolve t cwd p with
  | None => Err (resolve_error t cwd p)
  | Some q =>
      if is_dir t q then Err IsADirectoryError
      else Ok (q, <[q := File ""]> t)
  end.

(** ** The remote side, events and the state *)

Record Client : Type := {
  base_url : string;
  access_token : string
}.

(** The two kinds of HTTP request the script sends: the export of a
    document, whose address is built from the client's base address
    and the document id and which carries the token, and the download
    of an attachment from the address the metadata gives. *)
Inductive request : Type :=
| ExportDocx (base : string) (thread_id : json) (token : string)
| Download (url : json).

Record response : Type := {
  status_code : Z;
  content : string
}.

(** What the script calls outside itself, each a function of the
    remote state [W]: the constructor and the two methods of
    [quip.QuipClient], and [requests.get]. *)
Class Remote (W : Type) : Type := {
  QuipClient_new : string → string → W → result unit * W;
  get_thread : json → W → result json * W;
  get_folder : json → W → result json * W;
  requests_get : request → W → result response * W
}.

(** The lines the script prints, one constructor for each [print]. *)
Inductive message : Type :=
| MsgErrorDownloading (e : exn)
| MsgErrorAccessingDocument (thread_id err : json)
| MsgExtractedDocx (p : string)
| MsgFailedDocx (title : string) (status : Z)
| MsgExtractedHtml (p : string)
| MsgDownloadedAttachment (p : string)
| MsgErrorProcessingDocument (thread_id : json) (e : exn)
| MsgErrorAccessingFolder (depth : nat) (folder_id err : json)
| MsgDebugFolder (folder : json)
| MsgProcessingFolder (depth : nat) (title : string)
| MsgFound (title : string) (total : nat)
| MsgProcessingDocument (depth processed total : nat)
| MsgCompletedFolder (depth : nat) (title : string) (total : nat)
| MsgErrorProcessingFolder (folder_id : json) (e : exn)
| MsgClientInitFailed (e : exn)
| MsgTokenTips
| MsgFailedToExtractId
| MsgLinkWas (link : string)
| MsgCheckLink
| MsgStarting (folder_id : string)
| MsgSavingTo (p : string)
| MsgCompleted
| MsgExtractionFailed (e : exn).

(** Observable events, in the order they happen.  [EvMakedirs] and
    [EvOpen] record a directory creation and the opening of a file for
    writing that succeeded. *)
Inductive event : Type :=
| EvNewClient (token api : string)
| EvGetThread (thread_id : json)
| EvGetFolder (folder_id : json)
| EvRequest (r : request)
| EvMakedirs (p : string)
| EvOpen (p : string)
| EvSleep
| EvPrint (m : message).

Record state (W : Type) : Type := {
  remote : W;
  cwd : list string;
  fs : gmap (list string) node;
  trace : list event
}.
Arguments remote {W} s.
Arguments cwd {W} s.
Arguments fs {W} s.
Arguments trace {W} s.

Definition set_remote {W : Type} (w : W) (s : state W) : state W :=
  {| remote := w; cwd := cwd s; fs := fs s; trace := trace s |}.
Definition set_fs {W : Type} (t : gmap (list string) node) (s : state W) : state W :=
  {| remote := remote s; cwd := cwd s; fs := t; trace := trace s |}.
Definition add_event {W : Type} (e : event) (s : state W) : state W :=
  {| remote := remote s; cwd := cwd s; fs := fs s; trace := trace s ++ [e] |}.

(** ** The monad of the script *)

Inductive outcome (A : Type) : Type :=
| Ret (a : A)
| Raise (e : exn)
| OutOfFuel.
Arguments Ret {A} a.
Arguments Raise {A} e.
Arguments OutOfFuel {A}.

Record M (W A : Type) : Type := MkM { run : state W → outcome A * state W }.
Arguments MkM {W A} run.
Arguments run {W A} m s.

#[global] Instance M_ret {W : Type} : MRet (M W) := λ A a, MkM (λ s, (Ret a, s)).
#[global] Instance M_bind {W : Type} : MBind (M W) := λ A B f m,
  MkM (λ s, match run m s with
            | (Ret a, s') => run (f a) s'
            | (Raise e, s') => (Raise e, s')
            | (OutOfFuel, s') => (OutOfFuel, s')
            end).

Section Monad.
Context {W : Type}.

Definition raise {A} (e : exn) : M W A := MkM (λ s, (Raise e, s)).
Definition out_of_fuel {A} : M W A := MkM (λ s, (OutOfFuel, s)).

Definition lift {A} (r : result A) : M W A :=
  match r with
  | Ok a => mret a
  | Err e => raise e
  end.

(** [try: m except Exception as e: h e]. *)
Definition try_except {A} (m : M W A) (h : exn → M W A) : M W A :=
  MkM (λ s, match run m s with
            | (Raise e, s') => run (h e) s'
            | r => r
            end).

Definition skip : M W unit := mret tt.

Definition log (e : event) : M W unit := MkM (λ s, (Ret tt, add_event e s)).
Definition print (m : message) : M W unit := log (EvPrint m).
Definition time_sleep : M W unit := log EvSleep.

(** A call outside the script. *)
Definition call {A} (f : W → result A * W) : M W A :=
  MkM (λ s, let '(r, w) := f (remote s) in run (lift r) (set_remote w s)).

Definition os_path_exists (p : string) : M W bool :=
  MkM (λ s, (Ret (exists_in (fs s) (cwd s) p), s)).

Definition os_makedirs (p : string) : M W unit :=
  MkM (λ s, match makedirs (fs s) (cwd s) p with
            | (t, None) => (Ret tt, add_event (EvMakedirs p) (set_fs t s))
            | (t, Some e) => (Raise e, set_fs t s)
            end).

Definition open_w (p : string) : M W (list string) :=
  MkM (λ s, match open_for_write (fs s) (cwd s) p with
            | Ok (q, t) => (Ret q, add_event (EvOpen p) (set_fs t s))
            | Err e => (Raise e, s)
            end).

(** [f.write(data)] on the file opened at [q]. *)
Definition file_write (q : list string) (data : string) : M W unit :=
  MkM (λ s, (Ret tt, set_fs (<[q := File data]> (fs s)) s)).

(** [for x in l], the body given the position of [x] counted from
    [i]. *)
Fixpoint for_each {A} (l : list A) (body : nat → A → M W unit) (i : nat)
  : M W unit :=
  match l with
  | [] => skip
  | x :: l' => body i x ;; for_each l' body (S i)
  end.

End Monad.

(** ** The script *)

Section Script.
Context {W : Type} {R : Remote W} {urllib : UrlLib}.

Definition create_directory_if_not_exists (path : string) : M W unit :=
  present ← os_path_exists path;
  if negb present then os_makedirs path else skip.

(** [Response.raise_for_status]: the client and server error
    statuses raise. *)
Definition raise_for_status (r : response) : M W unit :=
  if ((400 <=? status_code r) && (status_code r <? 600))%Z
  then raise (HTTPError (status_code r))
  else skip.

Definition download_blob (url : json) (file_path : string) : M W bool :=
  try_except
    (response ← (log (EvRequest (Download url)) ;;
                 call (requests_get (Download url)));
     raise_for_status response ;;
     f ← open_w file_path;
     file_write f (content response) ;;
     mret true)
    (λ e, print (MsgErrorDownloading e) ;; mret false).

(** Lines 75 to 96 of [process_thread]: the export as DOCX and the
    fallback to the HTML of the metadata. *)
Definition export_document (client : Client) (thread_id : json)
    (current_path : string) (thread_data : json) (thread_title : string)
  : M W unit :=
  let export := ExportDocx (base_url client) thread_id (access_token client) in
  let docx_path := os_path_join current_path (thread_title +:+ ".docx") in
  response ← (log (EvRequest export) ;; call (requests_get export));
  if (status_code response =? 200)%Z then
    f ← open_w docx_path;
    file_write f (content response) ;;
    print (MsgExtractedDocx docx_path)
  else
    print (MsgFailedDocx thread_title (status_code response)) ;;
    let html_path := os_path_join current_path (thread_title +:+ ".html") in
    content ← lift (py_get thread_data "html" JNull);
    if truthy content then
      f ← open_w html_path;
      match content with
      | JStr text => file_write f text
      | _ => raise TypeError
      end ;;
      print (MsgExtractedHtml html_path)
    else skip.

(** Lines 105 to 111 of [process_thread]: one attachment. *)
Definition download_attachment (attachments_path : string) (blob : json)
  : M W unit :=
  blob_url ← lift (py_get blob "url" JNull);
  blob_name ← lift (py_get blob "name" (JStr "Unknown_Attachment"));
  blob_name ← lift (sanitize_filename blob_name);
  let blob_path := os_path_join attachments_path blob_name in
  if truthy blob_url then
    downloaded ← download_blob blob_url blob_path;
    if (downloaded : bool) then print (MsgDownloadedAttachment blob_path)
    else skip
  else skip.

(** Lines 97 to 111 of [process_thread]: the attachments. *)
Definition download_attachments (current_path : string) (thread_data : json)
    (thread_title : string) : M W unit :=
  blobs ← lift (py_get thread_data "blobs" (JList []));
  if truthy blobs then
    let attachments_path :=
      os_path_join current_path (thread_title +:+ "_attachments") in
    create_directory_if_not_exists attachments_path ;;
    items ← lift (py_iter blobs);
    for_each items (λ _ blob, download_attachment attachments_path blob) 1
  else skip.

Definition process_thread (client : Client) (thread_id : json)
    (current_path : string) : M W unit :=
  try_except
    (thread_data ← (log (EvGetThread thread_id) ;;
                    call (get_thread thread_id));
     has_error ← lift (py_in "error" thread_data);
     if (has_error : bool) then
       err ← lift (py_getitem thread_data "error");
       print (MsgErrorAccessingDocument thread_id err)
     else
       thread ← lift (py_get thread_data "thread" (JDict []));
       thread_title ← lift (py_get thread "title" (JStr "Unknown_Document"));
       thread_title ← lift (sanitize_filename thread_title);
       export_document client thread_id current_path thread_data
         thread_title ;;
       download_attachments current_path thread_data thread_title)
    (λ e, print (MsgErrorProcessingDocument thread_id e)).

(** Lines 160 to 166: a child is a document when it carries
    [thread_id], else a folder when it carries [folder_id], else it
    is passed over.  The recursive call is a parameter. *)
Definition dispatch_child
    (recurse : json → string → nat → M W unit)
    (client : Client) (current_path : string) (depth total_items : nat)
    (processed_items : nat) (child : json) : M W unit :=
  is_thread ← lift (py_in "thread_id" child);
  if (is_thread : bool) then
    print (MsgProcessingDocument depth processed_items total_items) ;;
    thread_id ← lift (py_getitem child "thread_id");
    process_thread client thread_id current_path
  else
    is_folder ← lift (py_in "folder_id" child);
    if (is_folder : bool) then
      folder_id ← lift (py_getitem child "folder_id");
      recurse folder_id current_path (S depth)
    else skip.

(** The body of the loop over the children of a folder, lines 157 to
    169: the dispatch, then the pause. *)
Definition process_child
    (recurse : json → string → nat → M W unit)
    (client : Client) (current_path : string) (depth total_items : nat)
    (processed_items : nat) (child : json) : M W unit :=
  dispatch_child recurse client current_path depth total_items
    processed_items child ;;
  time_sleep.

Fixpoint process_folder (fuel : nat) (client : Client) (folder_id : json)
    (base_path : string) (depth : nat) : M W unit :=
  match fuel with
  | O => out_of_fuel
  | S fuel' =>
    try_except
      (folder ← (log (EvGetFolder folder_id) ;;
                 call (get_folder folder_id));
       has_error ← lift (py_in "error" folder);
       if (has_error : bool) then
         err ← lift (py_getitem folder "error");
         print (MsgErrorAccessingFolder depth folder_id err)
       else
         print (MsgDebugFolder folder) ;;
         info ← lift (py_get folder "folder" (JDict []));
         folder_title ← lift (py_get info "title" (JStr "Unknown_Folder"));
         folder_title ← lift (sanitize_filename folder_title);
         let current_path := os_path_join base_path folder_title in
         create_directory_if_not_exists current_path ;;
         print (MsgProcessingFolder depth folder_title) ;;
         _ ← lift (py_get folder "children" (JList []));
         has_children ← lift (py_in "children" folder);
         children ← (if (has_children : bool)
                     then lift (py_getitem folder "children")
                     else mret (JList []));
         total_items ← lift (py_len children);
         print (MsgFound folder_title total_items) ;;
         items ← lift (py_iter children);
         for_each items
           (process_child (process_folder fuel' client) client
              current_path depth total_items) 1 ;;
         print (MsgCompletedFolder depth folder_title total_items))
      (λ e, print (MsgErrorProcessingFolder folder_id e))
  end.

(** The command line after parsing and prompting: the token and the
    link are strings, the API address may be absent. *)
Record Args : Type := {
  arg_access_token : string;
  arg_folder_link : string;
  arg_output : string;
  arg_api_url : option string
}.

Definition default_api_url : string := "https://platform.quip-amazon.com".

(** [main] from line 204 on.  The result is the exit status:
    [sys.exit(1)] ends the run with 1, the end of [main] with 0; an
    exception that no handler catches is the outcome [Raise]. *)
Definition main (fuel : nat) (args : Args) : M W Z :=
  api_url ←
    match arg_api_url args with
    | Some u =>
        if negb (Str.is_empty u) then mret u
        else
          domain ← lift (get_domain_from_link (arg_folder_link args));
          mret (if negb (Str.is_empty domain)
                then "https://platform." +:+ domain
                else default_api_url)
    | None =>
        domain ← lift (get_domain_from_link (arg_folder_link args));
        mret (if negb (Str.is_empty domain)
              then "https://platform." +:+ domain
              else default_api_url)
    end;
  client ←
    try_except
      (log (EvNewClient (arg_access_token args) api_url) ;;
       call (QuipClient_new (arg_access_token args) api_url) ;;
       mret (Some {| base_url := api_url;
                     access_token := arg_access_token args |}))
      (λ e, print (MsgClientInitFailed e) ;; print MsgTokenTips ;;
            mret None);
  match client with
  | None => mret 1%Z
  | Some client =>
      folder_id ← lift (extract_id_from_link (arg_folder_link args));
      match folder_id with
      | Some (String c id) =>
          let folder_id := String c id in
          print (MsgStarting folder_id) ;;
          print (MsgSavingTo (arg_output args)) ;;
          create_directory_if_not_exists (arg_output args) ;;
          try_except
            (process_folder fuel client (JStr folder_id) (arg_output args) 0 ;;
             print MsgCompleted)
            (λ e, print (MsgExtractionFailed e)) ;;
          mret 0%Z
      | _ =>
          print MsgFailedToExtractId ;;
          print (MsgLinkWas (arg_folder_link args)) ;;
          print MsgCheckLink ;;
          mret 1%Z
      end
  end.

End Script.

(** ** A sample remote side *)

(** A small hierarchy used to run the script: the folder [ROOT] holds
    the document [T1], the folder [BAD] that answers with an error,
    the folder [SUB] and an entry of another kind; [SUB] holds [T2].
    The export of [T2] succeeds and that of the others is refused;
    [T1] has one attachment with an address and one without; [T4] has
    neither markup nor attachments; [T5] has only an attachment
    without an address. *)
Definition obj_title (t : string) : json := JDict [("title", JStr t)].

Definition sample_folder (id : json) : result json :=
  match id with
  | JStr "ROOT" =>
      Ok (JDict [("folder", obj_title "Pro/jects");
                 ("children",
                  JList [JDict [("thread_id", JStr "T1")];
                         JDict [("folder_id", JStr "BAD")];
                         JDict [("folder_id", JStr "SUB")];
                         JDict [("other", JNum 1)]])])
  | JStr "BAD" => Ok (JDict [("error", JStr "denied")])
  | JStr "SUB" =>
      Ok (JDict [("folder", obj_title "Sub");
                 ("children", JList [JDict [("thread_id", JStr "T2")]])])
  | _ => Err (OtherError "HTTP 404")
  end.

Definition plan_data : json :=
  JDict [("thread", obj_title "Plan: Q1");
         ("html", JStr "<h1>Plan</h1>");
         ("blobs",
          JList [JDict [("url", JStr "https://b/1"); ("name", JStr "a.png")];
                 JDict [("name", JStr "nourl")]])].

Definition notes_data : json :=
  JDict [("thread", obj_title "Notes"); ("html", JStr "<p>n</p>")].

Definition empty_data : json := JDict [("thread", obj_title "Empty")].

Definition memo_data : json :=
  JDict [("thread", obj_title "Memo");
         ("html", JStr "<p>m</p>");
         ("blobs", JList [JDict [("name", JStr "lost")]])].

Definition sample_thread (id : json) : result json :=
  match id with
  | JStr "T1" => Ok plan_data
  | JStr "T2" => Ok notes_data
  | JStr "T4" => Ok empty_data
  | JStr "T5" => Ok memo_data
  | _ => Ok (JDict [("error", JStr "gone")])
  end.

Definition sample_get (r : request) : result response :=
  match r with
  | ExportDocx _ (JStr "T2") _ => Ok {| status_code := 200; content := "DOCX2" |}
  | ExportDocx _ _ _ => Ok {| status_code := 500; content := "" |}
  | Download (JStr "https://b/1") => Ok {| status_code := 200; content := "PNG" |}
  | Download _ => Err (OtherError "connection refused")
  end.

Definition sample_remote : Remote unit := {|
  QuipClient_new := λ _ _ w, (Ok tt, w);
  get_thread := λ id w, (sample_thread id, w);
  get_folder := λ id w, (sample_folder id, w);
  requests_get := λ r w, (sample_get r, w)
|}.

(** The working directory [/home] with the directory [out] in it. *)
Definition sample_state : state unit := {|
  remote := tt;
  cwd := ["home"];
  fs := {[ ["home"] := Dir; ["home"; "out"] := Dir ]};
  trace := []
|}.

(** The working directory [/home] with nothing in it. *)
Definition empty_home : state unit := {|
  remote := tt;
  cwd := ["home"];
  fs := {[ ["home"] := Dir ]};
  trace := []
|}.

Definition sample_client : Client :=
  {| base_url := "https://platform.host"; access_token := "tok" |}.

Definition sample_args : Args := {|
  arg_access_token := "tok";
  arg_folder_link := "https://quip.example.com/ROOT";
  arg_output := "out";
  arg_api_url := None
|}.

(** * Properties *)

(** ** Running the monad *)

Section Run.
Context {W : Type}.
Implicit Types s : state W.

Lemma run_bind {A B} (m : M W A) (f : A → M W B) s :
  run (m ≫= f) s =
  match run m s with
  | (Ret a, s') => run (f a) s'
  | (Raise e, s') => (Raise e, s')
  | (OutOfFuel, s') => (OutOfFuel, s')
  end.
Proof. reflexivity. Qed.

Lemma run_try {A} (m : M W A) (h : exn → M W A) s :
  run (try_except m h) s =
  match run m s with
  | (Raise e, s') => run (h e) s'
  | r => r
  end.
Proof. reflexivity. Qed.

Lemma run_ret {A} (a : A) s : run (mret a : M W A) s = (Ret a, s).
Proof. reflexivity. Qed.

Lemma run_lift {A} (r : result A) s :
  run (lift r) s = (match r with Ok a => Ret a | Err e => Raise e end, s).
Proof. by destruct r. Qed.

Lemma run_log e s : run (log e) s = (Ret tt, add_event e s).
Proof. reflexivity. Qed.

(** The weakest precondition of [m] for a postcondition on the
    outcome and the final state. *)
Definition wp {A} (m : M W A) (s : state W)
    (Q : outcome A → state W → Prop) : Prop :=
  Q (run m s).1 (run m s).2.

Lemma wp_run {A} (m : M W A) s Q r s' :
  wp m s Q → run m s = (r, s') → Q r s'.
Proof. unfold wp. intros H E. by rewrite E in H. Qed.

Lemma wp_elim {A} (m : M W A) s Q :
  wp m s Q → ∃ r s', run m s = (r, s') ∧ Q r s'.
Proof. unfold wp. destruct (run m s) as [r s']. eauto. Qed.

Lemma wp_mono {A} (m : M W A) s (Q Q' : outcome A → state W → Prop) :
  wp m s Q → (∀ r s', Q r s' → Q' r s') → wp m s Q'.
Proof. unfold wp. auto. Qed.

Lemma wp_ret {A} (a : A) s Q : Q (Ret a) s → wp (mret a) s Q.
Proof. done. Qed.

Lemma wp_skip s Q : Q (Ret tt) s → wp skip s Q.
Proof. done. Qed.

Lemma wp_raise {A} e s (Q : outcome A → state W → Prop) :
  Q (Raise e) s → wp (raise e) s Q.
Proof. done. Qed.

Lemma wp_bind {A B} (m : M W A) (f : A → M W B) s Q :
  wp m s (λ r s', match r with
                  | Ret a => wp (f a) s' Q
                  | Raise e => Q (Raise e) s'
                  | OutOfFuel => Q OutOfFuel s'
                  end) →
  wp (m ≫= f) s Q.
Proof.
  unfold wp. rewrite run_bind.
  by destruct (run m s) as [[a|e|] s'].
Qed.

Lemma wp_try {A} (m : M W A) (h : exn → M W A) s Q :
  wp m s (λ r s', match r with
                  | Raise e => wp (h e) s' Q
                  | _ => Q r s'
                  end) →
  wp (try_except m h) s Q.
Proof.
  unfold wp. rewrite run_try.
  by destruct (run m s) as [[a|e|] s'].
Qed.

Lemma wp_lift {A} (r : result A) s Q :
  match r with Ok a => Q (Ret a) s | Err e => Q (Raise e) s end →
  wp (lift r) s Q.
Proof. by destruct r. Qed.

Lemma wp_log e s Q : Q (Ret tt) (add_event e s) → wp (log e) s Q.
Proof. done. Qed.

Lemma wp_call {A} (f : W → result A * W) s Q :
  (∀ r w, f (remote s) = (r, w) →
          match r with
          | Ok a => Q (Ret a) (set_remote w s)
          | Err e => Q (Raise e) (set_remote w s)
          end) →
  wp (call f) s Q.
Proof.
  unfold wp, call. simpl. intros H.
  destruct (f (remote s)) as [r w] eqn:E. specialize (H r w eq_refl).
  by destruct r.
Qed.

Lemma wp_exists p s Q :
  Q (Ret (exists_in (fs s) (cwd s) p)) s → wp (os_path_exists p) s Q.
Proof. done. Qed.

Lemma wp_makedirs p s Q :
  match makedirs (fs s) (cwd s) p with
  | (t, None) => Q (Ret tt) (add_event (EvMakedirs p) (set_fs t s))
  | (t, Some e) => Q (Raise e) (set_fs t s)
  end →
  wp (os_makedirs p) s Q.
Proof. unfold wp, os_makedirs. simpl. by destruct makedirs as [t [e|]]. Qed.

Lemma wp_open p s Q :
  match open_for_write (fs s) (cwd s) p with
  | Ok (q, t) => Q (Ret q) (add_event (EvOpen p) (set_fs t s))
  | Err e => Q (Raise e) s
  end →
  wp (open_w p) s Q.
Proof.
  unfold wp, open_w. simpl. by destruct open_for_write as [[q t]|].
Qed.

Lemma wp_write q data s Q :
  Q (Ret tt) (set_fs (<[q := File data]> (fs s)) s) →
  wp (file_write q data) s Q.
Proof. done. Qed.

(** The loop rule: [I] holds each time the body is entered. *)
Lemma wp_for_each {A} (l : list A) (body : nat → A → M W unit) i s
    (I : state W → Prop) (Q : outcome unit → state W → Prop) :
  I s →
  (∀ j x s1, x ∈ l → I s1 →
     wp (body j x) s1 (λ r s2, match r with
                               | Ret _ => I s2
                               | _ => Q r s2
                               end)) →
  (∀ s1, I s1 → Q (Ret tt) s1) →
  wp (for_each l body i) s Q.
Proof.
  intros HI Hbody Hend. revert i s HI.
  induction l as [|x l IH]; intros i s HI; simpl.
  - by apply wp_skip, Hend.
  - apply wp_bind. eapply wp_mono.
    + apply Hbody; [left|done].
    + intros [[]|e|] s2 H2; try done.
      apply IH; [|done].
      intros j y s1 Hy. apply Hbody. by right.
Qed.

End Run.

(** ** The primitive steps of the script *)

(** The events that no change of the file tree comes with. *)
Definition plain_event (e : event) : Prop :=
  match e with
  | EvMakedirs _ | EvOpen _ => False
  | _ => True
  end.

Section Steps.
Context {W : Type}.
Implicit Types s : state W.

(** Every change of the state is one of these steps; [E] bounds the
    events that may be recorded. *)
Inductive prim_step (E : event → Prop) : state W → state W → Prop :=
| ps_log s e :
    plain_event e → E e → prim_step E s (add_event e s)
| ps_remote s w :
    prim_step E s (set_remote w s)
| ps_makedirs s p t :
    makedirs (fs s) (cwd s) p = (t, None) → E (EvMakedirs p) →
    prim_step E s (add_event (EvMakedirs p) (set_fs t s))
| ps_makedirs_fail s p t e :
    makedirs (fs s) (cwd s) p = (t, Some e) →
    prim_step E s (set_fs t s)
| ps_open s p q t :
    open_for_write (fs s) (cwd s) p = Ok (q, t) → E (EvOpen p) →
    prim_step E s (add_event (EvOpen p) (set_fs t s))
| ps_write s q old data :
    fs s !! q = Some (File old) →
    prim_step E s (set_fs (<[q := File data]> (fs s)) s).

Definition reach (E : event → Prop) : state W → state W → Prop :=
  rtc (prim_step E).

Lemma reach_refl E s : reach E s s.
Proof. apply rtc_refl. Qed.


Lemma reach_log E e s0 s :
  plain_event e → E e → reach E s0 s → reach E s0 (add_event e s).
Proof. intros Hp He H. eapply rtc_r; [done|]. by constructor. Qed.

Lemma reach_remote E w s0 s : reach E s0 s → reach E s0 (set_remote w s).
Proof. intros H. eapply rtc_r; [done|]. by constructor. Qed.

Lemma reach_makedirs E p t s0 s :
  makedirs (fs s) (cwd s) p = (t, None) → E (EvMakedirs p) →
  reach E s0 s → reach E s0 (add_event (EvMakedirs p) (set_fs t s)).
Proof. intros Hm He H. eapply rtc_r; [done|]. by constructor. Qed.

Lemma reach_makedirs_fail E p t e s0 s :
  makedirs (fs s) (cwd s) p = (t, Some e) →
  reach E s0 s → reach E s0 (set_fs t s).
Proof. intros Hm H. eapply rtc_r; [done|]. by econstructor. Qed.

Lemma reach_open E p q t s0 s :
  open_for_write (fs s) (cwd s) p = Ok (q, t) → E (EvOpen p) →
  reach E s0 s → reach E s0 (add_event (EvOpen p) (set_fs t s)).
Proof. intros Hm He H. eapply rtc_r; [done|]. by econstructor. Qed.

Lemma reach_write E q old data s0 s :
  fs s !! q = Some (File old) →
  reach E s0 s → reach E s0 (set_fs (<[q := File data]> (fs s)) s).
Proof. intros Hq H. eapply rtc_r; [done|]. by econstructor. Qed.


(** What a run leaves of the state it started from. *)
Lemma reach_cwd E s s' : reach E s s' → cwd s' = cwd s.
Proof.
  induction 1 as [|s1 s2 s3 Hstep _ IH]; [done|].
  rewrite IH. by destruct Hstep.
Qed.

Lemma reach_trace E s s' :
  reach E s s' → ∃ evs, trace s' = trace s ++ evs ∧ Forall E evs.
Proof.
  induction 1 as [s|s1 s2 s3 Hstep _ (evs & -> & Hevs)].
  - exists []. by rewrite app_nil_r.
  - destruct Hstep; simpl; try (by exists evs);
      rewrite <- app_assoc; eexists; (split; [done|]); by constructor.
Qed.

Lemma open_for_write_inv t c p q t' :
  open_for_write t c p = Ok (q, t') →
  resolve t c p = Some q ∧ is_dir t q = false ∧ t' = <[q := File ""]> t.
Proof.
  unfold open_for_write. destruct (resolve t c p) as [q'|]; [|done].
  destruct (is_dir t q') eqn:Hd; [done|]. by intros [= <- <-].
Qed.

Lemma open_for_write_lookup t c p q t' :
  open_for_write t c p = Ok (q, t') → t' !! q = Some (File "").
Proof.
  intros (_ & _ & ->)%open_for_write_inv. apply lookup_insert_eq.
Qed.

End Steps.

(** One step of a proof that walks a program of the script: the rule
    of the construct at the head of the program, the fact [reach] in
    the context being carried to the new state. *)
Ltac wp_reach H :=
  lazymatch goal with
  | |- wp (mbind _ _) _ _ => apply wp_bind
  | |- wp (try_except _ _) _ _ => apply wp_try
  | |- wp (mret _) _ _ => apply wp_ret
  | |- wp skip _ _ => apply wp_skip
  | |- wp (raise _) _ _ => apply wp_raise
  | |- wp (lift ?r) _ _ =>
      apply wp_lift;
      first [ match goal with Hx : r = _ |- _ => rewrite Hx end
            | let Er := fresh "Er" in destruct r eqn:Er ]
  | |- wp (log ?e) _ _ =>
      apply wp_log; apply (reach_log _ e) in H; [|exact I|try done]
  | |- wp (print ?m) _ _ =>
      apply wp_log; apply (reach_log _ (EvPrint m)) in H; [|exact I|try done]
  | |- wp time_sleep _ _ =>
      apply wp_log; apply (reach_log _ EvSleep) in H; [|exact I|try done]
  | |- wp (call _) _ _ =>
      let r := fresh "r" in let w := fresh "w" in let Ec := fresh "Ec" in
      apply wp_call; intros r w Ec; apply (reach_remote _ w) in H;
      destruct r
  | |- wp (os_path_exists _) _ _ => apply wp_exists
  | |- wp (os_makedirs ?p) ?s _ =>
      let Em := fresh "Em" in
      apply wp_makedirs;
      destruct (makedirs (fs s) (cwd s) p) as [? [?|]] eqn:Em;
      [ eapply (reach_makedirs_fail _ _ _ _ _ _ Em) in H
      | eapply (reach_makedirs _ _ _ _ _ Em) in H; [|try done] ]
  | |- wp (open_w ?p) ?s _ =>
      let Eo := fresh "Eo" in
      apply wp_open;
      destruct (open_for_write (fs s) (cwd s) p) as [[? ?]|] eqn:Eo;
      [eapply (reach_open _ _ _ _ _ _ Eo) in H; [|try done]|]
  | |- wp (file_write _ _) _ _ =>
      apply wp_write;
      eapply reach_write in H;
      [|simpl; eapply open_for_write_lookup; eassumption]
  | |- wp (if ?b then _ else _) _ _ =>
      let Eb := fresh "Eb" in destruct b eqn:Eb
  | |- wp (match ?x with _ => _ end) _ _ =>
      let Ex := fresh "Ex" in destruct x eqn:Ex
  end; cbv beta iota.

(** ** What the functions of the script do to the state *)

(** The events of the attachments of a document: the creation of the
    attachments directory [att], downloads, files opened in [att]
    under a sanitized name and printed lines. *)
Definition attachment_event (att : string) (e : event) : Prop :=
  match e with
  | EvMakedirs p => p = att
  | EvOpen p => ∃ name, p = os_path_join att (re_sub_reserved name)
  | EvRequest (Download _) => True
  | EvPrint _ => True
  | _ => False
  end.

(** The events of the export of a document: no pause, no folder
    request, no client construction. *)
Definition document_event (e : event) : Prop :=
  match e with
  | EvSleep | EvGetFolder _ | EvNewClient _ _ => False
  | _ => True
  end.

Lemma sanitize_filename_inv (x : json) (out : string) :
  sanitize_filename x = Ok out → ∃ s, x = JStr s ∧ out = re_sub_reserved s.
Proof. destruct x; try done. intros [= <-]. by eexists. Qed.

Section Structure.
Context {W : Type} {R : Remote W}.
Implicit Types s : state W.

Lemma create_directory_wp E p s0 s :
  E (EvMakedirs p) → reach E s0 s →
  wp (create_directory_if_not_exists p) s
     (λ r s', r ≠ OutOfFuel ∧ reach E s0 s').
Proof.
  intros HE H. unfold create_directory_if_not_exists.
  repeat wp_reach H; done.
Qed.

Lemma download_blob_wp E url p s0 s :
  E (EvRequest (Download url)) → E (EvOpen p) → (∀ m, E (EvPrint m)) →
  reach E s0 s →
  wp (download_blob url p) s (λ r s', (∃ b, r = Ret b) ∧ reach E s0 s').
Proof.
  intros HE1 HE2 HE3 H. unfold download_blob, raise_for_status.
  repeat wp_reach H; eauto.
Qed.

Lemma download_attachment_wp E att blob s0 s :
  (∀ e, attachment_event att e → E e) →
  reach E s0 s →
  wp (download_attachment att blob) s
     (λ r s', r ≠ OutOfFuel ∧ reach E s0 s').
Proof.
  intros HE H. unfold download_attachment.
  repeat wp_reach H; try done.
  eapply wp_mono.
  { apply download_blob_wp; [..|exact H]; intros; apply HE; simpl; eauto.
    match goal with
    | Hs : sanitize_filename _ = Ok _ |- _ =>
        apply sanitize_filename_inv in Hs as (name & _ & ->)
    end.
    by exists name. }
  intros r s3 [[b ->] H3].
  repeat wp_reach H3; try done. by apply HE.
Qed.

Lemma attachments_loop_wp E att items i s0 s :
  (∀ e, attachment_event att e → E e) →
  reach E s0 s →
  wp (for_each items (λ _ blob, download_attachment att blob) i) s
     (λ r s', r ≠ OutOfFuel ∧ reach E s0 s').
Proof.
  intros HE H.
  eapply (wp_for_each _ _ _ _ (reach E s0)); [done| |done].
  intros j blob s2 _ H2.
  eapply wp_mono; [by apply download_attachment_wp|].
  by intros [[]|e|] s3 [Hr H3].
Qed.

Lemma download_attachments_wp E cur td title s0 s :
  (∀ e, attachment_event (os_path_join cur (title +:+ "_attachments")) e
        → E e) →
  reach E s0 s →
  wp (download_attachments cur td title) s
     (λ r s', r ≠ OutOfFuel ∧ reach E s0 s').
Proof.
  intros HE H. unfold download_attachments.
  repeat wp_reach H; try done.
  eapply wp_mono.
  { apply create_directory_wp; [|done]. by apply HE. }
  intros [[]|e|] s1 [Hr H1]; try done.
  repeat wp_reach H1; try done.
  by apply attachments_loop_wp.
Qed.

Lemma export_document_wp E client id cur td title s0 s :
  (∀ e, document_event e → E e) →
  reach E s0 s →
  wp (export_document client id cur td title) s
     (λ r s', r ≠ OutOfFuel ∧ reach E s0 s').
Proof.
  intros HE H. unfold export_document.
  repeat (wp_reach H; try done; try (by apply HE)).
Qed.

Lemma attachment_document_event att e :
  attachment_event att e → document_event e.
Proof. by destruct e. Qed.

(** [process_thread] always returns, whatever the remote side does. *)
Lemma process_thread_wp E client id cur s0 s :
  (∀ e, document_event e → E e) →
  reach E s0 s →
  wp (process_thread client id cur) s
     (λ r s', r = Ret tt ∧ reach E s0 s').
Proof.
  intros HE H. unfold process_thread.
  repeat (wp_reach H; try done; try (by apply HE)).
  eapply wp_mono; [by apply export_document_wp|].
  intros [[]|e|] s1 [Hr H1]; try done.
  - eapply wp_mono.
    { apply download_attachments_wp; [|done].
      intros e He. by eapply HE, attachment_document_event. }
    intros [[]|e|] s2 [Hr2 H2]; try done.
    repeat (wp_reach H2; try done; try (by apply HE)).
  - repeat (wp_reach H1; try done; try (by apply HE)).
Qed.

End Structure.

Definition any_event (e : event) : Prop := True.

Section Folder.
Context {W : Type} {R : Remote W}.
Implicit Types s : state W.

(** A callee in the place of the recursive call that returns or runs
    out of fuel, and never raises. *)
Definition contained (recurse : json → string → nat → M W unit) : Prop :=
  ∀ id p d s0 s, reach any_event s0 s →
    wp (recurse id p d) s
       (λ r s', (r = Ret tt ∨ r = OutOfFuel) ∧ reach any_event s0 s').

Lemma dispatch_child_wp recurse client cur depth total i child s0 s :
  contained recurse → reach any_event s0 s →
  wp (dispatch_child recurse client cur depth total i child) s
     (λ r s', reach any_event s0 s').
Proof.
  intros Hrec H. unfold dispatch_child.
  repeat (wp_reach H; try done).
  - eapply wp_mono; [by apply (process_thread_wp any_event)|].
    by intros r s1 [-> H1].
  - eapply wp_mono; [by apply Hrec|].
    by intros r s1 [_ H1].
Qed.

Lemma process_child_wp recurse client cur depth total i child s0 s :
  contained recurse → reach any_event s0 s →
  wp (process_child recurse client cur depth total i child) s
     (λ r s', reach any_event s0 s').
Proof.
  intros Hrec H. unfold process_child.
  apply wp_bind. eapply wp_mono; [by apply dispatch_child_wp|].
  intros [[]|e|] s1 H1; try done.
  by repeat (wp_reach H1; try done).
Qed.

(** [process_folder] returns or runs out of fuel; it never raises. *)
Lemma process_folder_wp fuel client id base depth s0 s :
  reach any_event s0 s →
  wp (process_folder fuel client id base depth) s
     (λ r s', (r = Ret tt ∨ r = OutOfFuel) ∧ reach any_event s0 s').
Proof.
  revert id base depth s0 s.
  induction fuel as [|fuel IH]; intros id base depth s0 s H;
    cbn [process_folder].
  { split; [by right|done]. }
  repeat (wp_reach H; try (by auto)).
  eapply wp_mono; [by apply (create_directory_wp any_event)|].
  intros [[]|e|] s1 [Hr H1]; try done.
  - repeat (wp_reach H1; try (by auto)).
    all: eapply (wp_for_each _ _ _ _ (reach any_event s0)); [done| |].
    all: try (intros j child s2 _ H2; eapply wp_mono;
              [apply process_child_wp; [exact IH|exact H2]|];
              intros [[]|e|] s3 H3; cbv beta iota;
              repeat (wp_reach H3; try (by auto)); by auto).
    all: intros s2 H2; repeat (wp_reach H2; try (by auto)).
  - repeat (wp_reach H1; try (by auto)).
Qed.


End Folder.

(** One step of a walk that computes: a test or a lifted result whose
    value is a hypothesis is replaced by it, any other is split. *)
Ltac wp_known x :=
  match goal with
  | Hx : x = _ |- _ => rewrite Hx
  end.

(** The file tree and the working directory of a state built with the
    state updates, brought to the front. *)
Ltac norm_fs t :=
  let t' := eval cbn [fs cwd remote trace add_event set_remote set_fs] in t in
  change t with t'.

Ltac wp_step :=
  lazymatch goal with
  | |- wp (mbind _ _) _ _ => apply wp_bind
  | |- wp (try_except _ _) _ _ => apply wp_try
  | |- wp (mret _) _ _ => apply wp_ret
  | |- wp skip _ _ => apply wp_skip
  | |- wp (raise _) _ _ => apply wp_raise
  | |- wp (lift ?r) _ _ =>
      apply wp_lift;
      first [wp_known r | let Er := fresh "Er" in destruct r eqn:Er]
  | |- wp (log _) _ _ => apply wp_log
  | |- wp (print _) _ _ => apply wp_log
  | |- wp time_sleep _ _ => apply wp_log
  | |- wp (call ?f) ?s _ =>
      let r := fresh "r" in let w := fresh "w" in let Ec := fresh "Ec" in
      apply wp_call; intros r w Ec;
      cbn [remote add_event set_remote set_fs] in Ec;
      first [ match goal with
              | Hc : f _ = _ |- _ => rewrite Hc in Ec; injection Ec as <- <-
              end
            | destruct r ]
  | |- wp (os_path_exists ?p) ?s _ =>
      apply wp_exists; norm_fs (fs s); norm_fs (cwd s)
  | |- wp (os_makedirs ?p) ?s _ =>
      apply wp_makedirs; norm_fs (fs s); norm_fs (cwd s);
      first [ match goal with
              | Hx : makedirs _ _ p = _ |- _ => rewrite Hx
              end
            | let Em := fresh "Em" in
              match goal with
              | |- context [makedirs ?t ?c p] =>
                  destruct (makedirs t c p) as [? [?|]] eqn:Em
              end ]
  | |- wp (open_w ?p) ?s _ =>
      apply wp_open; norm_fs (fs s); norm_fs (cwd s);
      first [ match goal with
              | Hx : open_for_write _ _ p = _ |- _ => rewrite Hx
              end
            | let Eo := fresh "Eo" in
              match goal with
              | |- context [open_for_write ?t ?c p] =>
                  destruct (open_for_write t c p) as [[? ?]|] eqn:Eo
              end ]
  | |- wp (file_write _ _) _ _ => apply wp_write
  | |- wp (if negb (exists_in ?t ?c ?p) then _ else _) _ _ =>
      first [ match goal with
              | Hx : exists_in _ _ p = _ |- _ => rewrite Hx
              end
            | let Eb := fresh "Eb" in destruct (exists_in t c p) eqn:Eb ];
      cbn [negb]
  | |- wp (if ?b then _ else _) _ _ =>
      first [wp_known b | let Eb := fresh "Eb" in destruct b eqn:Eb]
  | |- wp (match ?x with _ => _ end) _ _ =>
      first [wp_known x | let Ex := fresh "Ex" in destruct x eqn:Ex]
  end; cbv beta iota.

Lemma for_each_cons {W A} (x : A) (l : list A) (body : nat → A → M W unit)
    (i : nat) (s s1 : state W) :
  run (body i x) s = (Ret tt, s1) →
  run (for_each (x :: l) body i) s = run (for_each l body (S i)) s1.
Proof. intros H. cbn [for_each]. by rewrite run_bind, H. Qed.

(** ** Failures are contained at the document *)

(** C1.  Whatever the client and the HTTP library do, [process_thread]
    returns normally.  When the metadata fetched carry an [error] key
    it records the request and prints one line, leaving the file tree
    as it was; and the loop over the children of the enclosing folder,
    having reached such a document, goes on with the children that
    follow. *)
Theorem process_thread_never_raises {W : Type} {R : Remote W}
    (client : Client) (thread_id : json) (current_path : string)
    (s : state W) :
  (∃ s', run (process_thread client thread_id current_path) s = (Ret tt, s'))
  ∧ (∀ thread_data w,
       get_thread thread_id (remote s) = (Ok thread_data, w) →
       py_in "error" thread_data = Ok true →
       ∃ m, run (process_thread client thread_id current_path) s =
            (Ret tt,
             add_event (EvPrint m)
               (set_remote w (add_event (EvGetThread thread_id) s))))
  ∧ (∀ recurse depth total i child rest,
       py_in "thread_id" child = Ok true →
       py_getitem child "thread_id" = Ok thread_id →
       ∃ s1,
         run (process_thread client thread_id current_path)
             (add_event (EvPrint (MsgProcessingDocument depth i total)) s)
         = (Ret tt, s1)
         ∧ run (for_each (child :: rest)
                  (process_child recurse client current_path depth total) i) s
           = run (for_each rest
                    (process_child recurse client current_path depth total)
                    (S i))
                 (add_event EvSleep s1)).
Proof.
  assert (Hret : ∀ s1 : state W, ∃ s',
             run (process_thread client thread_id current_path) s1
             = (Ret tt, s')).
  { intros s1.
    pose proof (process_thread_wp any_event client thread_id current_path
                  s1 s1 (λ _ _, I) (reach_refl _ _)) as H.
    apply wp_elim in H as (r & s' & Hrun & -> & _). by exists s'. }
  split; [apply Hret|]. split.
  - intros thread_data w Hget Herr.
    enough (wp (process_thread client thread_id current_path) s
              (λ r s', ∃ m, r = Ret tt ∧
                 s' = add_event (EvPrint m)
                        (set_remote w (add_event (EvGetThread thread_id) s))))
      as H.
    { apply wp_elim in H as (r & s' & Hrun & m & -> & ->). by exists m. }
    unfold process_thread. repeat wp_step; eauto.
  - intros recurse depth total i child rest Hin Hid.
    destruct (Hret (add_event (EvPrint (MsgProcessingDocument depth i total)) s))
      as [s1 Hs1].
    exists s1. split; [done|].
    apply for_each_cons.
    unfold process_child, dispatch_child.
    rewrite !run_bind, run_lift, Hin. cbv beta iota.
    rewrite run_bind. unfold print. rewrite run_log, run_bind, run_lift, Hid.
    cbv beta iota. by rewrite Hs1.
Qed.

Lemma process_thread_never_raises_witness :
  ∃ m, run (process_thread (R := sample_remote) sample_client
              (JStr "T9") "out") sample_state
       = (Ret tt,
          add_event (EvPrint m)
            (set_remote tt (add_event (EvGetThread (JStr "T9")) sample_state))).
Proof.
  apply (proj1 (proj2 (process_thread_never_raises (R := sample_remote)
                         sample_client (JStr "T9") "out" sample_state))
           (JDict [("error", JStr "gone")]) tt);
    reflexivity.
Defined.

(** ** A folder that cannot be fetched *)

Lemma process_folder_error_run {W : Type} {R : Remote W}
    (fuel : nat) (client : Client) (folder_id : json) (base_path : string)
    (depth : nat) (s : state W) (payload : json) (w : W) :
  get_folder folder_id (remote s) = (Ok payload, w) →
  py_in "error" payload = Ok true →
  ∃ m, run (process_folder (S fuel) client folder_id base_path depth) s
       = (Ret tt,
          add_event (EvPrint m)
            (set_remote w (add_event (EvGetFolder folder_id) s))).
Proof.
  intros Hget Herr.
  enough (wp (process_folder (S fuel) client folder_id base_path depth) s
            (λ r s', ∃ m, r = Ret tt ∧
               s' = add_event (EvPrint m)
                      (set_remote w (add_event (EvGetFolder folder_id) s))))
    as H.
  { apply wp_elim in H as (r & s' & Hrun & m & -> & ->). by exists m. }
  cbn [process_folder]. repeat wp_step; eauto.
Qed.

(** C2.  When the metadata of a folder carry an [error] key,
    [process_folder] records the request, prints one line and returns:
    the file tree is unchanged and no directory or file event is
    recorded.  In the loop of the parent the children that follow are
    processed from that state, after the pause. *)
Theorem process_folder_error_payload {W : Type} {R : Remote W}
    (fuel : nat) (client : Client) (folder_id : json) (base_path : string)
    (s : state W) (payload : json) (w : W) :
  get_folder folder_id (remote s) = (Ok payload, w) →
  py_in "error" payload = Ok true →
  (∀ depth, ∃ m s',
     s' = add_event (EvPrint m)
            (set_remote w (add_event (EvGetFolder folder_id) s))
     ∧ run (process_folder (S fuel) client folder_id base_path depth) s
       = (Ret tt, s')
     ∧ fs s' = fs s)
  ∧ (∀ depth total i child rest,
       py_in "thread_id" child = Ok false →
       py_in "folder_id" child = Ok true →
       py_getitem child "folder_id" = Ok folder_id →
       ∃ m,
         run (for_each (child :: rest)
                (process_child (process_folder (S fuel) client) client
                   base_path depth total) i) s
         = run (for_each rest
                  (process_child (process_folder (S fuel) client) client
                     base_path depth total) (S i))
               (add_event EvSleep
                  (add_event (EvPrint m)
                     (set_remote w (add_event (EvGetFolder folder_id) s))))).
Proof.
  intros Hget Herr. split.
  - intros depth.
    destruct (process_folder_error_run fuel client folder_id base_path depth
                s payload w Hget Herr) as [m Hm].
    by exists m, (add_event (EvPrint m)
                 (set_remote w (add_event (EvGetFolder folder_id) s))).
  - intros depth total i child rest Hthread Hfolder Hid.
    destruct (process_folder_error_run fuel client folder_id base_path
                (S depth) s payload w Hget Herr) as [m Hm].
    exists m. apply for_each_cons.
    unfold process_child, dispatch_child.
    rewrite !run_bind, run_lift, Hthread. cbv beta iota.
    rewrite run_bind, run_lift, Hfolder. cbv beta iota.
    rewrite run_bind, run_lift, Hid. cbv beta iota.
    by rewrite Hm.
Qed.

Lemma process_folder_error_payload_witness :
  ∃ m s',
    s' = add_event (EvPrint m)
           (set_remote tt (add_event (EvGetFolder (JStr "BAD")) sample_state))
    ∧ run (process_folder (R := sample_remote) 1 sample_client
             (JStr "BAD") "out" 1) sample_state
      = (Ret tt, s')
    ∧ fs s' = fs sample_state.
Proof.
  apply (proj1 (process_folder_error_payload (R := sample_remote) 0
                  sample_client (JStr "BAD") "out" sample_state
                  (JDict [("error", JStr "denied")]) tt eq_refl eq_refl) 1).
Defined.

(** ** File names *)

Lemma mem_filter (f : ascii → bool) (c : ascii) (s : string) :
  Str.mem c (Str.filter f s) = true → f c = true.
Proof.
  induction s as [|a s IH]; simpl; [done|].
  destruct (f a) eqn:Hfa; simpl; [|done].
  destruct (Ascii.eqb a c) eqn:Hac; simpl; [|done].
  apply Ascii.eqb_eq in Hac. by subst.
Qed.

Lemma filter_all (f : ascii → bool) (s : string) :
  Str.forallb f s = true → Str.filter f s = s.
Proof.
  induction s as [|a s IH]; simpl; [done|].
  intros [Ha Hs]%andb_true_iff. rewrite Ha. f_equal. auto.
Qed.

Lemma is_reserved_elem (c : ascii) :
  is_reserved c = true ↔ c ∈ reserved_chars.
Proof.
  unfold is_reserved. rewrite existsb_exists. split.
  - intros (x & Hx & Heq). apply Ascii.eqb_eq in Heq. subst.
    by apply list_elem_of_In.
  - intros Hc. exists c. split; [by apply list_elem_of_In|].
    apply Ascii.eqb_refl.
Qed.

Lemma re_sub_reserved_clean (s : string) (c : ascii) :
  c ∈ reserved_chars → Str.mem c (re_sub_reserved s) = false.
Proof.
  intros Hc%is_reserved_elem.
  destruct (Str.mem c (re_sub_reserved s)) eqn:Hm; [|done].
  apply mem_filter in Hm. by rewrite Hc in Hm.
Qed.





(** ** The id of the root folder *)

Lemma split_nonempty (sep : ascii) (s : string) : Str.split sep s ≠ [].
Proof.
  induction s as [|a s IH]; simpl; [done|].
  destruct (Ascii.eqb a sep); [done|].
  by destruct (Str.split sep s).
Qed.

Lemma last_item_ok (l : list string) :
  l ≠ [] → ∃ x, last_item l = Ok x.
Proof.
  unfold last_item. induction l as [|a [|b l] IH]; [done| |].
  - intros _. by exists a.
  - intros _. apply IH. done.
Qed.

Lemma first_item_ok (l : list string) :
  l ≠ [] → ∃ x, first_item l = Ok x.
Proof. destruct l as [|a l]; [done|]. intros _. by exists a. Qed.

Definition session_event (e : event) : Prop :=
  match e with
  | EvNewClient _ _ | EvPrint _ => True
  | _ => False
  end.

Section Link.
Context {urllib : UrlLib}.

Lemma extract_id_shape (link : string) :
  (∃ e, urlparse link = Err e ∧ extract_id_from_link link = Err e)
  ∨ (∃ parsed id, urlparse link = Ok parsed
                  ∧ extract_id_from_link link = Ok (Some id)).
Proof.
  unfold extract_id_from_link.
  destruct (urlparse link) as [parsed|e]; simpl; [right|left; by exists e].
  pose proof (split_nonempty "/" (Str.strip (is_char "/") (path parsed)))
    as Hne.
  rewrite bool_decide_eq_false_2 by done.
  destruct (last_item_ok _ Hne) as [x ->]. simpl.
  destruct (first_item_ok _ (split_nonempty "#" x)) as [y ->]. simpl.
  by exists parsed, y.
Qed.

Lemma extract_id_not_none (link : string) :
  extract_id_from_link link ≠ Ok None.
Proof.
  destruct (extract_id_shape link) as [(e & _ & ->)|(p & id & _ & ->)]; done.
Qed.

Lemma extract_id_empty_path (link : string) (parsed : ParseResult) :
  urlparse link = Ok parsed →
  Str.strip (is_char "/") (path parsed) = "" →
  extract_id_from_link link = Ok (Some "").
Proof.
  intros Hp Hs. unfold extract_id_from_link. rewrite Hp. simpl.
  by rewrite Hs.
Qed.

Lemma get_domain_defined (link : string) (r : option string) :
  extract_id_from_link link = Ok r →
  ∃ d, get_domain_from_link link = Ok d.
Proof.
  unfold extract_id_from_link, get_domain_from_link.
  destruct (urlparse link) as [parsed|e]; simpl; [|done].
  intros _. by eexists.
Qed.

Context {W : Type} {R : Remote W}.
Implicit Types s : state W.

(** With an empty id [main] ends with status 1 having only tried to
    build the client and printed. *)
Lemma main_empty_id (fuel : nat) (args : Args) s :
  extract_id_from_link (arg_folder_link args) = Ok (Some "") →
  ∃ s' evs,
    run (main fuel args) s = (Ret 1%Z, s')
    ∧ fs s' = fs s
    ∧ trace s' = trace s ++ evs
    ∧ Forall session_event evs.
Proof.
  intros Hid.
  destruct (get_domain_defined _ _ Hid) as [d Hd].
  enough (∀ s0, reach session_event s0 s →
            wp (main fuel args) s
              (λ r s', r = Ret 1%Z ∧ fs s' = fs s ∧ reach session_event s0 s'))
    as H.
  { specialize (H s (reach_refl _ _)).
    apply wp_elim in H as (r & s' & Hrun & -> & Hfs & Hreach).
    apply reach_trace in Hreach as (evs & Htr & Hevs).
    by exists s', evs. }
  intros s0 H. unfold main.
  repeat (wp_reach H; try done).
Qed.

(** With a non-empty id and a client that can be built [main] goes on
    to the export. *)
Lemma main_nonempty_id (fuel : nat) (args : Args) (c : ascii) (id : string) s :
  extract_id_from_link (arg_folder_link args) = Ok (Some (String c id)) →
  (∀ token api w, ∃ w', QuipClient_new token api w = (Ok tt, w')) →
  ∃ r s', run (main fuel args) s = (r, s')
          ∧ EvPrint (MsgStarting (String c id)) ∈ trace s'.
Proof.
  intros Hid Hnew.
  destruct (get_domain_defined _ _ Hid) as [d Hd].
  enough (wp (main fuel args) s
            (λ r s', EvPrint (MsgStarting (String c id)) ∈ trace s')) as H.
  { apply wp_elim in H as (r & s' & Hrun & Hin). by exists r, s'. }
  assert (Hrest : ∀ s1 : state W,
            EvPrint (MsgStarting (String c id)) ∈ trace s1 →
            ∀ s2, reach any_event s1 s2 →
            EvPrint (MsgStarting (String c id)) ∈ trace s2).
  { intros s1 Hin s2 (evs & -> & _)%reach_trace.
    apply elem_of_app. by left. }
  unfold main.
  repeat (wp_step; try done).
  all: try (exfalso;
            match goal with
            | Ec : QuipClient_new ?t ?a ?w = (Err _, _) |- _ =>
                destruct (Hnew t a w) as [w' Hw']; congruence
            end).
  all: match goal with
       | |- wp _ ?s1 _ =>
           assert (Hin : EvPrint (MsgStarting (String c id)) ∈ trace s1)
             by (simpl; apply elem_of_app; left; apply elem_of_app; right;
                 apply list_elem_of_singleton; reflexivity);
           pose proof (reach_refl any_event s1) as H;
           specialize (Hrest s1 Hin); clear Hin
       end.
  all: eapply wp_mono;
    [apply (create_directory_wp any_event); [done|exact H]|].
  all: intros [[]|e|] s2 [Hr H2]; try done; try (by apply Hrest).
  all: repeat (wp_reach H2; try done); try (by apply Hrest).
  all: eapply wp_mono; [apply process_folder_wp; exact H2|].
  all: intros r s3 [[-> | ->] H3]; repeat (wp_reach H3; try done);
    by apply Hrest.
Qed.

End Link.

(** C9.  [extract_id_from_link] never returns [None]: a split is never
    the empty list, so the guard on it is dead.  A link whose path is
    empty once the slashes are stripped gives the empty string; [main]
    then ends with status 1 having fetched and written nothing, and
    with a non-empty id it goes on to the export. *)
Theorem extract_id_never_none {urllib : UrlLib} (link : string) :
  extract_id_from_link link ≠ Ok None
  ∧ (∀ s, Str.split "/" s ≠ [])
  ∧ (∀ parsed,
       urlparse link = Ok parsed →
       Str.strip (is_char "/") (path parsed) = "" →
       extract_id_from_link link = Ok (Some ""))
  ∧ (∀ (W : Type) (R : Remote W) fuel args (s : state W),
       arg_folder_link args = link →
       extract_id_from_link link = Ok (Some "") →
       ∃ s' evs,
         run (main fuel args) s = (Ret 1%Z, s')
         ∧ fs s' = fs s
         ∧ trace s' = trace s ++ evs
         ∧ Forall session_event evs)
  ∧ (∀ (W : Type) (R : Remote W) fuel args (s : state W) c id,
       arg_folder_link args = link →
       extract_id_from_link link = Ok (Some (String c id)) →
       (∀ token api w, ∃ w', QuipClient_new token api w = (Ok tt, w')) →
       ∃ r s', run (main fuel args) s = (r, s')
               ∧ EvPrint (MsgStarting (String c id)) ∈ trace s').
Proof.
  split; [apply extract_id_not_none|].
  split; [apply split_nonempty|].
  split; [apply extract_id_empty_path|].
  split.
  - intros W R fuel args s <-. apply main_empty_id.
  - intros W R fuel args s c id <-. apply main_nonempty_id.
Qed.

Definition bare_link_args : Args := {|
  arg_access_token := "tok";
  arg_folder_link := "https://host";
  arg_output := "out";
  arg_api_url := None
|}.

Lemma extract_id_never_none_witness :
  ∃ s' evs,
    run (main (urllib := lenient_urllib) (R := sample_remote)
           3 bare_link_args) sample_state
    = (Ret 1%Z, s')
    ∧ fs s' = fs sample_state
    ∧ trace s' = trace sample_state ++ evs
    ∧ Forall session_event evs.
Proof.
  apply (proj1 (proj2 (proj2 (proj2
           (extract_id_never_none (urllib := lenient_urllib) "https://host"))))
           unit sample_remote 3 bare_link_args sample_state);
    reflexivity.
Defined.

(** C6, as the code has it.  The link [https://host/path/ABC123#section]
    gives the id [ABC123] and the domain [host].  A link whose path has
    no segment does not make the resolver fail: it returns the empty
    string, and [main], finding the id empty, prints and ends with
    status 1 before any folder is fetched or anything is written. *)
Theorem link_resolver_empty_id {urllib : UrlLib} :
  extract_id_from_link "https://host/path/ABC123#section" = Ok (Some "ABC123")
  ∧ get_domain_from_link "https://host/path/ABC123#section" = Ok "host"
  ∧ (∀ link parsed,
       urlparse link = Ok parsed →
       Str.strip (is_char "/") (path parsed) = "" →
       extract_id_from_link link = Ok (Some "")
       ∧ ∀ (W : Type) (R : Remote W) fuel args (s : state W),
           arg_folder_link args = link →
           ∃ s' evs,
             run (main fuel args) s = (Ret 1%Z, s')
             ∧ fs s' = fs s
             ∧ trace s' = trace s ++ evs
             ∧ Forall session_event evs).
Proof.
  split; [reflexivity|]. split; [reflexivity|].
  intros link parsed Hp Hs.
  pose proof (extract_id_empty_path link parsed Hp Hs) as Hid.
  split; [done|].
  intros W R fuel args s <-. by apply main_empty_id.
Qed.

Lemma link_resolver_empty_id_witness :
  extract_id_from_link (urllib := lenient_urllib) "https://host//"
  = Ok (Some "").
Proof.
  eapply (proj2 (proj2 (link_resolver_empty_id (urllib := lenient_urllib))));
    reflexivity.
Defined.

(** C6, as the specification words it, fails: the link [https://host]
    parses, its path is empty, and the resolver returns the empty
    string where the failure [InvalidLinkError] is claimed. *)
Lemma link_resolver_counterexample :
  (∃ parsed,
     urlparse (urllib := lenient_urllib) "https://host" = Ok parsed
     ∧ path parsed = "")
  ∧ extract_id_from_link (urllib := lenient_urllib) "https://host"
    = Ok (Some "")
  ∧ ¬ ∃ e, extract_id_from_link (urllib := lenient_urllib) "https://host"
           = Err e.
Proof.
  split; [eexists; split; reflexivity|].
  split; [reflexivity|].
  by intros [e He].
Qed.

(** ** The file tree only grows *)

Definition same_kind (a b : node) : Prop :=
  match a, b with
  | Dir, Dir => True
  | File _, File _ => True
  | _, _ => False
  end.

(** Every entry of [t] is an entry of [t'] of the same kind. *)
Definition grows (t t' : gmap (list string) node) : Prop :=
  ∀ q n, t !! q = Some n → ∃ n', t' !! q = Some n' ∧ same_kind n n'.

(** [os.path.isdir]. *)
Definition dir_in (t : gmap (list string) node) (cwd : list string)
    (p : string) : bool :=
  match resolve t cwd p with
  | Some q => is_dir t q
  | None => false
  end.

Lemma same_kind_refl n : same_kind n n.
Proof. by destruct n. Qed.

Lemma same_kind_trans a b c : same_kind a b → same_kind b c → same_kind a c.
Proof. by destruct a, b, c. Qed.

Lemma grows_refl t : grows t t.
Proof. intros q n H. exists n. split; [done|apply same_kind_refl]. Qed.

Lemma grows_trans t1 t2 t3 : grows t1 t2 → grows t2 t3 → grows t1 t3.
Proof.
  intros H12 H23 q n H1.
  destruct (H12 q n H1) as (n2 & H2 & Hk12).
  destruct (H23 q n2 H2) as (n3 & H3 & Hk23).
  exists n3. split; [done|]. by eapply same_kind_trans.
Qed.

Lemma grows_insert_new t q n : t !! q = None → grows t (<[q := n]> t).
Proof.
  intros Hq q' n' H'. exists n'. split; [|apply same_kind_refl].
  rewrite lookup_insert_ne; [done|]. intros ->. congruence.
Qed.

Lemma grows_insert_file t q old data :
  t !! q = Some (File old) → grows t (<[q := File data]> t).
Proof.
  intros Hq q' n' H'. destruct (decide (q = q')) as [<-|Hne].
  - exists (File data). rewrite lookup_insert_eq. split; [done|].
    rewrite Hq in H'. by injection H' as <-.
  - exists n'. rewrite lookup_insert_ne by done.
    split; [done|apply same_kind_refl].
Qed.

Lemma node_at_grows t t' q n :
  grows t t' → node_at t q = Some n →
  ∃ n', node_at t' q = Some n' ∧ same_kind n n'.
Proof.
  unfold node_at. intros Hg. case_bool_decide.
  - intros [= <-]. by exists Dir.
  - apply Hg.
Qed.

Lemma is_dir_grows t t' q : grows t t' → is_dir t q = true → is_dir t' q = true.
Proof.
  unfold is_dir. intros Hg.
  destruct (node_at t q) as [[|c]|] eqn:Hn; try done.
  destruct (node_at_grows _ _ _ _ Hg Hn) as ([|c'] & -> & Hk); done.
Qed.

Lemma is_file_grows t t' q c :
  grows t t' → node_at t q = Some (File c) → is_dir t' q = false.
Proof.
  unfold is_dir. intros Hg Hn.
  destruct (node_at_grows _ _ _ _ Hg Hn) as ([|c'] & -> & Hk); done.
Qed.

Lemma namei_grows t t' cur comps q :
  grows t t' → namei t cur comps = Some q → namei t' cur comps = Some q.
Proof.
  intros Hg. revert cur. induction comps as [|c rest IH]; intros cur; simpl.
  - done.
  - destruct (is_dir t cur) eqn:Hd; [|done].
    rewrite (is_dir_grows _ _ _ Hg Hd). apply IH.
Qed.

Lemma resolve_grows t t' cwd p q :
  grows t t' → resolve t cwd p = Some q → resolve t' cwd p = Some q.
Proof.
  unfold resolve. intros Hg. destruct (Str.is_empty p); [done|].
  by apply namei_grows.
Qed.

Lemma exists_in_grows t t' cwd p :
  grows t t' → exists_in t cwd p = true → exists_in t' cwd p = true.
Proof.
  unfold exists_in. intros Hg.
  destruct (resolve t cwd p) as [q|] eqn:Hr; [|done].
  rewrite (resolve_grows _ _ _ _ _ Hg Hr).
  intros [n Hn]%bool_decide_eq_true.
  destruct (node_at_grows _ _ _ _ Hg Hn) as (n' & Hn' & _).
  apply bool_decide_eq_true. by exists n'.
Qed.


Lemma dir_in_exists t cwd p : dir_in t cwd p = true → exists_in t cwd p = true.
Proof.
  unfold dir_in, exists_in, is_dir.
  destruct (resolve t cwd p) as [q|]; [|done].
  destruct (node_at t q) as [n|]; [|done].
  intros _. apply bool_decide_eq_true. by exists n.
Qed.

Lemma node_at_insert_dir t q : node_at (<[q := Dir]> t) q = Some Dir.
Proof. unfold node_at. case_bool_decide; [done|apply lookup_insert_eq]. Qed.

Lemma node_at_None t q : node_at t q = None → t !! q = None.
Proof. unfold node_at. by case_bool_decide. Qed.

(** The walk of [makedirs] only adds directories; when it ends
    without error the path resolves to a directory. *)
Lemma mkdir_walk_grows t cur comps fresh t' r :
  mkdir_walk t cur comps fresh = (t', r) → grows t t'.
Proof.
  revert t cur fresh. induction comps as [|c rest IH]; intros t cur fresh; simpl.
  - intros [= <- _]. apply grows_refl.
  - destruct (is_dir t cur); [|intros [= <- _]; apply grows_refl].
    destruct (String.eqb c "" || String.eqb c "."); [apply IH|].
    destruct (node_at t (step cur c)) as [[|f]|] eqn:Hn.
    + apply IH.
    + intros [= <- _]. apply grows_refl.
    + intros Hw%IH. eapply grows_trans; [|exact Hw].
      by apply grows_insert_new, node_at_None.
Qed.

Lemma step_stay cur c :
  String.eqb c "" || String.eqb c "." = true → step cur c = cur.
Proof. unfold step. by intros ->. Qed.

Lemma mkdir_walk_dir t cur comps fresh t' :
  is_dir t cur = true →
  mkdir_walk t cur comps fresh = (t', None) →
  ∃ q, namei t' cur comps = Some q ∧ is_dir t' q = true.
Proof.
  revert t cur fresh. induction comps as [|c rest IH]; intros t cur fresh Hd;
    simpl.
  - intros [= <- _]. by exists cur.
  - rewrite Hd. intros Hw.
    pose proof (mkdir_walk_grows t cur (c :: rest) fresh t' None) as Hg.
    simpl in Hg. rewrite Hd in Hg. specialize (Hg Hw).
    rewrite (is_dir_grows _ _ _ Hg Hd).
    destruct (String.eqb c "" || String.eqb c ".") eqn:Hstay.
    + rewrite step_stay by done. by eapply IH.
    + destruct (node_at t (step cur c)) as [[|f]|] eqn:Hn; [| done |].
      * eapply IH; [|exact Hw]. unfold is_dir. by rewrite Hn.
      * eapply IH; [|exact Hw]. unfold is_dir.
        by rewrite node_at_insert_dir.
Qed.

Lemma makedirs_grows t cwd p t' r : makedirs t cwd p = (t', r) → grows t t'.
Proof.
  unfold makedirs. destruct (Str.is_empty p); [intros [= <- _]; apply grows_refl|].
  destruct (exists_in t cwd p); [intros [= <- _]; apply grows_refl|].
  apply mkdir_walk_grows.
Qed.

Lemma mkdir_walk_start_dir t cur c rest fresh t' :
  mkdir_walk t cur (c :: rest) fresh = (t', None) → is_dir t cur = true.
Proof. simpl. by destruct (is_dir t cur). Qed.

Lemma makedirs_dir t cwd p t' :
  makedirs t cwd p = (t', None) → dir_in t' cwd p = true.
Proof.
  unfold makedirs, dir_in, resolve.
  destruct (Str.is_empty p); [done|].
  destruct (exists_in t cwd p); [done|].
  intros Hw.
  destruct (Str.split "/" p) as [|c rest] eqn:Hs.
  { by destruct (split_nonempty "/" p). }
  pose proof (mkdir_walk_start_dir _ _ _ _ _ _ Hw) as Hd.
  destruct (mkdir_walk_dir _ _ _ _ _ Hd Hw) as (q & -> & Hq). done.
Qed.

Lemma open_for_write_grows t cwd p q t' :
  open_for_write t cwd p = Ok (q, t') → grows t t'.
Proof.
  intros (_ & Hd & ->)%open_for_write_inv.
  unfold is_dir, node_at in Hd. case_bool_decide; [done|].
  destruct (t !! q) as [[|c]|] eqn:Hq; [done| |].
  - by eapply grows_insert_file.
  - by apply grows_insert_new.
Qed.

Lemma prim_step_grows {W : Type} E (s s' : state W) :
  prim_step E s s' → grows (fs s) (fs s').
Proof.
  destruct 1; simpl; try apply grows_refl.
  - by eapply makedirs_grows.
  - by eapply makedirs_grows.
  - by eapply open_for_write_grows.
  - by eapply grows_insert_file.
Qed.

Lemma reach_grows {W : Type} E (s s' : state W) :
  reach E s s' → grows (fs s) (fs s').
Proof.
  induction 1 as [|s1 s2 s3 Hstep _ IH]; [apply grows_refl|].
  eapply grows_trans; [|exact IH]. by eapply prim_step_grows.
Qed.



(** ** Paths built with [os.path.join] *)

Lemma app_cons (a : ascii) (s s' : string) :
  String a s +:+ s' = String a (s +:+ s').
Proof. reflexivity. Qed.

Lemma app_assoc_str (a b c : string) : (a +:+ b) +:+ c = a +:+ (b +:+ c).
Proof. induction a as [|x a IH]; [done|]. rewrite !app_cons. by f_equal. Qed.

Lemma mem_app (c : ascii) (a b : string) :
  Str.mem c (a +:+ b) = Str.mem c a || Str.mem c b.
Proof.
  induction a as [|x a IH]; [done|].
  rewrite app_cons. simpl. rewrite IH. by rewrite orb_assoc.
Qed.

Lemma length_app_str (a b : string) :
  String.length (a +:+ b) = String.length a + String.length b.
Proof. induction a as [|x a IH]; [done|]. rewrite app_cons. simpl. lia. Qed.

Lemma split_no_sep (sep : ascii) (s : string) :
  Str.mem sep s = false → Str.split sep s = [s].
Proof.
  induction s as [|a s IH]; simpl; [done|].
  intros [Ha Hs]%orb_false_iff. rewrite Ha, (IH Hs). done.
Qed.

Lemma split_app_sep (sep : ascii) (a b : string) :
  Str.split sep (a +:+ String sep b) = Str.split sep a ++ Str.split sep b.
Proof.
  induction a as [|x a IH].
  - simpl. by rewrite Ascii.eqb_refl.
  - rewrite app_cons. simpl. rewrite IH.
    destruct (Ascii.eqb x sep); [done|].
    pose proof (split_nonempty sep a) as Hne.
    by destruct (Str.split sep a).
Qed.

Lemma ends_with_inv (c : ascii) (a : string) :
  Str.ends_with c a = true → ∃ a', a = a' +:+ String c "".
Proof.
  induction a as [|x a IH]; simpl; [done|].
  destruct a as [|y a].
  - intros ->%Ascii.eqb_eq. by exists "".
  - intros (a' & ->)%IH. by exists (String x a').
Qed.

Lemma starts_with_app (c : ascii) (a b : string) :
  Str.is_empty a = false →
  Str.starts_with c (a +:+ b) = Str.starts_with c a.
Proof. by destruct a. Qed.

Lemma is_empty_app (a b : string) :
  Str.is_empty a = false → Str.is_empty (a +:+ b) = false.
Proof. by destruct a. Qed.

Lemma starts_with_mem (c : ascii) (s : string) :
  Str.mem c s = false → Str.starts_with c s = false.
Proof. destruct s; simpl; [done|]. by intros [-> _]%orb_false_iff. Qed.

Lemma namei_app t cur xs ys :
  namei t cur (xs ++ ys) =
  match namei t cur xs with
  | Some q => namei t q ys
  | None => None
  end.
Proof.
  revert cur. induction xs as [|x xs IH]; intros cur; simpl; [done|].
  destruct (is_dir t cur); [apply IH|done].
Qed.

Lemma resolve_nonempty t cwd p q :
  resolve t cwd p = Some q → Str.is_empty p = false.
Proof. unfold resolve. by destruct (Str.is_empty p). Qed.

(** Joining a name without a slash to a path that resolves adds one
    step to the resolution. *)
Lemma resolve_join t cwd a name q :
  Str.mem "/" name = false →
  resolve t cwd a = Some q →
  resolve t cwd (os_path_join a name) =
  if is_dir t q then Some (step q name) else None.
Proof.
  intros Hname Ha.
  pose proof (resolve_nonempty _ _ _ _ Ha) as Hne.
  unfold os_path_join.
  rewrite (starts_with_mem _ _ Hname), Hne. simpl.
  destruct (Str.ends_with "/" a) eqn:Hends.
  - apply ends_with_inv in Hends as [a' ->].
    rewrite app_assoc_str, app_cons. change ("" +:+ name) with name.
    unfold resolve in *.
    rewrite Hne in Ha. rewrite split_app_sep in Ha.
    change (Str.split "/" "") with [""] in Ha.
    rewrite namei_app in Ha.
    assert (Str.is_empty (a' +:+ String "/" name) = false) as ->
      by by destruct a'.
    assert (start_dir cwd (a' +:+ String "/" name)
            = start_dir cwd (a' +:+ String "/" "")) as ->
      by by destruct a'.
    rewrite split_app_sep, (split_no_sep _ _ Hname), namei_app.
    destruct (namei t _ (Str.split "/" a')) as [q'|]; [|done].
    simpl in Ha. simpl.
    destruct (is_dir t q') eqn:Hd; [|done].
    injection Ha as <-. unfold step at 2. simpl. by rewrite Hd.
  - rewrite <- app_assoc_str.
    rewrite app_assoc_str, app_cons. change ("" +:+ name) with name.
    unfold resolve in *. rewrite Hne in Ha.
    assert (Str.is_empty (a +:+ String "/" name) = false) as ->
      by by destruct a.
    assert (start_dir cwd (a +:+ String "/" name) = start_dir cwd a) as ->
      by by destruct a.
    rewrite split_app_sep, (split_no_sep _ _ Hname), namei_app, Ha.
    simpl. by destruct (is_dir t q).
Qed.

Lemma sanitized_no_slash (s : string) : Str.mem "/" (re_sub_reserved s) = false.
Proof. apply re_sub_reserved_clean. unfold reserved_chars. set_solver. Qed.

Lemma sanitize_filename_no_slash (x : json) (out : string) :
  sanitize_filename x = Ok out → Str.mem "/" out = false.
Proof. intros (s & -> & ->)%sanitize_filename_inv. apply sanitized_no_slash. Qed.

(** A name of three characters or more is a proper name: resolution
    goes down into it. *)
Lemma step_long (q : list string) (name : string) :
  (3 ≤ String.length name)%nat → step q name = q ++ [name].
Proof.
  intros Hlen. unfold step.
  assert (name ≠ "" ∧ name ≠ "." ∧ name ≠ "..") as (H1 & H2 & H3)
    by (repeat split; intros ->; simpl in Hlen; lia).
  apply String.eqb_neq in H1, H2, H3. by rewrite H1, H2, H3.
Qed.

(** ** The export of one document *)

(** The title under which a node is stored: lines 72 and 73 for a
    document, lines 129 and 130 for a folder. *)
Definition title_of (payload : json) (key default : string) : result string :=
  info ← py_get payload key (JDict []);
  title ← py_get info "title" (JStr default);
  sanitize_filename title.

Lemma title_of_inv payload key default title :
  title_of payload key default = Ok title →
  ∃ info raw,
    py_get payload key (JDict []) = Ok info
    ∧ py_get info "title" (JStr default) = Ok raw
    ∧ sanitize_filename raw = Ok title.
Proof.
  unfold title_of.
  destruct (py_get payload key (JDict [])) as [info|]; simpl; [|done].
  destruct (py_get info "title" (JStr default)) as [raw|] eqn:Hraw; simpl;
    [|done].
  intros Hs. by exists info, raw.
Qed.

Lemma title_of_no_slash payload key default title :
  title_of payload key default = Ok title → Str.mem "/" title = false.
Proof.
  intros (info & raw & _ & _ & Hs)%title_of_inv.
  by eapply sanitize_filename_no_slash.
Qed.






Lemma wp_eq {W A : Type} (m : M W A) (s : state W) (x : outcome A * state W) :
  wp m s (λ r s', (r, s') = x) → run m s = x.
Proof. unfold wp. by destruct (run m s). Qed.

Lemma wp_of_run {W A : Type} (m : M W A) (s s' : state W) r
    (Q : outcome A → state W → Prop) :
  run m s = (r, s') → Q r s' → wp m s Q.
Proof. unfold wp. by intros ->. Qed.

Lemma open_for_write_intro t cwd p q :
  resolve t cwd p = Some q → is_dir t q = false →
  open_for_write t cwd p = Ok (q, <[q := File ""]> t).
Proof. unfold open_for_write. by intros -> ->. Qed.


Section ExportStep.
Context {W : Type} {R : Remote W}.
Implicit Types s : state W.

Definition export_request (client : Client) (thread_id : json) : request :=
  ExportDocx (base_url client) thread_id (access_token client).




(** Once the metadata are fetched without an error and the title is
    found, [process_thread] is the export step followed by the
    attachments, and an exception of the attachments is printed. *)
Lemma process_thread_phases client id cur s td w title s1 :
  get_thread id (remote s) = (Ok td, w) →
  py_in "error" td = Ok false →
  title_of td "thread" "Unknown_Document" = Ok title →
  run (export_document client id cur td title)
      (set_remote w (add_event (EvGetThread id) s)) = (Ret tt, s1) →
  ∃ r2 s2,
    run (download_attachments cur td title) s1 = (r2, s2)
    ∧ r2 ≠ OutOfFuel
    ∧ run (process_thread client id cur) s
      = (Ret tt,
         match r2 with
         | Raise e => add_event (EvPrint (MsgErrorProcessingDocument id e)) s2
         | _ => s2
         end).
Proof.
  intros Hget Herr (info & raw & Hinfo & Hraw & Hsan)%title_of_inv Hexp.
  destruct (run (download_attachments cur td title) s1) as [r2 s2] eqn:Hatt.
  assert (r2 ≠ OutOfFuel) as Hr2.
  { pose proof (download_attachments_wp any_event cur td title s1 s1
                  (λ _ _, I) (reach_refl _ _)) as H.
    by apply (wp_run _ _ _ _ _ H) in Hatt as [? _]. }
  exists r2, s2. repeat split; [done|]. apply wp_eq.
  unfold process_thread.
  repeat wp_step.
  eapply wp_of_run; [exact Hexp|]. cbv beta iota.
  eapply wp_of_run; [exact Hatt|].
  destruct r2 as [[]|e|]; [done| |done].
  by repeat wp_step.
Qed.


End ExportStep.



(** ** Making a directory under a directory that exists *)

Lemma split_join (a name : string) :
  Str.mem "/" name = false →
  Str.is_empty a = false →
  ∃ xs,
    Str.split "/" (os_path_join a name) = xs ++ [name]
    ∧ Str.is_empty (os_path_join a name) = false
    ∧ (∀ cwd, start_dir cwd (os_path_join a name) = start_dir cwd a)
    ∧ (∀ t cur q, namei t cur (Str.split "/" a) = Some q →
                  namei t cur xs = Some q).
Proof.
  intros Hname Hne. unfold os_path_join.
  rewrite (starts_with_mem _ _ Hname), Hne. simpl.
  destruct (Str.ends_with "/" a) eqn:Hends.
  - apply ends_with_inv in Hends as [a' ->].
    exists (Str.split "/" a').
    rewrite app_assoc_str, app_cons. change ("" +:+ name) with name.
    rewrite !split_app_sep, (split_no_sep _ _ Hname).
    change (Str.split "/" "") with [""].
    split; [done|]. split; [by destruct a'|]. split; [by destruct a'|].
    intros t cur q. rewrite namei_app.
    destruct (namei t cur (Str.split "/" a')) as [q'|]; [|done].
    simpl. destruct (is_dir t q'); [|done]. by intros [= <-].
  - exists (Str.split "/" a).
    rewrite app_cons. change ("" +:+ name) with name.
    rewrite split_app_sep, (split_no_sep _ _ Hname).
    split; [done|]. split; [by destruct a|]. split; [by destruct a|]. done.
Qed.

Lemma is_dir_node t q : is_dir t q = true → node_at t q = Some Dir.
Proof. unfold is_dir. by destruct (node_at t q) as [[|c]|]. Qed.

Lemma namei_cons_dir t cur xs q :
  namei t cur xs = Some q → is_dir t q = true → is_dir t cur = true.
Proof.
  destruct xs as [|c xs]; simpl.
  - by intros [= ->].
  - by destruct (is_dir t cur).
Qed.

(** Along names that resolve to a directory the walk of [makedirs]
    creates nothing. *)
Lemma mkdir_walk_resolved t cur xs ys q :
  namei t cur xs = Some q → is_dir t q = true →
  mkdir_walk t cur (xs ++ ys) false = mkdir_walk t q ys false.
Proof.
  revert cur. induction xs as [|c xs IH]; intros cur; simpl.
  - by intros [= ->].
  - destruct (is_dir t cur) eqn:Hcur; [|done].
    intros Hn Hq.
    destruct (String.eqb c "" || String.eqb c ".") eqn:Hstay.
    + rewrite step_stay in Hn by done. by apply IH.
    + pose proof (namei_cons_dir _ _ _ _ Hn Hq) as Hnxt.
      rewrite (is_dir_node _ _ Hnxt). by apply IH.
Qed.

Lemma makedirs_join t cwd a name :
  Str.mem "/" name = false →
  dir_in t cwd a = true →
  exists_in t cwd (os_path_join a name) = false →
  ∃ q, makedirs t cwd (os_path_join a name) = (<[q := Dir]> t, None).
Proof.
  intros Hname Hdir Hex. unfold dir_in in Hdir.
  destruct (resolve t cwd a) as [q|] eqn:Ha; [|done].
  pose proof (resolve_nonempty _ _ _ _ Ha) as Hne.
  pose proof (resolve_join _ _ _ _ _ Hname Ha) as Hj. rewrite Hdir in Hj.
  unfold exists_in in Hex. rewrite Hj in Hex.
  apply bool_decide_eq_false in Hex.
  assert (node_at t (step q name) = None) as Hnone.
  { destruct (node_at t (step q name)) eqn:Hn; [|done].
    destruct Hex. by eexists. }
  destruct (split_join a name Hname Hne) as (xs & Hsplit & Hne' & Hstart & Hxs).
  unfold makedirs. rewrite Hne'.
  unfold exists_in. rewrite Hj.
  rewrite bool_decide_eq_false_2 by (rewrite Hnone; by intros [? ?]).
  rewrite Hsplit, Hstart.
  unfold resolve in Ha. rewrite Hne in Ha.
  rewrite (mkdir_walk_resolved _ _ _ _ _ (Hxs _ _ _ Ha) Hdir).
  simpl. rewrite Hdir.
  destruct (String.eqb name "" || String.eqb name ".") eqn:Hstay.
  { rewrite step_stay in Hnone by done.
    by rewrite (is_dir_node _ _ Hdir) in Hnone. }
  rewrite Hnone. by eexists.
Qed.

Section EnsureDir.
Context {W : Type}.
Implicit Types s : state W.

Lemma create_directory_present p s :
  exists_in (fs s) (cwd s) p = true →
  run (create_directory_if_not_exists p) s = (Ret tt, s).
Proof.
  intros Hex. apply wp_eq.
  unfold create_directory_if_not_exists. by repeat wp_step.
Qed.

Lemma create_directory_absent p s t :
  exists_in (fs s) (cwd s) p = false →
  makedirs (fs s) (cwd s) p = (t, None) →
  run (create_directory_if_not_exists p) s
  = (Ret tt, add_event (EvMakedirs p) (set_fs t s)).
Proof.
  intros Hex Hmk. apply wp_eq.
  unfold create_directory_if_not_exists. by repeat wp_step.
Qed.




End EnsureDir.

(** ** The attachments of a document *)

Definition attachments_path (cur title : string) : string :=
  os_path_join cur (title +:+ "_attachments").


Section Attachments.
Context {W : Type} {R : Remote W}.
Implicit Types s : state W.

Lemma create_directory_exists p s s1 :
  run (create_directory_if_not_exists p) s = (Ret tt, s1) →
  exists_in (fs s1) (cwd s1) p = true.
Proof.
  destruct (exists_in (fs s) (cwd s) p) eqn:Hex.
  - rewrite (create_directory_present _ _ Hex). by intros [= <-].
  - destruct (makedirs (fs s) (cwd s) p) as [t [e|]] eqn:Hmk.
    + intros Hrun.
      eapply (wp_run _ _ (λ r _, r ≠ Ret tt)) in Hrun; [done|].
      unfold create_directory_if_not_exists. by repeat wp_step.
    + rewrite (create_directory_absent _ _ _ Hex Hmk). intros [= <-].
      simpl. by eapply dir_in_exists, makedirs_dir.
Qed.

Lemma download_attachments_none cur td title s blobs :
  py_get td "blobs" (JList []) = Ok blobs →
  truthy blobs = false →
  run (download_attachments cur td title) s = (Ret tt, s).
Proof.
  intros Hb Ht. apply wp_eq. unfold download_attachments.
  by repeat wp_step.
Qed.

Lemma download_attachments_split cur td title s blobs :
  py_get td "blobs" (JList []) = Ok blobs →
  truthy blobs = true →
  run (download_attachments cur td title) s =
  match run (create_directory_if_not_exists (attachments_path cur title)) s with
  | (Ret _, s1) =>
      run (items ← lift (py_iter blobs);
           for_each items
             (λ _ blob, download_attachment (attachments_path cur title) blob)
             1) s1
  | (Raise e, s1) => (Raise e, s1)
  | (OutOfFuel, s1) => (OutOfFuel, s1)
  end.
Proof.
  intros Hb Ht. unfold download_attachments.
  rewrite run_bind, run_lift, Hb. cbv beta iota. rewrite Ht.
  by rewrite run_bind.
Qed.




End Attachments.



(** ** One directory for a folder, at most one export file for a document *)

Definition docx_path (cur title : string) : string :=
  os_path_join cur (title +:+ ".docx").
Definition html_path (cur title : string) : string :=
  os_path_join cur (title +:+ ".html").



Section Nodes.
Context {W : Type} {R : Remote W}.
Implicit Types s : state W.



End Nodes.




(** ** One pause for each child *)







Section Throttle.
Context {W : Type} {R : Remote W}.
Implicit Types s : state W.





End Throttle.


Lemma py_get_object (x : json) (key : string) (default v : json) :
  py_get x key default = Ok v → ∃ d, x = JDict d.
Proof. destruct x; try done. by eexists. Qed.



(** ** A second run over the tree the first run left *)

(** What [makedirs] changes: it adds directories. *)
Definition only_adds_dirs (t t' : gmap (list string) node) : Prop :=
  ∀ q, t' !! q = t !! q ∨ (t !! q = None ∧ t' !! q = Some Dir).

Lemma only_adds_dirs_refl t : only_adds_dirs t t.
Proof. intros q. by left. Qed.

Lemma only_adds_dirs_trans t1 t2 t3 :
  only_adds_dirs t1 t2 → only_adds_dirs t2 t3 → only_adds_dirs t1 t3.
Proof.
  intros H12 H23 q.
  destruct (H12 q) as [H1|[H1 H1']], (H23 q) as [H2|[H2 H2']].
  - left. congruence.
  - right. split; congruence.
  - right. split; congruence.
  - congruence.
Qed.

Lemma mkdir_walk_adds t cur comps fresh t' r :
  mkdir_walk t cur comps fresh = (t', r) → only_adds_dirs t t'.
Proof.
  revert t cur fresh. induction comps as [|c rest IH]; intros t cur fresh; simpl.
  - intros [= <- _]. apply only_adds_dirs_refl.
  - destruct (is_dir t cur); [|intros [= <- _]; apply only_adds_dirs_refl].
    destruct (String.eqb c "" || String.eqb c "."); [apply IH|].
    destruct (node_at t (step cur c)) as [[|f]|] eqn:Hn.
    + apply IH.
    + intros [= <- _]. apply only_adds_dirs_refl.
    + intros Hw%IH. eapply only_adds_dirs_trans; [|exact Hw].
      intros q. destruct (decide (step cur c = q)) as [<-|Hne].
      * right. split; [by apply node_at_None|apply lookup_insert_eq].
      * left. by rewrite lookup_insert_ne.
Qed.

Lemma makedirs_adds t cwd p t' r :
  makedirs t cwd p = (t', r) → only_adds_dirs t t'.
Proof.
  unfold makedirs.
  destruct (Str.is_empty p); [intros [= <- _]; apply only_adds_dirs_refl|].
  destruct (exists_in t cwd p); [intros [= <- _]; apply only_adds_dirs_refl|].
  apply mkdir_walk_adds.
Qed.

(** On the way to an entry that is a file the walk of [makedirs]
    stops without creating anything. *)
Lemma mkdir_walk_file t cur xs ys q c fresh :
  namei t cur xs = Some q →
  node_at t q = Some (File c) →
  ys ≠ [] →
  mkdir_walk t cur (xs ++ ys) fresh = (t, Some NotADirectoryError).
Proof.
  intros Hn Hq Hys. revert cur fresh Hn.
  induction xs as [|x xs IH]; intros cur fresh; simpl.
  - intros [= ->]. destruct ys as [|y ys]; [done|]. simpl.
    unfold is_dir. by rewrite Hq.
  - destruct (is_dir t cur) eqn:Hcur; [|done].
    intros Hn.
    destruct (String.eqb x "" || String.eqb x ".") eqn:Hstay.
    + rewrite step_stay in Hn by done. by apply IH.
    + destruct (node_at t (step cur x)) as [[|f]|] eqn:Hnxt.
      * by apply IH.
      * done.
      * destruct xs as [|x' xs]; simpl in Hn.
        -- injection Hn as <-. congruence.
        -- unfold is_dir in Hn. by rewrite Hnxt in Hn.
Qed.

Section Simulation.
Context {W : Type}.
Implicit Types s t : state W.

(** The second run, in [s'], against the first, in [s], where [F] is
    a tree that the first run will not outgrow: [s'] has the entries
    of [F], and each entry has the content it has in [s] or the one it
    has in [F]. *)
Record sim_rel (F : gmap (list string) node) (s s' : state W) : Prop := {
  sr_cwd : cwd s' = cwd s;
  sr_le : grows (fs s) (fs s');
  sr_below : grows (fs s') F;
  sr_above : grows F (fs s');
  sr_val : ∀ q, fs s' !! q = fs s !! q ∨ fs s' !! q = F !! q
}.

Lemma sim_rel_start s s1 :
  cwd s1 = cwd s → grows (fs s) (fs s1) → sim_rel (fs s1) s s1.
Proof.
  intros Hc Hg. split; auto using grows_refl.
Qed.

Lemma sim_rel_end F t t' : sim_rel F t t' → fs t = F → fs t' = F.
Proof.
  intros [_ _ _ _ Hval] <-. apply map_eq. intros q.
  by destruct (Hval q).
Qed.

Lemma sim_rel_event F s s' e e' :
  sim_rel F s s' → sim_rel F (add_event e s) (add_event e' s').
Proof. by intros []. Qed.

Lemma sim_rel_event_l F s s' e : sim_rel F s s' → sim_rel F (add_event e s) s'.
Proof. by intros []. Qed.

Lemma sim_rel_remote F s s' w w' :
  sim_rel F s s' → sim_rel F (set_remote w s) (set_remote w' s').
Proof. by intros []. Qed.

(** The same file written in both runs. *)
Lemma sim_rel_write F s s' q data :
  sim_rel F s s' →
  (∃ c, F !! q = Some (File c)) →
  sim_rel F (set_fs (<[q := File data]> (fs s)) s)
            (set_fs (<[q := File data]> (fs s')) s').
Proof.
  intros [Hc Hle Hb Ha Hv] [cF HF]. split; simpl; try done.
  - intros q' n. destruct (decide (q = q')) as [<-|Hne].
    + rewrite !lookup_insert_eq. intros [= <-]. eexists. split; [done|].
      done.
    + rewrite !lookup_insert_ne by done. apply Hle.
  - intros q' n. destruct (decide (q = q')) as [<-|Hne].
    + rewrite lookup_insert_eq. intros [= <-]. by exists (File cF).
    + rewrite lookup_insert_ne by done. apply Hb.
  - intros q' n. destruct (decide (q = q')) as [<-|Hne].
    + rewrite lookup_insert_eq, HF. intros [= <-].
      by exists (File data).
    + rewrite lookup_insert_ne by done. apply Ha.
  - intros q'. destruct (decide (q = q')) as [<-|Hne].
    + left. by rewrite !lookup_insert_eq.
    + rewrite !lookup_insert_ne by done. apply Hv.
Qed.

End Simulation.

Lemma makedirs_under_file t cwd a name q0 c :
  Str.mem "/" name = false →
  resolve t cwd a = Some q0 →
  node_at t q0 = Some (File c) →
  exists_in t cwd (os_path_join a name) = false
  ∧ makedirs t cwd (os_path_join a name) = (t, Some NotADirectoryError).
Proof.
  intros Hname Ha Hq0.
  pose proof (resolve_nonempty _ _ _ _ Ha) as Hne.
  pose proof (resolve_join _ _ _ _ _ Hname Ha) as Hj.
  assert (is_dir t q0 = false) as Hd by (unfold is_dir; by rewrite Hq0).
  rewrite Hd in Hj.
  assert (exists_in t cwd (os_path_join a name) = false) as Hex
    by (unfold exists_in; by rewrite Hj).
  split; [done|].
  destruct (split_join a name Hname Hne) as (xs & Hsplit & Hne' & Hstart & Hxs).
  unfold makedirs. rewrite Hne', Hex, Hsplit, Hstart.
  unfold resolve in Ha. rewrite Hne in Ha.
  by eapply mkdir_walk_file; [apply Hxs| |].
Qed.

Section SimRules.
Context {W : Type}.
Implicit Types s t : state W.

(** [m] run from [s] can be replayed from any state that stands to
    [s] as a second run to a first, with the same outcome. *)
Definition replays {A} (m : M W A) (s : state W) (r : outcome A) (t : state W)
  : Prop :=
  ∀ F s', grows (fs t) F → sim_rel F s s' →
          ∃ t', run m s' = (r, t') ∧ sim_rel F t t'.

Definition simwp {A} (m : M W A) (s : state W)
    (Q : outcome A → state W → Prop) : Prop :=
  ∀ r t, run m s = (r, t) →
         grows (fs s) (fs t) ∧ cwd t = cwd s ∧ replays m s r t ∧ Q r t.

Lemma simwp_mono {A} (m : M W A) s (Q Q' : outcome A → state W → Prop) :
  simwp m s Q → (∀ r t, Q r t → Q' r t) → simwp m s Q'.
Proof.
  intros H HQ r t Hrun. destruct (H r t Hrun) as (? & ? & ? & ?). auto.
Qed.

(** The postcondition may use that the tree has only grown. *)
Lemma simwp_frame {A} (m : M W A) s (Q : outcome A → state W → Prop) :
  simwp m s (λ r t, grows (fs s) (fs t) → cwd t = cwd s → Q r t) →
  simwp m s Q.
Proof.
  intros H r t Hrun. destruct (H r t Hrun) as (? & ? & ? & ?). auto.
Qed.

Lemma simwp_pure {A} (m : M W A) s (r : outcome A)
    (Q : outcome A → state W → Prop) :
  (∀ s0, run m s0 = (r, s0)) → Q r s → simwp m s Q.
Proof.
  intros Hm HQ r' t. rewrite Hm. intros [= <- <-].
  repeat split; auto using grows_refl.
  intros F s' _ Hrel. exists s'. by rewrite Hm.
Qed.

Lemma simwp_ret {A} (a : A) s Q : Q (Ret a) s → simwp (mret a) s Q.
Proof. by apply simwp_pure. Qed.

Lemma simwp_skip s Q : Q (Ret tt) s → simwp skip s Q.
Proof. by apply simwp_pure. Qed.

Lemma simwp_raise {A} e s (Q : outcome A → state W → Prop) :
  Q (Raise e) s → simwp (raise e) s Q.
Proof. by apply simwp_pure. Qed.

Lemma simwp_out_of_fuel {A} s (Q : outcome A → state W → Prop) :
  Q OutOfFuel s → simwp out_of_fuel s Q.
Proof. by apply simwp_pure. Qed.

Lemma simwp_lift {A} (x : result A) s Q :
  match x with Ok a => Q (Ret a) s | Err e => Q (Raise e) s end →
  simwp (lift x) s Q.
Proof. destruct x; by apply simwp_pure. Qed.

Lemma simwp_log e s Q : Q (Ret tt) (add_event e s) → simwp (log e) s Q.
Proof.
  intros HQ r t. rewrite run_log. intros [= <- <-].
  repeat split; auto using grows_refl.
  intros F s' _ Hrel. exists (add_event e s'). rewrite run_log.
  split; [done|]. by apply sim_rel_event.
Qed.

Lemma run_call {A} (f : W → result A * W) s :
  run (call f) s
  = (match (f (remote s)).1 with Ok a => Ret a | Err e => Raise e end,
     set_remote (f (remote s)).2 s).
Proof.
  unfold call. cbn [run]. destruct (f (remote s)) as [x w].
  by rewrite run_lift.
Qed.

Lemma simwp_call {A} (f : W → result A * W) s Q :
  (∀ w w', (f w).1 = (f w').1) →
  (∀ x w, f (remote s) = (x, w) →
          match x with
          | Ok a => Q (Ret a) (set_remote w s)
          | Err e => Q (Raise e) (set_remote w s)
          end) →
  simwp (call f) s Q.
Proof.
  intros Hf HQ r t. rewrite run_call.
  destruct (f (remote s)) as [x w] eqn:Hx. specialize (HQ x w eq_refl).
  cbn [fst snd]. intros [= <- <-].
  split; [apply grows_refl|]. split; [done|]. split; [|by destruct x].
  intros F s' _ Hrel.
  exists (set_remote (f (remote s')).2 s'). rewrite run_call.
  rewrite (Hf (remote s') (remote s)), Hx. cbn [fst].
  split; [done|]. by apply sim_rel_remote.
Qed.

Lemma simwp_bind {A B} (m : M W A) (f : A → M W B) s Q :
  simwp m s (λ r t, match r with
                    | Ret a => simwp (f a) t Q
                    | Raise e => Q (Raise e) t
                    | OutOfFuel => Q OutOfFuel t
                    end) →
  simwp (m ≫= f) s Q.
Proof.
  intros Hm r t. rewrite run_bind.
  destruct (run m s) as [r1 t1] eqn:Hrun1.
  destruct (Hm r1 t1 Hrun1) as (Hg1 & Hc1 & Hrep1 & Hk).
  destruct r1 as [a|e|].
  - intros Hrun2. destruct (Hk r t Hrun2) as (Hg2 & Hc2 & Hrep2 & HQ).
    split; [by eapply grows_trans|]. split; [congruence|]. split; [|done].
    intros F s' HF Hrel.
    destruct (Hrep1 F s') as (t1' & Hrun1' & Hrel1);
      [by eapply grows_trans|done|].
    destruct (Hrep2 F t1' HF Hrel1) as (t' & Hrun2' & Hrel2).
    exists t'. by rewrite run_bind, Hrun1'.
  - intros [= <- <-]. repeat split; try done.
    intros F s' HF Hrel. destruct (Hrep1 F s' HF Hrel) as (t1' & Hrun1' & Hrel1).
    exists t1'. by rewrite run_bind, Hrun1'.
  - intros [= <- <-]. repeat split; try done.
    intros F s' HF Hrel. destruct (Hrep1 F s' HF Hrel) as (t1' & Hrun1' & Hrel1).
    exists t1'. by rewrite run_bind, Hrun1'.
Qed.

Lemma simwp_try {A} (m : M W A) (h : exn → M W A) s Q :
  simwp m s (λ r t, match r with
                    | Raise e => simwp (h e) t Q
                    | _ => Q r t
                    end) →
  simwp (try_except m h) s Q.
Proof.
  intros Hm r t. rewrite run_try.
  destruct (run m s) as [r1 t1] eqn:Hrun1.
  destruct (Hm r1 t1 Hrun1) as (Hg1 & Hc1 & Hrep1 & Hk).
  destruct r1 as [a|e|].
  - intros [= <- <-]. repeat split; try done.
    intros F s' HF Hrel. destruct (Hrep1 F s' HF Hrel) as (t1' & Hrun1' & Hrel1).
    exists t1'. by rewrite run_try, Hrun1'.
  - intros Hrun2. destruct (Hk r t Hrun2) as (Hg2 & Hc2 & Hrep2 & HQ).
    split; [by eapply grows_trans|]. split; [congruence|]. split; [|done].
    intros F s' HF Hrel.
    destruct (Hrep1 F s') as (t1' & Hrun1' & Hrel1);
      [by eapply grows_trans|done|].
    destruct (Hrep2 F t1' HF Hrel1) as (t' & Hrun2' & Hrel2).
    exists t'. by rewrite run_try, Hrun1'.
  - intros [= <- <-]. repeat split; try done.
    intros F s' HF Hrel. destruct (Hrep1 F s' HF Hrel) as (t1' & Hrun1' & Hrel1).
    exists t1'. by rewrite run_try, Hrun1'.
Qed.

Lemma simwp_for_each {A} (l : list A) (body : nat → A → M W unit) i s
    (I : state W → Prop) (Q : outcome unit → state W → Prop) :
  I s →
  (∀ j x s1, I s1 →
     simwp (body j x) s1 (λ r s2, match r with
                                  | Ret _ => I s2
                                  | _ => Q r s2
                                  end)) →
  (∀ s1, I s1 → Q (Ret tt) s1) →
  simwp (for_each l body i) s Q.
Proof.
  intros HI Hbody Hend. revert i s HI.
  induction l as [|x l IH]; intros i s HI; cbn [for_each].
  - by apply simwp_skip, Hend.
  - apply simwp_bind. eapply simwp_mono; [by apply Hbody|].
    intros [[]|e|] s2 H2; try done. by apply IH.
Qed.

End SimRules.

(** *** The file system calls, replayed *)

Lemma namei_error_file t cur xs ys q c :
  namei t cur xs = Some q →
  node_at t q = Some (File c) →
  ys ≠ [] →
  namei_error t cur (xs ++ ys) = NotADirectoryError.
Proof.
  revert cur. induction xs as [|x xs IH]; intros cur Hn Hq Hys; simpl in *.
  - injection Hn as <-. destruct ys as [|y ys]; [done|]. simpl.
    unfold is_dir. by rewrite Hq.
  - destruct (is_dir t cur); [|done]. by apply IH.
Qed.

Lemma open_under_file t cwd a name q0 c :
  Str.mem "/" name = false →
  resolve t cwd a = Some q0 →
  node_at t q0 = Some (File c) →
  open_for_write t cwd (os_path_join a name) = Err NotADirectoryError.
Proof.
  intros Hname Ha Hq0.
  pose proof (resolve_nonempty _ _ _ _ Ha) as Hne.
  pose proof (resolve_join _ _ _ _ _ Hname Ha) as Hj.
  assert (is_dir t q0 = false) as Hd by (unfold is_dir; by rewrite Hq0).
  rewrite Hd in Hj.
  destruct (split_join a name Hname Hne) as (xs & Hsplit & Hne' & Hstart & Hxs).
  unfold open_for_write. rewrite Hj. unfold resolve_error.
  rewrite Hne', Hsplit, Hstart.
  unfold resolve in Ha. rewrite Hne in Ha.
  f_equal. eapply namei_error_file; [by apply Hxs|done|done].
Qed.

Lemma exists_in_cases t cwd a :
  exists_in t cwd a = true →
  ∃ q0, resolve t cwd a = Some q0
        ∧ (is_dir t q0 = true ∨ ∃ c, node_at t q0 = Some (File c)).
Proof.
  unfold exists_in, is_dir. destruct (resolve t cwd a) as [q0|]; [|done].
  intros H. apply bool_decide_eq_true in H. destruct H as [[|c] Hn].
  - exists q0. rewrite Hn. by split; [|left].
  - exists q0. rewrite Hn. split; [done|]. right. by exists c.
Qed.

Lemma file_kind_grows t t' q c :
  grows t t' → node_at t q = Some (File c) → ∃ c', node_at t' q = Some (File c').
Proof.
  intros Hg Hn. destruct (node_at_grows _ _ _ _ Hg Hn) as ([|c'] & Hn' & Hk);
    [done|]. by exists c'.
Qed.

Lemma not_dir_lookup t q : is_dir t q = false → node_at t q = t !! q.
Proof.
  unfold is_dir, node_at. by case_bool_decide.
Qed.

(** An [open] for writing under an entry that exists ends the same
    way in a tree that has grown, when the file it makes is of the
    tree [F] above both. *)
Lemma open_replay t t' F cwd a name :
  Str.mem "/" name = false →
  exists_in t cwd a = true →
  grows t t' → grows F t' →
  match open_for_write t cwd (os_path_join a name) with
  | Ok (q, t1) =>
      grows t1 F →
      open_for_write t' cwd (os_path_join a name) = Ok (q, <[q := File ""]> t')
      ∧ (∃ c, F !! q = Some (File c))
      ∧ t1 = <[q := File ""]> t
  | Err e => open_for_write t' cwd (os_path_join a name) = Err e
  end.
Proof.
  intros Hname Ha Hg HF.
  destruct (open_for_write t cwd (os_path_join a name)) as [[q t1]|e] eqn:Ho.
  - intros H1. destruct (open_for_write_inv _ _ _ _ _ Ho) as (Hr & Hd & ->).
    destruct (H1 q (File "")) as ([|cF] & HFq & Hk);
      [by rewrite lookup_insert_eq|done|].
    assert (node_at F q = Some (File cF)) as HnF.
    { rewrite <- HFq. unfold node_at. case_bool_decide as Hq; [|done].
      subst q. by unfold is_dir, node_at in Hd. }
    split; [|split; [by exists cF|done]].
    apply open_for_write_intro; [exact (resolve_grows _ _ _ _ _ Hg Hr)|].
    exact (is_file_grows _ _ _ _ HF HnF).
  - destruct (exists_in_cases _ _ _ Ha) as (q0 & Hr0 & [Hd0|[c Hc]]).
    + pose proof (resolve_join _ _ _ _ _ Hname Hr0) as Hj. rewrite Hd0 in Hj.
      unfold open_for_write in Ho. rewrite Hj in Ho.
      destruct (is_dir t (step q0 name)) eqn:Hd; [|done].
      injection Ho as <-.
      unfold open_for_write.
      rewrite (resolve_grows _ _ _ _ _ Hg Hj).
      by rewrite (is_dir_grows _ _ _ Hg Hd).
    + rewrite (open_under_file _ _ _ _ _ _ Hname Hr0 Hc) in Ho.
      injection Ho as <-.
      destruct (file_kind_grows _ _ _ _ Hg Hc) as [c' Hc'].
      exact (open_under_file _ _ _ _ _ _ Hname (resolve_grows _ _ _ _ _ Hg Hr0) Hc').
Qed.

(** The creation of a directory under an entry that exists fails in a
    tree that has grown as it failed before, and leaves both trees as
    they are. *)
Lemma makedirs_replay t t' cwd a name t1 e :
  Str.mem "/" name = false →
  exists_in t cwd a = true →
  grows t t' →
  exists_in t cwd (os_path_join a name) = false →
  makedirs t cwd (os_path_join a name) = (t1, Some e) →
  t1 = t
  ∧ exists_in t' cwd (os_path_join a name) = false
  ∧ makedirs t' cwd (os_path_join a name) = (t', Some e).
Proof.
  intros Hname Ha Hg Hex Hm.
  destruct (exists_in_cases _ _ _ Ha) as (q0 & Hr0 & [Hd0|[c Hc]]).
  - destruct (makedirs_join t cwd a name Hname) as [q Hq]; [|done|].
    + unfold dir_in. by rewrite Hr0.
    + rewrite Hq in Hm. done.
  - destruct (makedirs_under_file _ _ _ _ _ _ Hname Hr0 Hc) as [_ Hm'].
    rewrite Hm' in Hm. injection Hm as <- <-.
    destruct (file_kind_grows _ _ _ _ Hg Hc) as [c' Hc'].
    split; [done|].
    exact (makedirs_under_file _ _ _ _ _ _ Hname
             (resolve_grows _ _ _ _ _ Hg Hr0) Hc').
Qed.

Section SimPrims.
Context {W : Type}.
Implicit Types s t : state W.

(** [t] comes after [s0] in a run: the tree has grown and the working
    directory is the same. *)
Definition steady (s0 t : state W) : Prop :=
  grows (fs s0) (fs t) ∧ cwd t = cwd s0.

Lemma steady_refl s : steady s s.
Proof. split; [apply grows_refl|done]. Qed.

Lemma steady_trans s1 s2 s3 : steady s1 s2 → steady s2 s3 → steady s1 s3.
Proof.
  intros [Hg1 Hc1] [Hg2 Hc2]. split; [by eapply grows_trans|congruence].
Qed.

Lemma steady_event e s0 s : steady s0 s → steady s0 (add_event e s).
Proof. done. Qed.

Lemma steady_remote w s0 s : steady s0 s → steady s0 (set_remote w s).
Proof. done. Qed.

Lemma steady_exists s0 s p :
  steady s0 s →
  exists_in (fs s0) (cwd s0) p = true → exists_in (fs s) (cwd s) p = true.
Proof. intros [Hg ->]. by apply exists_in_grows. Qed.

Lemma simwp_steady {A} (m : M W A) s0 s (Q : outcome A → state W → Prop) :
  steady s0 s →
  simwp m s (λ r t, steady s0 t → Q r t) →
  simwp m s Q.
Proof.
  intros H0 H r t Hrun. destruct (H r t Hrun) as (Hg & Hc & Hrep & HQ).
  repeat split; try done. apply HQ.
  eapply steady_trans; [done|]. by split.
Qed.

Lemma simwp_write q data s (Q : outcome unit → state W → Prop) :
  (∃ c, fs s !! q = Some (File c)) →
  Q (Ret tt) (set_fs (<[q := File data]> (fs s)) s) →
  simwp (file_write q data) s Q.
Proof.
  intros [c Hc] HQ r t. unfold file_write. cbn [run]. intros [= <- <-].
  assert (grows (fs s) (<[q := File data]> (fs s))) as Hg
    by by eapply grows_insert_file.
  repeat split; try done.
  intros F s' HF Hrel. eexists. split; [done|].
  apply sim_rel_write; [done|].
  destruct (HF q (File data)) as ([|cF] & HFq & Hk); simpl;
    [by rewrite lookup_insert_eq|done|].
  by exists cF.
Qed.

Lemma simwp_open a name s (Q : outcome (list string) → state W → Prop) :
  Str.mem "/" name = false →
  exists_in (fs s) (cwd s) a = true →
  (∀ q, fs s !! q ≠ Some Dir →
        Q (Ret q) (add_event (EvOpen (os_path_join a name))
                     (set_fs (<[q := File ""]> (fs s)) s))) →
  (∀ e, Q (Raise e) s) →
  simwp (open_w (os_path_join a name)) s Q.
Proof.
  intros Hname Ha Hok Herr r t. unfold open_w. cbn [run].
  destruct (open_for_write (fs s) (cwd s) (os_path_join a name))
    as [[q t1]|e] eqn:Ho.
  - intros [= <- <-].
    pose proof (open_for_write_grows _ _ _ _ _ Ho) as Hg.
    destruct (open_for_write_inv _ _ _ _ _ Ho) as (Hr & Hd & ->).
    assert (fs s !! q ≠ Some Dir) as Hq.
    { rewrite <- (not_dir_lookup _ _ Hd). unfold is_dir in Hd.
      by destruct (node_at (fs s) q) as [[|?]|]. }
    repeat split; try done; [|by apply Hok].
    intros F s' HF Hrel. simpl in HF.
    pose proof (open_replay (fs s) (fs s') F (cwd s) a name Hname Ha
                  (sr_le _ _ _ Hrel) (sr_above _ _ _ Hrel)) as Hrep.
    rewrite Ho in Hrep. destruct (Hrep HF) as (Ho' & HFq & _).
    eexists. unfold open_w. cbn [run]. rewrite (sr_cwd _ _ _ Hrel), Ho'.
    split; [done|].
    apply sim_rel_event. by apply sim_rel_write.
  - intros [= <- <-].
    split; [apply grows_refl|]. split; [done|]. split; [|by apply Herr].
    intros F s' HF Hrel.
    pose proof (open_replay (fs s) (fs s') F (cwd s) a name Hname Ha
                  (sr_le _ _ _ Hrel) (sr_above _ _ _ Hrel)) as Hrep.
    rewrite Ho in Hrep. exists s'. unfold open_w. cbn [run].
    by rewrite (sr_cwd _ _ _ Hrel), Hrep.
Qed.

End SimPrims.

Section SimCreate.
Context {W : Type} {R : Remote W}.
Implicit Types s t : state W.

Lemma create_directory_run p s :
  run (create_directory_if_not_exists p) s =
  if exists_in (fs s) (cwd s) p then (Ret tt, s)
  else match makedirs (fs s) (cwd s) p with
       | (t, None) => (Ret tt, add_event (EvMakedirs p) (set_fs t s))
       | (t, Some e) => (Raise e, set_fs t s)
       end.
Proof.
  unfold create_directory_if_not_exists. rewrite run_bind.
  unfold os_path_exists. cbn [run].
  destruct (exists_in (fs s) (cwd s) p); [done|].
  unfold os_makedirs. cbn [negb run].
  by destruct (makedirs (fs s) (cwd s) p) as [t [e|]].
Qed.

Lemma create_directory_steady p s r t :
  run (create_directory_if_not_exists p) s = (r, t) → steady s t.
Proof.
  rewrite create_directory_run.
  destruct (exists_in (fs s) (cwd s) p).
  - intros [= <- <-]. apply steady_refl.
  - destruct (makedirs (fs s) (cwd s) p) as [t1 [e|]] eqn:Hm;
      intros [= <- <-]; (split; [|done]); simpl; by eapply makedirs_grows.
Qed.

(** A directory that the first run made or found is found by the
    second, which leaves the tree as it is. *)
Lemma create_directory_replay p s t :
  run (create_directory_if_not_exists p) s = (Ret tt, t) →
  replays (create_directory_if_not_exists p) s (Ret tt) t.
Proof.
  intros Hrun F s' HF Hrel.
  pose proof (create_directory_exists _ _ _ Hrun) as Hex.
  pose proof (create_directory_steady _ _ _ _ Hrun) as [Hg Hc].
  assert (grows (fs t) (fs s')) as Hts'
    by (eapply grows_trans; [done|apply (sr_above _ _ _ Hrel)]).
  exists s'. split.
  - apply create_directory_present.
    rewrite (sr_cwd _ _ _ Hrel), <- Hc. by eapply exists_in_grows.
  - destruct Hrel as [Hc' Hle Hb Ha Hv]. split; try done; [congruence|].
    intros q. destruct (Hv q) as [Hq|Hq]; [|by right].
    revert Hrun. rewrite create_directory_run.
    destruct (exists_in (fs s) (cwd s) p); [intros [= <-]; by left|].
    destruct (makedirs (fs s) (cwd s) p) as [t1 [e|]] eqn:Hm; [done|].
    intros [= <-]. simpl in *.
    destruct (makedirs_adds _ _ _ _ _ Hm q) as [Hq1|[Hq1 Hq2]].
    + left. congruence.
    + destruct (Hts' q Dir Hq2) as (n & Hn & _). congruence.
Qed.

Lemma simwp_create a name s (Q : outcome unit → state W → Prop) :
  Str.mem "/" name = false →
  exists_in (fs s) (cwd s) a = true →
  (∀ t, steady s t →
        exists_in (fs t) (cwd t) (os_path_join a name) = true →
        Q (Ret tt) t) →
  (∀ e t, steady s t → Q (Raise e) t) →
  simwp (create_directory_if_not_exists (os_path_join a name)) s Q.
Proof.
  intros Hname Ha Hok Herr r t Hrun.
  pose proof (create_directory_steady _ _ _ _ Hrun) as Hst.
  destruct Hst as [Hg Hc]. split; [done|]. split; [done|].
  destruct r as [[]|e|].
  - split; [by apply create_directory_replay|].
    apply Hok; [done|]. by eapply create_directory_exists.
  - split; [|by apply Herr].
    intros F s' HF Hrel. revert Hrun. rewrite !create_directory_run.
    destruct (exists_in (fs s) (cwd s) (os_path_join a name)) eqn:Hex; [done|].
    destruct (makedirs (fs s) (cwd s) (os_path_join a name))
      as [t1 [e1|]] eqn:Hm; [|done].
    intros [= -> <-].
    destruct (makedirs_replay _ (fs s') _ _ _ _ _ Hname Ha
                (sr_le _ _ _ Hrel) Hex Hm) as (-> & Hex' & Hm').
    rewrite (sr_cwd _ _ _ Hrel), Hex', Hm'.
    eexists. split; [done|]. by destruct Hrel.
  - revert Hrun. rewrite create_directory_run.
    destruct (exists_in (fs s) (cwd s) (os_path_join a name)); [done|].
    by destruct (makedirs (fs s) (cwd s) (os_path_join a name)) as [t1 [e1|]].
Qed.

End SimCreate.

(** The remote side is unchanged between two runs when its answers
    do not depend on what it has been asked before. *)
Definition unchanging {W : Type} (R : Remote W) : Prop :=
  (∀ token url w w',
     (QuipClient_new token url w).1 = (QuipClient_new token url w').1)
  ∧ (∀ id w w', (get_thread id w).1 = (get_thread id w').1)
  ∧ (∀ id w w', (get_folder id w).1 = (get_folder id w').1)
  ∧ (∀ req w w', (requests_get req w).1 = (requests_get req w').1).

Section SimSteps.
Context {W : Type}.
Implicit Types s t : state W.

Lemma steady_open e q s0 s :
  fs s !! q ≠ Some Dir →
  steady s0 s →
  steady s0 (add_event e (set_fs (<[q := File ""]> (fs s)) s)).
Proof.
  intros Hq [Hg Hc]. split; [|done]. simpl.
  eapply grows_trans; [done|].
  destruct (fs s !! q) as [[|c]|] eqn:E; [done| |].
  - by eapply grows_insert_file.
  - by apply grows_insert_new.
Qed.

Lemma steady_write q data s0 s :
  (∃ c, fs s !! q = Some (File c)) →
  steady s0 s →
  steady s0 (set_fs (<[q := File data]> (fs s)) s).
Proof.
  intros [c Hq] [Hg Hc]. split; [|done]. simpl.
  eapply grows_trans; [done|]. by eapply grows_insert_file.
Qed.

Lemma simwp_use {A} (m : M W A) s0 s (Q : outcome A → state W → Prop) :
  steady s0 s →
  simwp m s (λ _ _, True) →
  (∀ r t, steady s0 t → Q r t) →
  simwp m s Q.
Proof.
  intros H0 H HQ r t Hrun. destruct (H r t Hrun) as (Hg & Hc & Hrep & _).
  repeat split; try done. apply HQ.
  eapply steady_trans; [done|]. by split.
Qed.

Lemma no_slash_app (a b : string) :
  Str.mem "/" a = false → Str.mem "/" b = false →
  Str.mem "/" (a +:+ b) = false.
Proof. intros Ha Hb. by rewrite mem_app, Ha, Hb. Qed.

End SimSteps.

(** One step of a proof that a program of the script can be replayed:
    the rule of the construct at the head of the program, the fact
    [steady] in the context being carried to the new state. *)
Ltac sim_step H :=
  lazymatch goal with
  | |- simwp (mbind _ _) _ _ => apply simwp_bind
  | |- simwp (try_except _ _) _ _ => apply simwp_try
  | |- simwp (mret _) _ _ => apply simwp_ret
  | |- simwp skip _ _ => apply simwp_skip
  | |- simwp (raise _) _ _ => apply simwp_raise
  | |- simwp out_of_fuel _ _ => apply simwp_out_of_fuel
  | |- simwp (lift ?r) _ _ =>
      apply simwp_lift;
      first [ match goal with Hx : r = _ |- _ => rewrite Hx end
            | let Er := fresh "Er" in destruct r eqn:Er ]
  | |- simwp (log ?e) _ _ => apply simwp_log; apply (steady_event e) in H
  | |- simwp (print ?m) _ _ =>
      apply simwp_log; apply (steady_event (EvPrint m)) in H
  | |- simwp time_sleep _ _ =>
      apply simwp_log; apply (steady_event EvSleep) in H
  | |- simwp (call _) _ _ =>
      let r := fresh "r" in let w := fresh "w" in let Ec := fresh "Ec" in
      apply simwp_call;
      [ solve [auto]
      | intros r w Ec; apply (steady_remote w) in H; destruct r ]
  | |- simwp (open_w (os_path_join ?a ?n)) _ _ =>
      let q := fresh "q" in let Hq := fresh "Hq" in let e := fresh "e" in
      apply simwp_open;
      [ | | intros q Hq;
            apply (steady_open (EvOpen (os_path_join a n)) q) in H; [|exact Hq]
        | intros e ]
  | |- simwp (file_write ?q ?data) _ _ =>
      apply simwp_write;
      [ eexists; simpl; by rewrite lookup_insert_eq
      | apply (steady_write q data) in H;
        [|eexists; simpl; by rewrite lookup_insert_eq] ]
  | |- simwp (if ?b then _ else _) _ _ =>
      let Eb := fresh "Eb" in destruct b eqn:Eb
  | |- simwp (match ?x with _ => _ end) _ _ =>
      let Ex := fresh "Ex" in destruct x eqn:Ex
  end; cbv beta iota.

Section SimScript.
Context {W : Type} {R : Remote W}.
Implicit Types s t : state W.
Hypothesis HR : unchanging R.

Lemma download_blob_sim url att name s :
  Str.mem "/" name = false →
  exists_in (fs s) (cwd s) att = true →
  simwp (download_blob url (os_path_join att name)) s (λ _ _, True).
Proof using HR.
  intros Hname Hatt. destruct HR as (Hnew & Hthread & Hfolder & Hget).
  pose proof (steady_refl s) as H.
  unfold download_blob, raise_for_status.
  repeat (sim_step H; try done; try (by eapply steady_exists)).
Qed.

Lemma download_attachment_sim att blob s :
  exists_in (fs s) (cwd s) att = true →
  simwp (download_attachment att blob) s (λ _ _, True).
Proof using HR.
  intros Hatt. pose proof (steady_refl s) as H.
  unfold download_attachment.
  repeat (sim_step H; try done).
  eapply (simwp_use _ _ _ _ H).
  { apply download_blob_sim; [|done]. by eapply sanitize_filename_no_slash. }
  intros [[|]|e|] t Ht; try done; repeat (sim_step Ht; try done).
Qed.

Lemma download_attachments_sim cur td title s :
  Str.mem "/" title = false →
  exists_in (fs s) (cwd s) cur = true →
  simwp (download_attachments cur td title) s (λ _ _, True).
Proof using HR.
  intros Htitle Hcur. pose proof (steady_refl s) as H.
  unfold download_attachments.
  repeat (sim_step H; try done).
  apply simwp_create; [by apply no_slash_app|done| |done].
  intros t Ht Hatt.
  repeat (sim_step Ht; try done).
  apply (simwp_for_each _ _ _ _
           (λ t1, exists_in (fs t1) (cwd t1)
                    (os_path_join cur (title +:+ "_attachments")) = true));
    [done| |done].
  intros j blob s1 H1.
  eapply (simwp_use _ _ _ _ (steady_refl s1));
    [by apply download_attachment_sim|].
  intros [[]|e|] t1 Ht1; try done. by eapply steady_exists.
Qed.

Lemma export_document_sim client id cur td title s :
  Str.mem "/" title = false →
  exists_in (fs s) (cwd s) cur = true →
  simwp (export_document client id cur td title) s (λ _ _, True).
Proof using HR.
  intros Htitle Hcur. destruct HR as (Hnew & Hthread & Hfolder & Hget).
  pose proof (steady_refl s) as H.
  unfold export_document.
  repeat (sim_step H; try done; try (by apply no_slash_app);
          try (by eapply steady_exists)).
Qed.

Lemma process_thread_sim client id cur s :
  exists_in (fs s) (cwd s) cur = true →
  simwp (process_thread client id cur) s (λ _ _, True).
Proof using HR.
  intros Hcur. pose proof HR as (Hnew & Hthread & Hfolder & Hget).
  pose proof (steady_refl s) as H.
  unfold process_thread.
  repeat (sim_step H; try done).
  pose proof (sanitize_filename_no_slash _ _ Er2) as Htitle.
  eapply (simwp_use _ _ _ _ H).
  { apply export_document_sim; [done|]. by eapply steady_exists. }
  intros [[]|e|] t Ht; try done.
  - eapply (simwp_use _ _ _ _ Ht).
    { apply download_attachments_sim; [done|]. by eapply steady_exists. }
    intros [[]|e|] t1 Ht1; try done.
    repeat (sim_step Ht1; try done).
  - repeat (sim_step Ht; try done).
Qed.

(** A callee in the place of the recursive call that can be replayed
    under a path that exists. *)
Definition replayable (recurse : json → string → nat → M W unit) : Prop :=
  ∀ id p d s, exists_in (fs s) (cwd s) p = true →
              simwp (recurse id p d) s (λ _ _, True).

Lemma dispatch_child_sim recurse client cur depth total i child s :
  replayable recurse →
  exists_in (fs s) (cwd s) cur = true →
  simwp (dispatch_child recurse client cur depth total i child) s
        (λ _ _, True).
Proof using HR.
  intros Hrec Hcur. pose proof (steady_refl s) as H.
  unfold dispatch_child.
  repeat (sim_step H; try done).
  - apply process_thread_sim. by eapply steady_exists.
  - apply Hrec. by eapply steady_exists.
Qed.

Lemma process_child_sim recurse client cur depth total i child s :
  replayable recurse →
  exists_in (fs s) (cwd s) cur = true →
  simwp (process_child recurse client cur depth total i child) s
        (λ _ _, True).
Proof using HR.
  intros Hrec Hcur. unfold process_child.
  apply simwp_bind.
  eapply (simwp_use _ _ _ _ (steady_refl s)); [by apply dispatch_child_sim|].
  intros [[]|e|] t Ht; try done.
  repeat (sim_step Ht; try done).
Qed.

Lemma children_loop_sim recurse client cur depth total items i s :
  replayable recurse →
  exists_in (fs s) (cwd s) cur = true →
  simwp (for_each items (process_child recurse client cur depth total) i) s
        (λ _ _, True).
Proof using HR.
  intros Hrec Hcur.
  apply (simwp_for_each _ _ _ _
           (λ t, exists_in (fs t) (cwd t) cur = true)); [done| |done].
  intros j child s1 H1.
  eapply (simwp_use _ _ _ _ (steady_refl s1));
    [by apply process_child_sim|].
  intros [[]|e|] t1 Ht1; try done. by eapply steady_exists.
Qed.

Lemma process_folder_sim fuel client : replayable (process_folder fuel client).
Proof using HR.
  pose proof HR as (Hnew & Hthread & Hfolder & Hget).
  induction fuel as [|fuel IH]; intros id base depth s Hbase.
  { by apply simwp_out_of_fuel. }
  pose proof (steady_refl s) as H.
  cbn [process_folder].
  repeat (sim_step H; try done).
  pose proof (sanitize_filename_no_slash _ _ Er2) as Htitle.
  apply simwp_create; [done|by eapply steady_exists| |].
  - intros t Ht Hcur.
    repeat (sim_step Ht; try done).
    all: eapply (simwp_use _ _ _ _ Ht); [by apply children_loop_sim|].
    all: intros [[]|e|] t1 Ht1; try done; repeat (sim_step Ht1; try done).
  - intros e t Ht. repeat (sim_step Ht; try done).
Qed.

End SimScript.

(** *** The whole run, replayed *)

Section SimMain.
Context {W : Type} {R : Remote W} {urllib : UrlLib}.
Implicit Types s t : state W.
Hypothesis HR : unchanging R.

(** [m] can be replayed when it does not end with an exception. *)
Definition simwp_ok {A} (m : M W A) (s : state W) : Prop :=
  ∀ r t, run m s = (r, t) → (∀ e, r ≠ Raise e) →
         steady s t ∧ replays m s r t.

Lemma simwp_ok_of {A} (m : M W A) s (Q : outcome A → state W → Prop) :
  simwp m s Q → simwp_ok m s.
Proof.
  intros H r t Hrun _. destruct (H r t Hrun) as (Hg & Hc & Hrep & _).
  by repeat split.
Qed.

Lemma simwp_ok_bind {A B} (m : M W A) (f : A → M W B) s :
  simwp_ok m s →
  (∀ a t, run m s = (Ret a, t) → simwp_ok (f a) t) →
  simwp_ok (m ≫= f) s.
Proof.
  intros Hm Hf r t. rewrite run_bind.
  destruct (run m s) as [r1 t1] eqn:Hrun1.
  destruct r1 as [a|e|].
  - intros Hrun2 Hr.
    destruct (Hm _ _ Hrun1) as [H1 Hrep1]; [done|].
    destruct (Hf a t1 eq_refl _ _ Hrun2 Hr) as [H2 Hrep2].
    split; [by eapply steady_trans|].
    intros F s' HF Hrel.
    destruct (Hrep1 F s') as (t1' & Hrun1' & Hrel1);
      [eapply grows_trans; [apply H2|done]|done|].
    destruct (Hrep2 F t1' HF Hrel1) as (t' & Hrun2' & Hrel2).
    exists t'. by rewrite run_bind, Hrun1'.
  - intros [= <- <-] Hr. by destruct (Hr e).
  - intros [= <- <-] Hr.
    destruct (Hm _ _ Hrun1) as [H1 Hrep1]; [done|]. split; [done|].
    intros F s' HF Hrel. destruct (Hrep1 F s' HF Hrel) as (t1' & Hrun1' & Hrel1).
    exists t1'. by rewrite run_bind, Hrun1'.
Qed.

Lemma simwp_ok_create p s : simwp_ok (create_directory_if_not_exists p) s.
Proof.
  intros r t Hrun Hr.
  split; [by eapply create_directory_steady|].
  destruct r as [[]|e|].
  - by apply create_directory_replay.
  - by destruct (Hr e).
  - revert Hrun. rewrite create_directory_run.
    destruct (exists_in (fs s) (cwd s) p); [done|].
    by destruct (makedirs (fs s) (cwd s) p) as [t1 [e1|]].
Qed.

Lemma export_sim fuel client id output s :
  exists_in (fs s) (cwd s) output = true →
  simwp (try_except
           (process_folder fuel client id output 0 ;; print MsgCompleted)
           (λ e, print (MsgExtractionFailed e)) ;;
         mret 0%Z) s (λ _ _, True).
Proof using HR.
  intros Hout. pose proof (steady_refl s) as H.
  repeat (sim_step H; try done).
  eapply (simwp_use _ _ _ _ H); [by apply process_folder_sim|].
  intros [[]|e|] t Ht; try done; repeat (sim_step Ht; try done).
Qed.

Lemma main_sim fuel args s : simwp_ok (main fuel args) s.
Proof using HR.
  pose proof HR as (Hnew & Hthread & Hfolder & Hget).
  unfold main. apply simwp_ok_bind.
  { pose proof (steady_refl s) as H.
    apply (simwp_ok_of _ _ (λ _ _, True)).
    repeat (sim_step H; try done). }
  intros api_url t1 _. apply simwp_ok_bind.
  { pose proof (steady_refl t1) as H.
    apply (simwp_ok_of _ _ (λ _ _, True)).
    repeat (sim_step H; try done). }
  intros [client|] t2 _; [|by apply (simwp_ok_of _ _ (λ _ _, True)), simwp_ret].
  apply simwp_ok_bind.
  { apply (simwp_ok_of _ _ (λ _ _, True)).
    by apply simwp_lift; destruct extract_id_from_link. }
  intros [[|c id]|] t3 _.
  1, 3: pose proof (steady_refl t3) as H;
        apply (simwp_ok_of _ _ (λ _ _, True));
        repeat (sim_step H; try done).
  apply simwp_ok_bind; [by apply (simwp_ok_of _ _ (λ _ _, True)), simwp_log|].
  intros _ t4 _.
  apply simwp_ok_bind; [by apply (simwp_ok_of _ _ (λ _ _, True)), simwp_log|].
  intros _ t5 _.
  apply simwp_ok_bind; [apply simwp_ok_create|].
  intros [] t6 Hrun6.
  apply (simwp_ok_of _ _ (λ _ _, True)). apply export_sim.
  by eapply create_directory_exists.
Qed.

End SimMain.

(** A write through [open] leaves the data at the entry of the path,
    whatever was there, and no other entry is touched. *)
Lemma write_overwrites {W : Type} p data (s t : state W) :
  run (f ← open_w p; file_write f data) s = (Ret tt, t) →
  ∃ q, resolve (fs s) (cwd s) p = Some q
       ∧ fs t = <[q := File data]> (fs s).
Proof.
  rewrite run_bind. unfold open_w. cbn [run].
  destruct (open_for_write (fs s) (cwd s) p) as [[q t1]|e] eqn:Ho; [|done].
  destruct (open_for_write_inv _ _ _ _ _ Ho) as (Hr & Hd & ->).
  unfold file_write. cbn [run]. intros [= <-]. exists q. split; [done|].
  simpl. apply insert_insert_eq.
Qed.

Lemma sample_remote_unchanging : unchanging sample_remote.
Proof. by repeat split. Qed.

(** C8: when the answers of the remote side do not depend on what it
    was asked before, a second run of the export from the state that
    a first run left, with the same arguments, ends as the first did
    and leaves the file tree exactly as it found it: the same paths
    with the same contents, nothing added and nothing renamed.  The
    first run is one that ended without an exception.  A write
    through [open] replaces the content of the entry of its path and
    touches no other entry, and a directory that
    [create_directory_if_not_exists] made or found is left alone by
    a second call. *)
Theorem export_twice_same_files {W : Type} {R : Remote W} {urllib : UrlLib}
    (fuel : nat) (args : Args) (s0 s1 : state W) (r : outcome Z) :
  unchanging R →
  run (main fuel args) s0 = (r, s1) →
  (∀ e, r ≠ Raise e) →
  (∃ s2, run (main fuel args) s1 = (r, s2) ∧ fs s2 = fs s1)
  ∧ (∀ p data (s t : state W),
       run (f ← open_w p; file_write f data) s = (Ret tt, t) →
       ∃ q, resolve (fs s) (cwd s) p = Some q
            ∧ fs t = <[q := File data]> (fs s))
  ∧ (∀ p (s t : state W),
       run (create_directory_if_not_exists p) s = (Ret tt, t) →
       run (create_directory_if_not_exists p) t = (Ret tt, t)).
Proof.
  intros HR Hrun Hr. split; [|split].
  - destruct (main_sim HR fuel args s0 r s1 Hrun Hr) as [[Hg Hc] Hrep].
    destruct (Hrep (fs s1) s1 (grows_refl _) (sim_rel_start _ _ Hc Hg))
      as (s2 & Hrun2 & Hrel).
    exists s2. split; [done|]. by eapply sim_rel_end.
  - intros p data s t. apply write_overwrites.
  - intros p s t Hp. apply create_directory_present.
    by eapply create_directory_exists.
Qed.

Lemma export_twice_same_files_witness :
  let first := run (main (urllib := lenient_urllib) (R := sample_remote)
                      3 sample_args) empty_home in
  first.1 = Ret 0%Z
  ∧ size (fs first.2) = 8
  ∧ fs first.2 !! ["home"; "out"; "Projects"; "Plan Q1.html"]
    = Some (File "<h1>Plan</h1>")
  ∧ ∃ s2, run (main (urllib := lenient_urllib) (R := sample_remote)
                 3 sample_args) first.2 = (Ret 0%Z, s2)
          ∧ fs s2 = fs first.2.
Proof.
  split; [by vm_compute|]. split; [by vm_compute|]. split; [by vm_compute|].
  apply (proj1 (export_twice_same_files (urllib := lenient_urllib)
                  (R := sample_remote) 3 sample_args empty_home _ (Ret 0%Z)
                  sample_remote_unchanging ltac:(by vm_compute)
                  ltac:(done))).
Defined.

(** * Further properties of the script *)

(** ** [sanitize_filename] as a function on strings *)

Lemma filter_app (f : ascii → bool) (a b : string) :
  Str.filter f (a +:+ b) = Str.filter f a +:+ Str.filter f b.
Proof.
  induction a as [|x a IH]; [done|].
  rewrite app_cons. simpl. rewrite IH. by destruct (f x).
Qed.

Lemma filter_forallb (f : ascii → bool) (s : string) :
  Str.forallb f (Str.filter f s) = true.
Proof.
  induction s as [|x s IH]; [done|]. simpl.
  destruct (f x) eqn:Hx; [|done]. simpl. by rewrite Hx.
Qed.

Lemma filter_length (f : ascii → bool) (s : string) :
  (String.length (Str.filter f s) ≤ String.length s)%nat.
Proof.
  induction s as [|x s IH]; [done|]. simpl.
  destruct (f x); simpl; lia.
Qed.

Lemma filter_mem (f : ascii → bool) (c : ascii) (s : string) :
  f c = true → Str.mem c (Str.filter f s) = Str.mem c s.
Proof.
  intros Hc. induction s as [|x s IH]; [done|]. simpl.
  destruct (f x) eqn:Hx; simpl; [by rewrite IH|].
  destruct (Ascii.eqb x c) eqn:Hxc; [|done].
  apply Ascii.eqb_eq in Hxc. congruence.
Qed.

Lemma filter_empty (f : ascii → bool) (s : string) :
  Str.filter f s = "" ↔ Str.forallb (λ c, negb (f c)) s = true.
Proof.
  induction s as [|x s IH]; [done|]. simpl.
  destruct (f x); simpl; [done|]. apply IH.
Qed.

(** X1: on strings [sanitize_filename] is idempotent and distributes
    over concatenation; its result is never longer than the argument
    and holds exactly the same characters apart from the reserved
    ones. *)
Theorem sanitize_filename_algebra (a b : string) :
  ∃ oa ob,
    sanitize_filename (JStr a) = Ok oa
    ∧ sanitize_filename (JStr b) = Ok ob
    ∧ sanitize_filename (JStr oa) = Ok oa
    ∧ sanitize_filename (JStr (a +:+ b)) = Ok (oa +:+ ob)
    ∧ (String.length oa ≤ String.length a)%nat
    ∧ (∀ c, c ∉ reserved_chars → Str.mem c oa = Str.mem c a).
Proof.
  exists (re_sub_reserved a), (re_sub_reserved b).
  split; [done|]. split; [done|]. unfold sanitize_filename, re_sub_reserved.
  split; [|split; [|split]].
  - f_equal. apply filter_all, filter_forallb.
  - f_equal. apply filter_app.
  - apply filter_length.
  - intros c Hc. apply filter_mem.
    destruct (is_reserved c) eqn:E; [|done]. by apply is_reserved_elem in E.
Qed.

(** X2: a title made only of reserved characters, the empty title
    among them, is sanitized to the empty string, and only such a
    title is; the title that stands for a missing one is used when
    the key is absent, not when the title comes out empty. *)
Theorem sanitize_filename_empty_result (s : string) :
  (sanitize_filename (JStr s) = Ok "" ↔ Str.forallb is_reserved s = true)
  ∧ (∀ d info default,
       dict_lookup "thread" d = Some (JDict info) →
       dict_lookup "title" info = Some (JStr s) →
       Str.forallb is_reserved s = true →
       title_of (JDict d) "thread" default = Ok "")
  ∧ (∀ d info default,
       dict_lookup "thread" d = Some (JDict info) →
       dict_lookup "title" info = None →
       title_of (JDict d) "thread" default = Ok (re_sub_reserved default)).
Proof.
  assert (sanitize_filename (JStr s) = Ok ""
          ↔ Str.forallb is_reserved s = true) as Hiff.
  { unfold sanitize_filename, re_sub_reserved. split.
    - intros [= H]. apply filter_empty in H.
      erewrite <- H. clear H. induction s as [|x s IH]; [done|]. simpl.
      by rewrite negb_involutive, IH.
    - intros H. f_equal. apply filter_empty. rewrite <- H. clear H.
      induction s as [|x s IH]; [done|]. simpl.
      by rewrite negb_involutive, IH. }
  split; [done|]. split.
  - intros d info default Hd Hinfo Hs. unfold title_of. simpl.
    rewrite Hd. simpl. rewrite Hinfo. simpl. by apply Hiff.
  - intros d info default Hd Hinfo. unfold title_of. simpl.
    rewrite Hd. simpl. by rewrite Hinfo.
Qed.

Lemma sanitize_filename_empty_result_witness :
  title_of (JDict [("thread", JDict [("title", JStr "?:*")])]) "thread"
    "Unknown_Document" = Ok ""
  ∧ title_of (JDict [("thread", JDict [])]) "thread" "Unknown_Document"
    = Ok "Unknown_Document".
Proof.
  split.
  - exact (proj1 (proj2 (sanitize_filename_empty_result "?:*"))
             [("thread", JDict [("title", JStr "?:*")])]
             [("title", JStr "?:*")] "Unknown_Document"
             eq_refl eq_refl eq_refl).
  - exact (proj2 (proj2 (sanitize_filename_empty_result ""))
             [("thread", JDict [])] [] "Unknown_Document" eq_refl eq_refl).
Defined.

(** ** What one download and one document leave behind *)

Definition http_error (r : response) : bool :=
  ((400 <=? status_code r) && (status_code r <? 600))%Z.

Lemma download_blob_true {W : Type} {R : Remote W}
    (url : json) (file_path : string) (s : state W) resp q :
  (requests_get (Download url) (remote s)).1 = Ok resp →
  http_error resp = false →
  resolve (fs s) (cwd s) file_path = Some q →
  is_dir (fs s) q = false →
  (run (download_blob url file_path) s).1 = Ret true.
Proof.
  intros Hget Hst Hres Hdir.
  destruct (requests_get (Download url) (remote s)) as [x w] eqn:Ec.
  simpl in Hget. subst x.
  pose proof (open_for_write_intro _ _ _ _ Hres Hdir) as Hopen.
  enough (wp (download_blob url file_path) s (λ r _, r = Ret true)) as H
    by exact H.
  unfold download_blob, raise_for_status, http_error in *.
  by repeat wp_step.
Qed.

(** X3: [download_blob] never raises and returns a boolean.  It
    returns [True] exactly when the request was answered with a status
    outside 400 to 599 and the file could be opened: the file then
    holds the body of the answer and nothing else has changed.  When
    it returns [False] the file tree is as it was and one line has
    been printed. *)
Theorem download_blob_outcome {W : Type} {R : Remote W}
    (url : json) (file_path : string) (s : state W) :
  ∃ b s',
    run (download_blob url file_path) s = (Ret b, s')
    ∧ cwd s' = cwd s
    ∧ (b = true ↔
       ∃ resp q,
         (requests_get (Download url) (remote s)).1 = Ok resp
         ∧ http_error resp = false
         ∧ resolve (fs s) (cwd s) file_path = Some q
         ∧ is_dir (fs s) q = false)
    ∧ (b = true →
       ∃ resp q,
         (requests_get (Download url) (remote s)).1 = Ok resp
         ∧ resolve (fs s) (cwd s) file_path = Some q
         ∧ fs s' = <[q := File (content resp)]> (fs s)
         ∧ trace s' = trace s ++ [EvRequest (Download url); EvOpen file_path])
    ∧ (b = false →
       fs s' = fs s
       ∧ ∃ e, trace s' = trace s ++ [EvRequest (Download url);
                                     EvPrint (MsgErrorDownloading e)]).
Proof.
  enough (wp (download_blob url file_path) s
            (λ r s', ∃ b, r = Ret b
               ∧ cwd s' = cwd s
               ∧ (b = true →
                  ∃ resp q,
                    (requests_get (Download url) (remote s)).1 = Ok resp
                    ∧ http_error resp = false
                    ∧ resolve (fs s) (cwd s) file_path = Some q
                    ∧ is_dir (fs s) q = false
                    ∧ fs s' = <[q := File (content resp)]> (fs s)
                    ∧ trace s' = trace s ++
                        [EvRequest (Download url); EvOpen file_path])
               ∧ (b = false →
                  fs s' = fs s
                  ∧ ∃ e, trace s' = trace s ++
                           [EvRequest (Download url);
                            EvPrint (MsgErrorDownloading e)]))) as H.
  { apply wp_elim in H as (r & s' & Hrun & b & -> & Hc & Ht & Hf).
    exists b, s'. split; [done|]. split; [done|]. split; [|split; [|done]].
    - split.
      + intros Hb. destruct (Ht Hb) as (resp & q & ? & ? & ? & ? & _).
        by exists resp, q.
      + intros (resp & q & H1 & H2 & H3 & H4).
        pose proof (download_blob_true url file_path s resp q H1 H2 H3 H4)
          as Htrue.
        rewrite Hrun in Htrue. by injection Htrue.
    - intros Hb. destruct (Ht Hb) as (resp & q & ? & ? & ? & ? & ? & ?).
      by exists resp, q. }
  unfold download_blob, raise_for_status.
  repeat wp_step.
  all: try (exists false; split; [done|]; split; [done|];
            split; [done|]; intros _; split; [done|];
            eexists; simpl; by rewrite <- !app_assoc).
  exists true. split; [done|]. split; [done|]. split; [|done]. intros _.
  simpl in Eo. destruct (open_for_write_inv _ _ _ _ _ Eo) as (Hr & Hd & ->).
  exists a, l. rewrite Ec. repeat split; try done.
  - simpl. by rewrite insert_insert_eq.
  - simpl. by rewrite <- !app_assoc.
Qed.

(** A second remote side, for the cases the first does not have: the
    export of [E1] raises; the markup of [H1] is a list; the title of
    [N1] is a number; [D1] and [D2] have titles that differ only by a
    reserved character; the second blob of [B1] is a string; the
    folder [UP] is titled with two dots and [LEAF] has no list of
    children; the request for [DOWN] raises. *)
Definition odd_thread (id : json) : result json :=
  match id with
  | JStr "E1" =>
      Ok (JDict [("thread", obj_title "Report"); ("html", JStr "<p>r</p>");
                 ("blobs", JList [JDict [("url", JStr "https://b/1")]])])
  | JStr "H1" =>
      Ok (JDict [("thread", obj_title "Sheet"); ("html", JList [JStr "x"]);
                 ("blobs", JList [JDict [("url", JStr "https://b/1")]])])
  | JStr "N1" => Ok (JDict [("thread", JDict [("title", JNum 7)])])
  | JStr "D1" => Ok (JDict [("thread", obj_title "a/b")])
  | JStr "D2" => Ok (JDict [("thread", obj_title "ab")])
  | JStr "B1" =>
      Ok (JDict [("thread", obj_title "Mix");
                 ("blobs", JList [JDict [("url", JStr "https://b/1")];
                                  JStr "oops";
                                  JDict [("url", JStr "https://b/2")]])])
  | _ => Err (OtherError "unknown")
  end.

Definition odd_folder (id : json) : result json :=
  match id with
  | JStr "UP" =>
      Ok (JDict [("folder", obj_title "..");
                 ("children", JList [JDict [("thread_id", JStr "D1")]])])
  | JStr "LEAF" => Ok (JDict [("folder", obj_title "Leaf")])
  | _ => Err (OtherError "timeout")
  end.

Definition odd_get (r : request) : result response :=
  match r with
  | ExportDocx _ (JStr "D1") _ => Ok {| status_code := 200; content := "ONE" |}
  | ExportDocx _ (JStr "D2") _ => Ok {| status_code := 200; content := "TWO" |}
  | ExportDocx _ (JStr "H1") _ => Ok {| status_code := 503; content := "" |}
  | ExportDocx _ (JStr "B1") _ => Ok {| status_code := 503; content := "" |}
  | ExportDocx _ _ _ => Err (OtherError "timeout")
  | Download (JStr "https://b/1") => Ok {| status_code := 200; content := "PNG" |}
  | Download (JStr "https://b/2") => Ok {| status_code := 204; content := "" |}
  | Download _ => Ok {| status_code := 404; content := "missing" |}
  end.

Definition odd_remote : Remote unit := {|
  QuipClient_new := λ _ _ w, (Err (OtherError "no client"), w);
  get_thread := λ id w, (odd_thread id, w);
  get_folder := λ id w, (odd_folder id, w);
  requests_get := λ r w, (odd_get r, w)
|}.

(** X4: when the export request itself raises, as on a network
    failure, [process_thread] writes nothing for the document: the
    fallback to the markup of the metadata is not tried and no
    attachment is fetched, whatever the metadata hold.  One line is
    printed and the function returns. *)
Theorem export_exception_skips_document {W : Type} {R : Remote W}
    (client : Client) (thread_id : json) (current_path : string)
    (s : state W) (thread_data : json) (title : string) (w1 w2 : W)
    (e : exn) :
  get_thread thread_id (remote s) = (Ok thread_data, w1) →
  py_in "error" thread_data = Ok false →
  title_of thread_data "thread" "Unknown_Document" = Ok title →
  requests_get (export_request client thread_id) w1 = (Err e, w2) →
  ∃ s',
    run (process_thread client thread_id current_path) s = (Ret tt, s')
    ∧ fs s' = fs s
    ∧ remote s' = w2
    ∧ trace s' = trace s ++
        [EvGetThread thread_id;
         EvRequest (export_request client thread_id);
         EvPrint (MsgErrorProcessingDocument thread_id e)].
Proof.
  intros Hget Herr (info & raw & Hinfo & Hraw & Hsan)%title_of_inv Hreq.
  eexists. split.
  - apply wp_eq. unfold process_thread, export_document, export_request in *.
    by repeat wp_step.
  - simpl. by rewrite <- !app_assoc.
Qed.

Lemma export_exception_skips_document_witness :
  ∃ s',
    run (process_thread (R := odd_remote) sample_client (JStr "E1") "out")
        sample_state = (Ret tt, s')
    ∧ fs s' = fs sample_state
    ∧ remote s' = tt
    ∧ trace s' =
        [EvGetThread (JStr "E1");
         EvRequest (export_request sample_client (JStr "E1"));
         EvPrint (MsgErrorProcessingDocument (JStr "E1")
                    (OtherError "timeout"))].
Proof.
  exact (export_exception_skips_document (R := odd_remote) sample_client
           (JStr "E1") "out" sample_state _ "Report" tt tt
           (OtherError "timeout") eq_refl eq_refl eq_refl eq_refl).
Defined.

(** X5: when the export is refused and the markup of the metadata is
    a value that is not a string but counts as true, the file
    [<title>.html] is opened, which creates or empties it, and the
    write then raises [TypeError]: the file stays empty, the
    attachments are not fetched, and [process_thread] prints the error
    and returns. *)
Theorem fallback_not_a_string_leaves_empty_file {W : Type} {R : Remote W}
    (client : Client) (thread_id : json) (current_path : string)
    (s : state W) (thread_data html : json) (title : string) (w1 w2 : W)
    (resp : response) (q : list string) :
  get_thread thread_id (remote s) = (Ok thread_data, w1) →
  py_in "error" thread_data = Ok false →
  title_of thread_data "thread" "Unknown_Document" = Ok title →
  requests_get (export_request client thread_id) w1 = (Ok resp, w2) →
  status_code resp ≠ 200%Z →
  py_get thread_data "html" JNull = Ok html →
  truthy html = true →
  (∀ text, html ≠ JStr text) →
  resolve (fs s) (cwd s) (html_path current_path title) = Some q →
  is_dir (fs s) q = false →
  ∃ s',
    run (process_thread client thread_id current_path) s = (Ret tt, s')
    ∧ fs s' = <[q := File ""]> (fs s)
    ∧ trace s' = trace s ++
        [EvGetThread thread_id;
         EvRequest (export_request client thread_id);
         EvPrint (MsgFailedDocx title (status_code resp));
         EvOpen (html_path current_path title);
         EvPrint (MsgErrorProcessingDocument thread_id TypeError)].
Proof.
  intros Hget Herr (info & raw & Hinfo & Hraw & Hsan)%title_of_inv Hreq Hst
    Hhtml Htrue Hns Hres Hdir.
  pose proof (open_for_write_intro _ _ _ _ Hres Hdir) as Hopen.
  assert ((status_code resp =? 200)%Z = false) as Hb by by apply Z.eqb_neq.
  exists (add_event (EvPrint (MsgErrorProcessingDocument thread_id TypeError))
            (add_event (EvOpen (html_path current_path title))
               (set_fs (<[q := File ""]> (fs s))
                  (add_event (EvPrint (MsgFailedDocx title (status_code resp)))
                     (set_remote w2
                        (add_event (EvRequest (export_request client thread_id))
                           (set_remote w1
                              (add_event (EvGetThread thread_id) s)))))))).
  split.
  - apply wp_eq.
    unfold process_thread, export_document, export_request, html_path in *.
    repeat wp_step; try done.
    match goal with Hx : html = JStr ?t |- _ => by destruct (Hns t) end.
  - simpl. by rewrite <- !app_assoc.
Qed.

Lemma fallback_not_a_string_leaves_empty_file_witness :
  ∃ s',
    run (process_thread (R := odd_remote) sample_client (JStr "H1") "out")
        sample_state = (Ret tt, s')
    ∧ fs s' = <[ ["home"; "out"; "Sheet.html"] := File "" ]> (fs sample_state)
    ∧ trace s' =
        [EvGetThread (JStr "H1");
         EvRequest (export_request sample_client (JStr "H1"));
         EvPrint (MsgFailedDocx "Sheet" 503);
         EvOpen "out/Sheet.html";
         EvPrint (MsgErrorProcessingDocument (JStr "H1") TypeError)].
Proof.
  exact (fallback_not_a_string_leaves_empty_file (R := odd_remote)
           sample_client (JStr "H1") "out" sample_state _ (JList [JStr "x"])
           "Sheet" tt tt {| status_code := 503; content := "" |}
           ["home"; "out"; "Sheet.html"] eq_refl eq_refl eq_refl eq_refl
           ltac:(done) eq_refl eq_refl ltac:(done) ltac:(by vm_compute)
           ltac:(by vm_compute)).
Defined.

(** X6: a document whose title cannot be computed, because the
    [thread] entry is not an object or the title is not a string, is
    skipped before any export request: [process_thread] prints the
    error and returns, and the file tree is as it was. *)
Theorem untitled_document_skipped {W : Type} {R : Remote W}
    (client : Client) (thread_id : json) (current_path : string)
    (s : state W) (thread_data : json) (w : W) (e : exn) :
  get_thread thread_id (remote s) = (Ok thread_data, w) →
  py_in "error" thread_data = Ok false →
  title_of thread_data "thread" "Unknown_Document" = Err e →
  (e = AttributeError ∨ e = TypeError)
  ∧ run (process_thread client thread_id current_path) s
    = (Ret tt,
       add_event (EvPrint (MsgErrorProcessingDocument thread_id e))
         (set_remote w (add_event (EvGetThread thread_id) s))).
Proof.
  intros Hget Herr Htitle. split.
  - unfold title_of in Htitle.
    destruct thread_data as [| | | | |d]; simpl in Htitle;
      try (left; congruence).
    destruct (from_option id (JDict []) (dict_lookup "thread" d))
      as [| | | | |info]; simpl in Htitle; try (left; congruence).
    destruct (from_option id (JStr "Unknown_Document")
                (dict_lookup "title" info)); simpl in Htitle;
      try (right; congruence); done.
  - apply wp_eq. unfold process_thread.
    unfold title_of in Htitle.
    destruct (py_get thread_data "thread" (JDict [])) as [info|e1] eqn:Hinfo;
      simpl in Htitle.
    + destruct (py_get info "title" (JStr "Unknown_Document"))
        as [raw|e2] eqn:Hraw; simpl in Htitle.
      * by repeat wp_step.
      * injection Htitle as <-. by repeat wp_step.
    + injection Htitle as <-. by repeat wp_step.
Qed.

Lemma untitled_document_skipped_witness :
  run (process_thread (R := odd_remote) sample_client (JStr "N1") "out")
      sample_state
  = (Ret tt,
     add_event (EvPrint (MsgErrorProcessingDocument (JStr "N1") TypeError))
       (set_remote tt (add_event (EvGetThread (JStr "N1")) sample_state))).
Proof.
  exact (proj2 (untitled_document_skipped (R := odd_remote) sample_client
                  (JStr "N1") "out" sample_state _ tt TypeError
                  eq_refl eq_refl eq_refl)).
Defined.

Lemma export_document_docx_state {W : Type} {R : Remote W}
    client id cur td title (s : state W) resp w q :
  requests_get (export_request client id) (remote s) = (Ok resp, w) →
  status_code resp = 200%Z →
  resolve (fs s) (cwd s) (docx_path cur title) = Some q →
  is_dir (fs s) q = false →
  ∃ s1,
    run (export_document client id cur td title) s = (Ret tt, s1)
    ∧ fs s1 = <[q := File (content resp)]> (fs s)
    ∧ cwd s1 = cwd s
    ∧ remote s1 = w
    ∧ trace s1 = trace s ++
        [EvRequest (export_request client id);
         EvOpen (docx_path cur title);
         EvPrint (MsgExtractedDocx (docx_path cur title))].
Proof.
  intros Hget Hst Hres Hdir.
  pose proof (open_for_write_intro _ _ _ _ Hres Hdir) as Hopen.
  assert ((status_code resp =? 200)%Z = true) as Hb by by apply Z.eqb_eq.
  enough (wp (export_document client id cur td title) s
            (λ r s1, r = Ret tt
               ∧ fs s1 = <[q := File (content resp)]> (fs s)
               ∧ cwd s1 = cwd s
               ∧ remote s1 = w
               ∧ trace s1 = trace s ++
                   [EvRequest (export_request client id);
                    EvOpen (docx_path cur title);
                    EvPrint (MsgExtractedDocx (docx_path cur title))])) as H.
  { apply wp_elim in H as (r & s1 & Hrun & -> & H). by exists s1. }
  unfold export_document, export_request, docx_path in *.
  repeat wp_step.
  simpl. by rewrite insert_insert_eq, <- !app_assoc.
Qed.

Lemma process_thread_docx_only {W : Type} {R : Remote W}
    client id cur (s : state W) td w1 title resp w2 blobs q :
  get_thread id (remote s) = (Ok td, w1) →
  py_in "error" td = Ok false →
  title_of td "thread" "Unknown_Document" = Ok title →
  requests_get (export_request client id) w1 = (Ok resp, w2) →
  status_code resp = 200%Z →
  py_get td "blobs" (JList []) = Ok blobs →
  truthy blobs = false →
  resolve (fs s) (cwd s) (docx_path cur title) = Some q →
  is_dir (fs s) q = false →
  ∃ s1,
    run (process_thread client id cur) s = (Ret tt, s1)
    ∧ fs s1 = <[q := File (content resp)]> (fs s)
    ∧ cwd s1 = cwd s
    ∧ remote s1 = w2
    ∧ trace s1 = trace s ++
        [EvGetThread id;
         EvRequest (export_request client id);
         EvOpen (docx_path cur title);
         EvPrint (MsgExtractedDocx (docx_path cur title))].
Proof.
  intros Hget Herr Htitle Hreq Hst Hblobs Hnone Hres Hdir.
  destruct (export_document_docx_state client id cur td title
              (set_remote w1 (add_event (EvGetThread id) s)) resp w2 q
              Hreq Hst Hres Hdir)
    as (s1 & Hrun1 & Hfs1 & Hcwd1 & Hrem1 & Htr1).
  destruct (process_thread_phases client id cur s td w1 title s1
              Hget Herr Htitle Hrun1) as (r2 & s2 & Hatt & _ & Hrun).
  rewrite (download_attachments_none cur td title s1 blobs Hblobs Hnone)
    in Hatt.
  injection Hatt as <- <-. exists s1. repeat split; try done.
  rewrite Htr1. simpl. by rewrite <- !app_assoc.
Qed.

(** X7: two documents of one folder whose titles are the same once
    sanitized are exported to the same file: processed one after the
    other, the second replaces what the first wrote, and one file is
    left.  Stated for documents without attachments whose exports
    succeed. *)
Theorem same_title_second_export_wins {W : Type} {R : Remote W}
    (client : Client) (id1 id2 : json) (current_path : string)
    (td1 td2 blobs1 blobs2 : json) (title : string) (s : state W)
    (resp1 resp2 : response) (w1 w2 w3 w4 : W) (q : list string) :
  get_thread id1 (remote s) = (Ok td1, w1) →
  requests_get (export_request client id1) w1 = (Ok resp1, w2) →
  get_thread id2 w2 = (Ok td2, w3) →
  requests_get (export_request client id2) w3 = (Ok resp2, w4) →
  py_in "error" td1 = Ok false →
  py_in "error" td2 = Ok false →
  title_of td1 "thread" "Unknown_Document" = Ok title →
  title_of td2 "thread" "Unknown_Document" = Ok title →
  status_code resp1 = 200%Z →
  status_code resp2 = 200%Z →
  py_get td1 "blobs" (JList []) = Ok blobs1 →
  py_get td2 "blobs" (JList []) = Ok blobs2 →
  truthy blobs1 = false →
  truthy blobs2 = false →
  resolve (fs s) (cwd s) (docx_path current_path title) = Some q →
  is_dir (fs s) q = false →
  ∃ s1 s2,
    run (process_thread client id1 current_path) s = (Ret tt, s1)
    ∧ fs s1 = <[q := File (content resp1)]> (fs s)
    ∧ run (process_thread client id2 current_path) s1 = (Ret tt, s2)
    ∧ fs s2 = <[q := File (content resp2)]> (fs s).
Proof.
  intros Hget1 Hreq1 Hget2 Hreq2 Herr1 Herr2 Ht1 Ht2 Hst1 Hst2 Hb1 Hb2
    Hn1 Hn2 Hres Hdir.
  destruct (process_thread_docx_only client id1 current_path s td1 w1 title
              resp1 w2 blobs1 q)
    as (s1 & Hrun1 & Hfs1 & Hcwd1 & Hrem1 & _); try done.
  destruct (process_thread_docx_only client id2 current_path s1 td2 w3 title
              resp2 w4 blobs2 q)
    as (s2 & Hrun2 & Hfs2 & _); try done; [by rewrite Hrem1| | |].
  - rewrite Hfs1, Hcwd1.
    eapply resolve_grows; [|exact Hres].
    destruct (fs s !! q) as [[|c]|] eqn:E.
    + exfalso. unfold is_dir, node_at in Hdir.
      case_bool_decide; [done|]. by rewrite E in Hdir.
    + by eapply grows_insert_file.
    + by apply grows_insert_new.
  - rewrite Hfs1. unfold is_dir, node_at.
    case_bool_decide as Hq; [|by rewrite lookup_insert_eq].
    subst q. by unfold is_dir, node_at in Hdir.
  - exists s1, s2. repeat split; try done.
    by rewrite Hfs2, Hfs1, insert_insert_eq.
Qed.

Lemma same_title_second_export_wins_witness :
  ∃ s1 s2,
    run (process_thread (R := odd_remote) sample_client (JStr "D1") "out")
        sample_state = (Ret tt, s1)
    ∧ fs s1 = <[ ["home"; "out"; "ab.docx"] := File "ONE" ]> (fs sample_state)
    ∧ run (process_thread (R := odd_remote) sample_client (JStr "D2") "out") s1
      = (Ret tt, s2)
    ∧ fs s2 = <[ ["home"; "out"; "ab.docx"] := File "TWO" ]> (fs sample_state).
Proof.
  exact (same_title_second_export_wins (R := odd_remote) sample_client
           (JStr "D1") (JStr "D2") "out"
           (JDict [("thread", obj_title "a/b")])
           (JDict [("thread", obj_title "ab")]) (JList []) (JList [])
           "ab" sample_state
           {| status_code := 200; content := "ONE" |}
           {| status_code := 200; content := "TWO" |} tt tt tt tt
           ["home"; "out"; "ab.docx"] eq_refl eq_refl eq_refl eq_refl
           eq_refl eq_refl eq_refl eq_refl eq_refl eq_refl eq_refl eq_refl
           eq_refl eq_refl ltac:(by vm_compute) ltac:(by vm_compute)).
Defined.

(** ** Titles and the place of the files *)

Lemma resolve_parent t cwd base q0 :
  resolve t cwd base = Some q0 →
  is_dir t q0 = true →
  resolve t cwd (os_path_join base "..") = Some (removelast q0).
Proof.
  intros Hres Hdir.
  rewrite (resolve_join t cwd base ".." q0 eq_refl Hres), Hdir. done.
Qed.

(** X8: [sanitize_filename] leaves a title of two dots as it is, and
    a folder with that title is mapped onto the parent of the
    directory it is walked under: no directory is made for it, and a
    document of that folder is written next to the base directory,
    not inside it. *)
Theorem dotdot_title_leaves_base {W : Type} {R : Remote W}
    (fuel : nat) (client : Client) (folder_id thread_id : json)
    (base_path : string) (depth : nat) (s : state W)
    (payload child thread_data blobs : json) (title : string)
    (resp : response) (w0 w1 w2 : W) (q0 : list string) :
  let target := removelast q0 ++ [title +:+ ".docx"] in
  let cur := os_path_join base_path ".." in
  get_folder folder_id (remote s) = (Ok payload, w0) →
  py_in "error" payload = Ok false →
  title_of payload "folder" "Unknown_Folder" = Ok ".." →
  py_in "children" payload = Ok true →
  py_getitem payload "children" = Ok (JList [child]) →
  py_in "thread_id" child = Ok true →
  py_getitem child "thread_id" = Ok thread_id →
  get_thread thread_id w0 = (Ok thread_data, w1) →
  py_in "error" thread_data = Ok false →
  title_of thread_data "thread" "Unknown_Document" = Ok title →
  requests_get (export_request client thread_id) w1 = (Ok resp, w2) →
  status_code resp = 200%Z →
  py_get thread_data "blobs" (JList []) = Ok blobs →
  truthy blobs = false →
  resolve (fs s) (cwd s) base_path = Some q0 →
  is_dir (fs s) q0 = true →
  is_dir (fs s) (removelast q0) = true →
  is_dir (fs s) target = false →
  ∃ s',
    run (process_folder (S fuel) client folder_id base_path depth) s
    = (Ret tt, s')
    ∧ fs s' = <[target := File (content resp)]> (fs s)
    ∧ trace s' = trace s ++
        [EvGetFolder folder_id;
         EvPrint (MsgDebugFolder payload);
         EvPrint (MsgProcessingFolder depth "..");
         EvPrint (MsgFound ".." 1);
         EvPrint (MsgProcessingDocument depth 1 1);
         EvGetThread thread_id;
         EvRequest (export_request client thread_id);
         EvOpen (docx_path cur title);
         EvPrint (MsgExtractedDocx (docx_path cur title));
         EvSleep;
         EvPrint (MsgCompletedFolder depth ".." 1)].
Proof.
  intros target cur Hgetf Herrf Htf Hin Hch Hinc Hid Hgett Herrt Htt Hreq Hst
    Hblobs Hnone Hres Hdir Hpar Htarget.
  pose proof (resolve_parent _ _ _ _ Hres Hdir) as Hup.
  pose proof (title_of_no_slash _ _ _ _ Htt) as Hslash.
  assert (resolve (fs s) (cwd s) (docx_path cur title) = Some target) as Hdoc.
  { unfold docx_path, cur.
    rewrite (resolve_join _ _ _ (title +:+ ".docx") _
               (no_slash_app title ".docx" Hslash eq_refl) Hup), Hpar.
    f_equal. apply step_long. rewrite length_app_str. simpl. lia. }
  assert (exists_in (fs s) (cwd s) cur = true) as Hex.
  { unfold exists_in, cur. rewrite Hup. apply bool_decide_eq_true.
    rewrite (is_dir_node _ _ Hpar). by eexists. }
  set (s1 := add_event (EvPrint (MsgProcessingDocument depth 1 1))
               (add_event (EvPrint (MsgFound ".." 1))
                  (add_event (EvPrint (MsgProcessingFolder depth ".."))
                     (add_event (EvPrint (MsgDebugFolder payload))
                        (set_remote w0
                           (add_event (EvGetFolder folder_id) s)))))).
  destruct (process_thread_docx_only client thread_id cur s1 thread_data w1
              title resp w2 blobs target)
    as (s2 & Hrun2 & Hfs2 & Hcwd2 & Hrem2 & Htr2); try done.
  destruct (title_of_inv _ _ _ _ Htf) as (info & raw & Hinfo & Hraw & Hsan).
  destruct (py_get_object _ _ _ _ Hinfo) as [d ->].
  exists (add_event (EvPrint (MsgCompletedFolder depth ".." 1))
            (add_event EvSleep s2)).
  split; [|split; [done|]].
  - apply wp_eq. cbn [process_folder].
    repeat wp_step.
    eapply wp_of_run; [by apply create_directory_present|]. cbv beta iota.
    repeat wp_step.
    all: repeat match goal with
                | H : py_len (JList _) = _ |- _ => simpl in H; simplify_eq
                | H : py_iter (JList _) = _ |- _ => simpl in H; simplify_eq
                | H : py_get (JDict _) _ _ = Err _ |- _ => by simpl in H
                end.
    cbn [for_each]. unfold process_child, dispatch_child.
    repeat wp_step.
    eapply wp_of_run; [exact Hrun2|]. cbv beta iota.
    by repeat wp_step.
  - simpl. rewrite Htr2. simpl. by rewrite <- !app_assoc.
Qed.

Lemma dotdot_title_leaves_base_witness :
  ∃ s',
    run (process_folder (R := odd_remote) 1 sample_client (JStr "UP") "out" 0)
        sample_state = (Ret tt, s')
    ∧ fs s' = <[ ["home"; "ab.docx"] := File "ONE" ]> (fs sample_state)
    ∧ EvOpen "out/../ab.docx" ∈ trace s'.
Proof.
  destruct (dotdot_title_leaves_base (R := odd_remote) 0 sample_client
              (JStr "UP") (JStr "D1") "out" 0 sample_state
              (JDict [("folder", obj_title "..");
                      ("children", JList [JDict [("thread_id", JStr "D1")]])])
              (JDict [("thread_id", JStr "D1")])
              (JDict [("thread", obj_title "a/b")]) (JList []) "ab"
              {| status_code := 200; content := "ONE" |} tt tt tt
              ["home"; "out"] eq_refl eq_refl eq_refl eq_refl eq_refl eq_refl
              eq_refl eq_refl eq_refl eq_refl eq_refl eq_refl eq_refl eq_refl
              ltac:(by vm_compute) ltac:(by vm_compute) ltac:(by vm_compute)
              ltac:(by vm_compute))
    as (s' & Hrun & Hfs & Htr).
  exists s'. split; [done|]. split; [done|].
  rewrite Htr. apply elem_of_app. right.
  do 7 apply list_elem_of_further. apply list_elem_of_here.
Defined.

(** ** The link *)

(** Every character of [a] is a character of [b]. *)
Definition within (a b : string) : Prop :=
  ∀ c, Str.mem c a = true → Str.mem c b = true.

Lemma within_refl a : within a a.
Proof. by intros c. Qed.

Lemma within_trans a b c : within a b → within b c → within a c.
Proof. intros H1 H2 x Hx. by apply H2, H1. Qed.

Lemma within_absent a b c : within a b → Str.mem c b = false → Str.mem c a = false.
Proof.
  intros H Hb. destruct (Str.mem c a) eqn:E; [|done].
  apply H in E. congruence.
Qed.

Lemma within_cons x a b : within a b → within (String x a) (String x b).
Proof.
  intros H c. simpl. intros [Hc|Hc]%orb_true_iff; apply orb_true_iff;
    [by left|right; by apply H].
Qed.

Lemma within_tail x a b : within a b → within a (String x b).
Proof. intros H c Hc. simpl. apply orb_true_iff. right. by apply H. Qed.

Lemma cut_within sep s a b :
  Str.cut sep s = (a, b) → within a s ∧ Str.mem sep a = false.
Proof.
  revert a b. induction s as [|x s IH]; intros a b; simpl.
  - by intros [= <- <-].
  - destruct (Ascii.eqb x sep) eqn:Hx.
    + by intros [= <- <-].
    + destruct (Str.cut sep s) as [a' b'] eqn:Hc. intros [= <- <-].
      destruct (IH a' b' eq_refl) as [Hw Hm]. split.
      * by apply within_cons.
      * simpl. by rewrite Hx, Hm.
Qed.

Lemma cut_off_within sep s a b :
  cut_off sep s = (a, b) → within a s ∧ Str.mem sep a = false.
Proof.
  unfold cut_off. destruct (Str.cut sep s) as [a' b'] eqn:Hc.
  intros [= <- <-]. by eapply cut_within.
Qed.

Lemma lstrip_within f s : within (Str.lstrip f s) s.
Proof.
  induction s as [|x s IH]; simpl; [done|].
  destruct (f x); [by apply within_tail|apply within_refl].
Qed.

Lemma rstrip_within f s : within (Str.rstrip f s) s.
Proof.
  induction s as [|x s IH]; simpl; [done|].
  destruct (f x && Str.is_empty (Str.rstrip f s)); [done|].
  by apply within_cons.
Qed.

Lemma strip_within f s : within (Str.strip f s) s.
Proof.
  unfold Str.strip. eapply within_trans; [apply rstrip_within|].
  apply lstrip_within.
Qed.

Lemma rcut_app sep s a b : rcut sep s = (a, b) → s = a +:+ b.
Proof.
  revert a b. induction s as [|x s IH]; intros a b; simpl.
  - by intros [= <- <-].
  - destruct (rcut sep s) as [a' b'] eqn:Hr.
    specialize (IH a' b' eq_refl). subst s.
    destruct (Str.is_empty a') eqn:He.
    + destruct a'; [|done]. destruct (Ascii.eqb x sep); by intros [= <- <-].
    + by intros [= <- <-].
Qed.

Lemma within_app_l a b b' : within b b' → within (a +:+ b) (a +:+ b').
Proof.
  intros H c. rewrite !mem_app. intros [Hc|Hc]%orb_true_iff;
    apply orb_true_iff; [by left|right; by apply H].
Qed.

Lemma split_params_within url : within (split_params url).1 url.
Proof.
  unfold split_params. destruct (rcut "/" url) as [dir seg] eqn:Hr.
  apply rcut_app in Hr. subst url.
  destruct (Str.cut ";" seg) as [a [b|]] eqn:Hc; simpl;
    [|apply within_refl].
  apply within_app_l. by eapply cut_within.
Qed.

Lemma split_within sep s x :
  x ∈ Str.split sep s → within x s ∧ Str.mem sep x = false.
Proof.
  revert x. induction s as [|a s IH]; intros x; simpl.
  - intros ->%list_elem_of_singleton. done.
  - destruct (Ascii.eqb a sep) eqn:Ha.
    + intros [->|Hx]%elem_of_cons; [done|].
      destruct (IH x Hx) as [Hw Hm]. split; [by apply within_tail|done].
    + pose proof (split_nonempty sep s) as Hne.
      destruct (Str.split sep s) as [|p ps]; [done|].
      intros [->|Hx]%elem_of_cons.
      * destruct (IH p) as [Hw Hm]; [by left|]. split.
        -- by apply within_cons.
        -- simpl. by rewrite Ha, Hm.
      * destruct (IH x) as [Hw Hm]; [by right|].
        split; [by apply within_tail|done].
Qed.

Lemma last_item_in l x : last_item l = Ok x → x ∈ l.
Proof.
  unfold last_item. induction l as [|a [|b l] IH]; [done| |].
  - simpl. intros [= ->]. by left.
  - intros H. right. by apply IH.
Qed.

Section LinkParts.
Context {urllib : UrlLib}.

(** The path that [urlparse] gives holds neither a question mark nor
    a hash sign: the query and the fragment have been cut off. *)
Lemma urlparse_path link parsed :
  urlparse link = Ok parsed →
  Str.mem "#" (path parsed) = false ∧ Str.mem "?" (path parsed) = false.
Proof.
  unfold urlparse.
  destruct (split_scheme _) as [sch u0].
  destruct (split_netloc u0) as [net u1].
  destruct (cut_off "#" u1) as [u2 frag] eqn:H2.
  destruct (cut_off "?" u2) as [u3 qry] eqn:H3.
  destruct (cut_off_within _ _ _ _ H2) as [W2 M2].
  destruct (cut_off_within _ _ _ _ H3) as [W3 M3].
  pose proof (within_absent _ _ _ W3 M2) as M3'.
  generalize (existsb (String.eqb sch) uses_params && Str.mem ";" u3).
  intros b. destruct (check_netloc net); simpl; [|done].
  destruct b.
  - pose proof (split_params_within u3) as W4.
    destruct (split_params u3) as [u4 prm]. simpl in W4.
    intros [= <-]. simpl. split; by eapply within_absent.
  - by intros [= <-].
Qed.

End LinkParts.

(** X9: the id that [extract_id_from_link] returns is the last
    segment of the path of the link once its outer slashes are
    stripped; it holds no slash, no question mark and no hash sign, so
    the removal of a fragment from it changes nothing: [urlparse] has
    already taken the query and the fragment away. *)
Theorem extract_id_is_last_segment {urllib : UrlLib} (link id : string) :
  extract_id_from_link link = Ok (Some id) →
  Str.mem "/" id = false
  ∧ Str.mem "#" id = false
  ∧ Str.mem "?" id = false
  ∧ ∃ parsed,
      urlparse link = Ok parsed
      ∧ last_item (Str.split "/" (Str.strip (is_char "/") (path parsed)))
        = Ok id
      ∧ Str.split "#" id = [id].
Proof.
  unfold extract_id_from_link.
  destruct (urlparse link) as [parsed|e] eqn:Hp; simpl; [|done].
  destruct (urlparse_path _ _ Hp) as [Hhash Hq].
  rewrite bool_decide_eq_false_2 by apply split_nonempty.
  destruct (last_item _) as [x|e] eqn:Hlast; simpl; [|done].
  destruct (split_within _ _ _ (last_item_in _ _ Hlast)) as [Wx Mx].
  pose proof (within_trans _ _ _ Wx (strip_within _ _)) as Wp.
  pose proof (within_absent _ _ _ Wp Hhash) as Hxh.
  pose proof (within_absent _ _ _ Wp Hq) as Hxq.
  rewrite (split_no_sep "#" x Hxh). simpl. intros [= <-].
  repeat split; try done. exists parsed. repeat split; try done.
  by apply split_no_sep.
Qed.

Lemma extract_id_is_last_segment_witness :
  Str.mem "/" "ABC" = false
  ∧ Str.mem "#" "ABC" = false
  ∧ Str.mem "?" "ABC" = false
  ∧ ∃ parsed,
      urlparse (urllib := lenient_urllib) "https://h/f/ABC/?x=1/2#s/t"
      = Ok parsed
      ∧ last_item (Str.split "/" (Str.strip (is_char "/") (path parsed)))
        = Ok "ABC"
      ∧ Str.split "#" "ABC" = ["ABC"].
Proof.
  exact (extract_id_is_last_segment (urllib := lenient_urllib)
           "https://h/f/ABC/?x=1/2#s/t" "ABC" eq_refl).
Defined.

(** *** Links of the usual shape *)

Lemma cut_app sep a b :
  Str.mem sep a = false →
  Str.cut sep (a +:+ b) = ((a +:+ (Str.cut sep b).1), (Str.cut sep b).2).
Proof.
  induction a as [|x a IH]; simpl.
  - intros _. change ("" +:+ b) with b. by destruct (Str.cut sep b).
  - intros [Hx Ha]%orb_false_iff. rewrite Hx, (IH Ha). reflexivity.
Qed.

Lemma cut_head sep b : Str.cut sep (String sep b) = ("", Some b).
Proof. simpl. by rewrite Ascii.eqb_refl. Qed.

Lemma cut_absent sep a : Str.mem sep a = false → Str.cut sep a = (a, None).
Proof.
  induction a as [|x a IH]; simpl; [done|].
  intros [Hx Ha]%orb_false_iff. by rewrite Hx, (IH Ha).
Qed.

Lemma app_empty_r (a : string) : a +:+ "" = a.
Proof. induction a as [|x a IH]; [done|]. rewrite app_cons. by f_equal. Qed.

Lemma span_app f a x b :
  Str.forallb (λ c, negb (f c)) a = true →
  f x = true →
  Str.span f (a +:+ String x b) = (a, String x b).
Proof.
  intros Ha Hx. induction a as [|y a IH]; simpl.
  - by rewrite Hx.
  - simpl in Ha. apply andb_true_iff in Ha as [Hy Ha].
    apply negb_true_iff in Hy. rewrite Hy, (IH Ha). done.
Qed.

Lemma forallb_app f a b :
  Str.forallb f (a +:+ b) = Str.forallb f a && Str.forallb f b.
Proof.
  induction a as [|x a IH]; [done|].
  rewrite app_cons. simpl. rewrite IH. by rewrite andb_assoc.
Qed.

Lemma forallb_impl (f g : ascii → bool) s :
  (∀ c, f c = true → g c = true) →
  Str.forallb f s = true → Str.forallb g s = true.
Proof.
  intros H. induction s as [|x s IH]; [done|]. simpl.
  intros [Hx Hs]%andb_true_iff. by rewrite (H x Hx), (IH Hs).
Qed.

Lemma forallb_not_mem f c s :
  Str.forallb f s = true → f c = false → Str.mem c s = false.
Proof.
  intros Hs Hc. induction s as [|x s IH]; [done|]. simpl in *.
  apply andb_true_iff in Hs as [Hx Hs]. rewrite (IH Hs), orb_false_r.
  destruct (Ascii.eqb x c) eqn:E; [|done].
  apply Ascii.eqb_eq in E. congruence.
Qed.

Lemma lstrip_no_mem c s : Str.mem c s = false → Str.lstrip (is_char c) s = s.
Proof.
  destruct s as [|x s]; simpl; [done|].
  intros [Hx _]%orb_false_iff. unfold is_char.
  by rewrite Ascii.eqb_sym, Hx.
Qed.

Lemma rstrip_no_mem c s : Str.mem c s = false → Str.rstrip (is_char c) s = s.
Proof.
  induction s as [|x s IH]; simpl; [done|].
  intros [Hx Hs]%orb_false_iff. unfold is_char in *.
  by rewrite (IH Hs), Ascii.eqb_sym, Hx.
Qed.

(** The characters a host, an id and the rest of a link may hold for
    the link to be read back as written: no tab, line feed or
    carriage return, which [urlparse] deletes; in the host no bracket
    and nothing outside ASCII; in the id no semicolon. *)
Definition link_char (c : ascii) : bool := negb (unsafe_url_byte c).
Definition host_char (c : ascii) : bool :=
  is_ascii c && negb (Str.mem c "/?#[]") && link_char c.
Definition id_char (c : ascii) : bool :=
  negb (Str.mem c "/?#;") && link_char c.

(** What follows the id: nothing, a query or a fragment. *)
Definition link_rest (rest : string) : bool :=
  match rest with
  | EmptyString => true
  | String c _ => Str.mem c "?#"
  end && Str.forallb link_char rest.

Lemma path_cut (a rest : string) :
  Str.mem "#" a = false → Str.mem "?" a = false →
  link_rest rest = true →
  ∃ frag qry u2,
    cut_off "#" (a +:+ rest) = (u2, frag) ∧ cut_off "?" u2 = (a, qry).
Proof.
  intros Hh Hq Hrest. unfold cut_off.
  rewrite (cut_app "#" a rest Hh).
  destruct rest as [|c r].
  - eexists _, _, _. split; [reflexivity|]. simpl.
    by rewrite app_empty_r, (cut_absent "?" a Hq).
  - apply andb_true_iff in Hrest as [Hc _]. cbn [Str.mem] in Hc.
    rewrite orb_false_r in Hc. apply orb_true_iff in Hc as [Hc|Hc];
      apply Ascii.eqb_eq in Hc; subst c.
    + assert (Str.cut "#" (String "?" r)
              = (String "?" (Str.cut "#" r).1, (Str.cut "#" r).2)) as ->
        by (simpl; by destruct (Str.cut "#" r)).
      eexists _, _, _. split; [reflexivity|]. simpl fst.
      rewrite (cut_app "?" a _ Hq), cut_head. simpl.
      by rewrite app_empty_r.
    + eexists _, _, _. split; [reflexivity|].
      rewrite cut_head. simpl.
      by rewrite app_empty_r, (cut_absent "?" a Hq).
Qed.

(** X10: a link [https://<host>/<id>] followed by nothing, by a query
    or by a fragment is read back as written: [get_domain_from_link]
    gives the host and [extract_id_from_link] the id, for every host
    and id made of the characters that [urlparse] leaves alone. *)
Theorem link_round_trip {urllib : UrlLib} (host id rest : string) :
  Str.forallb host_char host = true →
  Str.forallb id_char id = true →
  link_rest rest = true →
  extract_id_from_link ("https://" +:+ host +:+ "/" +:+ id +:+ rest)
  = Ok (Some id)
  ∧ get_domain_from_link ("https://" +:+ host +:+ "/" +:+ id +:+ rest)
    = Ok host.
Proof.
  intros Hhost Hid Hrest.
  assert (∀ c, Str.mem c "/?#;" = true → Str.mem c id = false) as Hidc.
  { intros c Hc. apply (forallb_not_mem _ _ _ Hid).
    unfold id_char. by rewrite Hc. }
  assert (∀ c, Str.mem c "/?#[]" = true → Str.mem c host = false) as Hhostc.
  { intros c Hc. apply (forallb_not_mem _ _ _ Hhost).
    unfold host_char. by rewrite Hc, andb_false_r. }
  assert (Str.forallb link_char
            ("https://" +:+ host +:+ "/" +:+ id +:+ rest) = true) as Hsafe.
  { rewrite !forallb_app. repeat (apply andb_true_iff; split); try done.
    - eapply forallb_impl; [|exact Hhost].
      intros c. unfold host_char. by intros [_ ?]%andb_true_iff.
    - eapply forallb_impl; [|exact Hid].
      intros c. unfold id_char. by intros [_ ?]%andb_true_iff.
    - by apply andb_true_iff in Hrest as [_ ?]. }
  assert (urlparse ("https://" +:+ host +:+ "/" +:+ id +:+ rest)
          = Ok {| scheme := "https"; netloc := host;
                  path := String "/" id;
                  params := "";
                  query := (cut_off "?"
                              (cut_off "#" (String "/" id +:+ rest)).1).2;
                  fragment := (cut_off "#" (String "/" id +:+ rest)).2 |})
    as Hparse.
  { unfold urlparse.
    change (Str.lstrip c0_control_or_space
              ("https://" +:+ host +:+ "/" +:+ id +:+ rest))
      with ("https://" +:+ host +:+ "/" +:+ id +:+ rest).
    rewrite (filter_all (λ c, negb (unsafe_url_byte c)) _ Hsafe).
    change (split_scheme ("https://" +:+ host +:+ "/" +:+ id +:+ rest))
      with ("https", "//" +:+ host +:+ "/" +:+ id +:+ rest).
    cbv beta iota.
    change (split_netloc ("//" +:+ host +:+ "/" +:+ id +:+ rest))
      with (Str.span (λ c, Str.mem c "/?#")
              (host +:+ String "/" (id +:+ rest))).
    rewrite span_app; [|eapply forallb_impl; [|exact Hhost]|done].
    2:{ intros c. unfold host_char.
        intros [[_ Hc]%andb_true_iff _]%andb_true_iff.
        apply negb_true_iff in Hc. cbn [Str.mem] in Hc |- *.
        apply orb_false_iff in Hc as [H1 Hc].
        apply orb_false_iff in Hc as [H2 Hc].
        apply orb_false_iff in Hc as [H3 Hc].
        by rewrite H1, H2, H3. }
    cbv beta iota.
    change (String "/" (id +:+ rest)) with (String "/" id +:+ rest).
    destruct (path_cut (String "/" id) rest) as (frag & qry & u2 & H2 & H3);
      [simpl; by apply Hidc|simpl; by apply Hidc|done|].
    rewrite H2. cbv beta iota. simpl fst. simpl snd. rewrite H3.
    cbv beta iota. simpl snd.
    assert (check_netloc host = Ok tt) as ->.
    { unfold check_netloc. rewrite !Hhostc by done. simpl.
      assert (Str.forallb is_ascii host = true) as ->; [|done].
      eapply forallb_impl; [|exact Hhost].
      intros c. unfold host_char.
      by intros [[? _]%andb_true_iff _]%andb_true_iff. }
    assert (Str.mem ";" (String "/" id) = false) as Hsemi
      by (simpl; by apply Hidc).
    rewrite Hsemi, andb_false_r. reflexivity. }
  unfold extract_id_from_link, get_domain_from_link. rewrite Hparse.
  split; [|done]. simpl.
  assert (Str.strip (is_char "/") (String "/" id) = id) as ->.
  { unfold Str.strip. simpl.
    rewrite lstrip_no_mem, rstrip_no_mem; by try apply Hidc. }
  rewrite (split_no_sep "/" id) by by apply Hidc.
  rewrite bool_decide_eq_false_2 by done. simpl.
  rewrite (split_no_sep "#" id) by by apply Hidc. done.
Qed.

Lemma link_round_trip_witness :
  extract_id_from_link (urllib := lenient_urllib)
    "https://quip.example.com/AbC123xyz?ref=mail#top" = Ok (Some "AbC123xyz")
  ∧ get_domain_from_link (urllib := lenient_urllib)
      "https://quip.example.com/AbC123xyz?ref=mail#top"
    = Ok "quip.example.com".
Proof.
  exact (link_round_trip (urllib := lenient_urllib) "quip.example.com"
           "AbC123xyz" "?ref=mail#top" eq_refl eq_refl eq_refl).
Defined.

(** ** The footprint of a walk *)

(** The paths made from [base] by joining relative names to it. *)
Inductive under (base : string) : string → Prop :=
| under_here : under base base
| under_join p name :
    under base p → Str.starts_with "/" name = false →
    under base (os_path_join p name).

(** The lines that the walk of a folder may print: those of
    [process_folder], [process_thread] and [download_blob], none of
    those of [main]. *)
Definition walk_message (m : message) : Prop :=
  match m with
  | MsgClientInitFailed _ | MsgTokenTips | MsgFailedToExtractId
  | MsgLinkWas _ | MsgCheckLink | MsgStarting _ | MsgSavingTo _
  | MsgCompleted | MsgExtractionFailed _ => False
  | _ => True
  end.

(** The events of a walk under [base]: no client is built, and the
    paths created or opened are under [base]. *)
Definition walk_event (base : string) (e : event) : Prop :=
  match e with
  | EvNewClient _ _ => False
  | EvMakedirs p | EvOpen p => under base p
  | EvPrint m => walk_message m
  | _ => True
  end.

(** A path under [base] starts, as a text, with [base]. *)
Lemma under_prefix base p : under base p → ∃ rest, p = base +:+ rest.
Proof.
  induction 1 as [|p name _ [rest ->] Hn].
  - exists "". by rewrite app_empty_r.
  - unfold os_path_join. rewrite Hn.
    destruct (Str.is_empty (base +:+ rest) || Str.ends_with "/" (base +:+ rest)).
    + exists (rest +:+ name). by rewrite app_assoc_str.
    + exists (rest +:+ "/" +:+ name). by rewrite !app_assoc_str.
Qed.

Lemma under_trans base mid p : under base mid → under mid p → under base p.
Proof.
  intros Hm. induction 1 as [|q name _ IH Hn]; [done|]. by constructor.
Qed.

Lemma walk_event_mono base mid e :
  under base mid → walk_event mid e → walk_event base e.
Proof. intros Hm. destruct e; simpl; try done; by apply under_trans. Qed.

Lemma under_title base p title ext :
  under base p → Str.mem "/" title = false → Str.mem "/" ext = false →
  under base (os_path_join p (title +:+ ext)).
Proof.
  intros Hp Ht He. constructor; [done|].
  apply starts_with_mem. by rewrite mem_app, Ht, He.
Qed.

Lemma under_name base p raw name :
  under base p → sanitize_filename raw = Ok name →
  under base (os_path_join p name).
Proof.
  intros Hp Hn. constructor; [done|].
  by apply starts_with_mem, (sanitize_filename_no_slash raw).
Qed.

Section Footprint.
Context {W : Type} {R : Remote W}.
Implicit Types s : state W.

Lemma create_directory_under_wp base p s0 s :
  under base p → reach (walk_event base) s0 s →
  wp (create_directory_if_not_exists p) s
     (λ r s', r ≠ OutOfFuel ∧ reach (walk_event base) s0 s').
Proof. intros Hp H. by apply create_directory_wp. Qed.

Lemma download_blob_under base url p s0 s :
  under base p → reach (walk_event base) s0 s →
  wp (download_blob url p) s
     (λ r s', (∃ b, r = Ret b) ∧ reach (walk_event base) s0 s').
Proof.
  intros Hp H. unfold download_blob, raise_for_status.
  repeat wp_reach H; eauto.
Qed.

Lemma download_attachment_under base att blob s0 s :
  under base att → reach (walk_event base) s0 s →
  wp (download_attachment att blob) s
     (λ r s', r ≠ OutOfFuel ∧ reach (walk_event base) s0 s').
Proof.
  intros Hatt H. unfold download_attachment.
  repeat wp_reach H; try done.
  eapply wp_mono.
  { apply (download_blob_under base); [|exact H]. by eapply under_name. }
  intros r s3 [[b ->] H3].
  repeat wp_reach H3; try done.
Qed.

Lemma download_attachments_under base cur td title s0 s :
  under base cur → Str.mem "/" title = false →
  reach (walk_event base) s0 s →
  wp (download_attachments cur td title) s
     (λ r s', r ≠ OutOfFuel ∧ reach (walk_event base) s0 s').
Proof.
  intros Hcur Htitle H. unfold download_attachments.
  assert (under base (os_path_join cur (title +:+ "_attachments"))) as Hatt
    by by apply under_title.
  repeat wp_reach H; try done.
  eapply wp_mono; [by apply create_directory_under_wp|].
  intros [[]|e|] s1 [Hr H1]; try done.
  repeat wp_reach H1; try done.
  eapply (wp_for_each _ _ _ _ (reach (walk_event base) s0)); [done| |done].
  intros j blob s2 _ H2.
  eapply wp_mono; [by apply download_attachment_under|].
  by intros [[]|e|] s3 [Hr3 H3].
Qed.

Lemma export_document_under base client id cur td title s0 s :
  under base cur → Str.mem "/" title = false →
  reach (walk_event base) s0 s →
  wp (export_document client id cur td title) s
     (λ r s', r ≠ OutOfFuel ∧ reach (walk_event base) s0 s').
Proof.
  intros Hcur Htitle H. unfold export_document.
  repeat (wp_reach H; try done; try (by apply under_title)).
Qed.

Lemma process_thread_under base client id cur s0 s :
  under base cur → reach (walk_event base) s0 s →
  wp (process_thread client id cur) s
     (λ r s', r = Ret tt ∧ reach (walk_event base) s0 s').
Proof.
  intros Hcur H. unfold process_thread.
  repeat (wp_reach H; try done).
  pose proof (sanitize_filename_no_slash _ _ Er2) as Htitle.
  eapply wp_mono; [by apply (export_document_under base)|].
  intros [[]|e|] s1 [Hr H1]; try done.
  - eapply wp_mono; [by apply (download_attachments_under base)|].
    intros [[]|e|] s2 [Hr2 H2]; try done.
    repeat (wp_reach H2; try done).
  - repeat (wp_reach H1; try done).
Qed.

(** A callee in the place of the recursive call that stays under the
    path it is given. *)
Definition confined (recurse : json → string → nat → M W unit) : Prop :=
  ∀ base id p d s0 s, under base p → reach (walk_event base) s0 s →
    wp (recurse id p d) s
       (λ r s', (r = Ret tt ∨ r = OutOfFuel)
                ∧ reach (walk_event base) s0 s').

Lemma process_child_under base recurse client cur depth total i child s0 s :
  confined recurse → under base cur → reach (walk_event base) s0 s →
  wp (process_child recurse client cur depth total i child) s
     (λ r s', reach (walk_event base) s0 s').
Proof.
  intros Hrec Hcur H. unfold process_child. apply wp_bind.
  eapply (wp_mono _ _ (λ r s', reach (walk_event base) s0 s')).
  - unfold dispatch_child. repeat (wp_reach H; try done).
    + eapply wp_mono; [by apply (process_thread_under base)|].
      by intros r s1 [-> H1].
    + eapply wp_mono; [by apply Hrec|].
      by intros r s1 [_ H1].
  - intros [[]|e|] s1 H1; try done.
    by repeat (wp_reach H1; try done).
Qed.

Lemma process_folder_confined fuel client :
  confined (process_folder fuel client).
Proof.
  induction fuel as [|fuel IH]; intros base id p depth s0 s Hp H;
    cbn [process_folder].
  { split; [by right|done]. }
  repeat (wp_reach H; try (by auto)).
  match goal with
  | Hs : sanitize_filename _ = Ok ?t |- _ =>
      assert (under base (os_path_join p t)) as Hcur by by eapply under_name
  end.
  eapply wp_mono; [by apply create_directory_under_wp|].
  intros [[]|e|] s1 [Hr H1]; try done.
  - repeat (wp_reach H1; try (by auto)).
    all: eapply (wp_for_each _ _ _ _ (reach (walk_event base) s0)); [done| |].
    all: try (intros j child s2 _ H2; eapply wp_mono;
              [apply (process_child_under base); [exact IH|exact Hcur|exact H2]|];
              intros [[]|e|] s3 H3; cbv beta iota;
              repeat (wp_reach H3; try (by auto)); by auto).
    all: intros s2 H2; repeat (wp_reach H2; try (by auto)).
  - repeat (wp_reach H1; try (by auto)).
Qed.

End Footprint.

(** X11: every path that the walk of a folder hands to [os.makedirs]
    or opens for writing is [base_path] with relative names joined to
    it, so it starts with [base_path] as a text; the walk builds no
    client and prints none of the lines of [main]. *)
Theorem walk_stays_under_base {W : Type} {R : Remote W}
    (fuel : nat) (client : Client) (folder_id : json) (base_path : string)
    (depth : nat) (s : state W) :
  ∃ r s' evs,
    run (process_folder fuel client folder_id base_path depth) s = (r, s')
    ∧ trace s' = trace s ++ evs
    ∧ (∀ p, EvMakedirs p ∈ evs ∨ EvOpen p ∈ evs →
            under base_path p ∧ ∃ rest, p = base_path +:+ rest)
    ∧ (∀ token api, EvNewClient token api ∉ evs)
    ∧ (∀ m, EvPrint m ∈ evs → walk_message m).
Proof.
  pose proof (process_folder_confined fuel client base_path folder_id
                base_path depth s s (under_here _) (reach_refl _ _)) as H.
  apply wp_elim in H as (r & s' & Hrun & _ & Hreach).
  apply reach_trace in Hreach as (evs & Htr & Hevs).
  exists r, s', evs. split; [done|]. split; [done|].
  rewrite Forall_forall in Hevs. repeat split.
  - destruct H as [H|H]; by apply Hevs in H.
  - destruct H as [H|H]; apply Hevs in H; by apply under_prefix.
  - intros token api H. by apply Hevs in H.
  - intros m H. by apply Hevs in H.
Qed.

(** X12: [process_folder] never raises: it returns, or the recursion
    budget of the model runs out.  It leaves the working directory as
    it is, and every entry of the file tree stays, a directory as a
    directory and a file as a file.  When the request for the folder
    raises, one line is printed and nothing else is done. *)
Theorem process_folder_never_raises {W : Type} {R : Remote W}
    (fuel : nat) (client : Client) (folder_id : json) (base_path : string)
    (depth : nat) (s : state W) :
  (∃ r s',
     run (process_folder fuel client folder_id base_path depth) s = (r, s')
     ∧ (r = Ret tt ∨ r = OutOfFuel)
     ∧ cwd s' = cwd s
     ∧ grows (fs s) (fs s'))
  ∧ (∀ e w,
       get_folder folder_id (remote s) = (Err e, w) →
       run (process_folder (S fuel) client folder_id base_path depth) s
       = (Ret tt,
          add_event (EvPrint (MsgErrorProcessingFolder folder_id e))
            (set_remote w (add_event (EvGetFolder folder_id) s)))).
Proof.
  split.
  - pose proof (process_folder_wp fuel client folder_id base_path depth s s
                  (reach_refl _ _)) as H.
    apply wp_elim in H as (r & s' & Hrun & Hr & Hreach).
    exists r, s'. repeat split; try done.
    + by eapply reach_cwd.
    + by eapply reach_grows.
  - intros e w Hget. apply wp_eq. cbn [process_folder].
    by repeat wp_step.
Qed.

Lemma process_folder_never_raises_witness :
  run (process_folder (R := odd_remote) 1 sample_client (JStr "DOWN") "out" 0)
      sample_state
  = (Ret tt,
     add_event (EvPrint (MsgErrorProcessingFolder (JStr "DOWN")
                           (OtherError "timeout")))
       (set_remote tt (add_event (EvGetFolder (JStr "DOWN")) sample_state))).
Proof.
  exact (proj2 (process_folder_never_raises (R := odd_remote) 0 sample_client
                  (JStr "DOWN") "out" 0 sample_state)
           (OtherError "timeout") tt eq_refl).
Defined.




(** ** The start of [main] *)

Lemma urlparse_error {urllib : UrlLib} link e :
  urlparse link = Err e → e = ValueError.
Proof.
  unfold urlparse.
  destruct (split_scheme _) as [sch u0].
  destruct (split_netloc u0) as [net u1].
  destruct (cut_off "#" u1) as [u2 frag].
  destruct (cut_off "?" u2) as [u3 qry].
  generalize (existsb (String.eqb sch) uses_params && Str.mem ";" u3).
  intros b. unfold check_netloc.
  destruct (xorb _ _); simpl; [congruence|].
  destruct (_ || _); simpl.
  - destruct (netloc_valid net); simpl; [|congruence].
    destruct b; [by destruct (split_params u3)|done].
  - destruct b; [by destruct (split_params u3)|done].
Qed.

(** X14: [main] does not guard the parsing of the link.  A link that
    [urlparse] rejects, as one with an unbalanced bracket in its host,
    ends [main] with an uncaught [ValueError]: at once when the API
    address has to be derived from the link, and after the client has
    been built when the address was given.  Nothing is printed and the
    file tree is not touched. *)
Theorem main_malformed_link {W : Type} {R : Remote W} {urllib : UrlLib}
    (fuel : nat) (args : Args) (s : state W) (e : exn) :
  urlparse (arg_folder_link args) = Err e →
  e = ValueError
  ∧ (arg_api_url args = None ∨ arg_api_url args = Some "" →
     run (main fuel args) s = (Raise ValueError, s))
  ∧ (∀ u w, arg_api_url args = Some u → u ≠ "" →
       QuipClient_new (arg_access_token args) u (remote s) = (Ok tt, w) →
       run (main fuel args) s
       = (Raise ValueError,
          set_remote w (add_event (EvNewClient (arg_access_token args) u) s))).
Proof.
  intros Hparse. pose proof (urlparse_error _ _ Hparse) as ->.
  assert (get_domain_from_link (arg_folder_link args) = Err ValueError) as Hd
    by (unfold get_domain_from_link; by rewrite Hparse).
  assert (extract_id_from_link (arg_folder_link args) = Err ValueError) as Hx
    by (unfold extract_id_from_link; by rewrite Hparse).
  split; [done|]. split.
  - intros [Hu|Hu]; apply wp_eq; unfold main; rewrite Hu; by repeat wp_step.
  - intros u w Hu Hne Hnew. apply wp_eq. unfold main. rewrite Hu.
    assert (Str.is_empty u = false) as Hemp by by destruct u.
    rewrite Hemp. by repeat wp_step.
Qed.

Definition broken_link_args : Args := {|
  arg_access_token := "tok";
  arg_folder_link := "https://[quip.example.com/ROOT";
  arg_output := "out";
  arg_api_url := None
|}.

Lemma main_malformed_link_witness :
  run (main (urllib := lenient_urllib) (R := sample_remote) 3
         broken_link_args) sample_state
  = (Raise ValueError, sample_state).
Proof.
  exact (proj1 (proj2 (main_malformed_link (urllib := lenient_urllib)
                         (R := sample_remote) 3 broken_link_args sample_state
                         ValueError eq_refl))
           (or_introl eq_refl)).
Defined.

(** The address the client is built with, lines 205 to 210: the one
    given if it is not empty, else the one derived from the host of
    the link, else the default. *)
Definition chosen_api_url {urllib : UrlLib} (args : Args) : result string :=
  match arg_api_url args with
  | Some (String c u) => Ok (String c u)
  | _ =>
      domain ← get_domain_from_link (arg_folder_link args);
      Ok (if negb (Str.is_empty domain)
          then "https://platform." +:+ domain
          else default_api_url)
  end.

(** X15: when the client cannot be built [main] prints the failure
    and the advice on tokens and ends with status 1: the link is not
    looked at for an id, no folder is requested and the file tree is
    not touched. *)
Theorem main_client_failure {W : Type} {R : Remote W} {urllib : UrlLib}
    (fuel : nat) (args : Args) (s : state W) (api : string) (e : exn)
    (w : W) :
  chosen_api_url args = Ok api →
  QuipClient_new (arg_access_token args) api (remote s) = (Err e, w) →
  run (main fuel args) s
  = (Ret 1%Z,
     add_event (EvPrint MsgTokenTips)
       (add_event (EvPrint (MsgClientInitFailed e))
          (set_remote w
             (add_event (EvNewClient (arg_access_token args) api) s)))).
Proof.
  unfold chosen_api_url. intros Hapi Hnew. apply wp_eq. unfold main.
  destruct (arg_api_url args) as [[|c u]|].
  - destruct (get_domain_from_link (arg_folder_link args)) as [d|] eqn:Hd;
      [|done].
    simpl in Hapi. injection Hapi as <-. by repeat wp_step.
  - injection Hapi as <-. by repeat wp_step.
  - destruct (get_domain_from_link (arg_folder_link args)) as [d|] eqn:Hd;
      [|done].
    simpl in Hapi. injection Hapi as <-. by repeat wp_step.
Qed.

Lemma main_client_failure_witness :
  run (main (urllib := lenient_urllib) (R := odd_remote) 3 sample_args)
      sample_state
  = (Ret 1%Z,
     add_event (EvPrint MsgTokenTips)
       (add_event (EvPrint (MsgClientInitFailed (OtherError "no client")))
          (set_remote tt
             (add_event (EvNewClient "tok" "https://platform.quip.example.com")
                sample_state)))).
Proof.
  exact (main_client_failure (urllib := lenient_urllib) (R := odd_remote) 3
           sample_args sample_state "https://platform.quip.example.com"
           (OtherError "no client") tt eq_refl eq_refl).
Defined.

(** X16: for a link [https://<host>/<id>] with a host and an id that
    are not empty, and no API address given, [main] builds the client
    for [https://platform.<host>] and, the client built, goes on as
    the walk of the folder [<id>] under the output directory: what
    remains of [main] is the creation of that directory, the walk and
    the line of success. *)
Theorem main_starts_walk {W : Type} {R : Remote W} {urllib : UrlLib}
    (fuel : nat) (args : Args) (s : state W) (host id rest : string)
    (w : W) :
  let api := "https://platform." +:+ host in
  let client := {| base_url := api; access_token := arg_access_token args |} in
  arg_folder_link args = "https://" +:+ host +:+ "/" +:+ id +:+ rest →
  arg_api_url args = None →
  Str.forallb host_char host = true →
  Str.forallb id_char id = true →
  link_rest rest = true →
  host ≠ "" → id ≠ "" →
  QuipClient_new (arg_access_token args) api (remote s) = (Ok tt, w) →
  run (main fuel args) s
  = run (create_directory_if_not_exists (arg_output args) ;;
         try_except
           (process_folder fuel client (JStr id) (arg_output args) 0 ;;
            print MsgCompleted)
           (λ e, print (MsgExtractionFailed e)) ;;
         mret 0%Z)
        (add_event (EvPrint (MsgSavingTo (arg_output args)))
           (add_event (EvPrint (MsgStarting id))
              (set_remote w
                 (add_event (EvNewClient (arg_access_token args) api) s)))).
Proof.
  intros api client Hlink Hnone Hhost Hid Hrest Hh Hi Hnew.
  destruct (link_round_trip host id rest Hhost Hid Hrest) as [Hx Hd].
  rewrite <- Hlink in Hx, Hd.
  assert (Str.is_empty host = false) as Hhe by by destruct host.
  destruct id as [|c id']; [done|].
  unfold main. rewrite Hnone.
  rewrite (run_bind (lift _ ≫= _)), (run_bind (lift _)), run_lift, Hd.
  cbv beta iota. rewrite run_ret, Hhe. cbn [negb]. fold api.
  rewrite (run_bind (try_except _ _)), run_try.
  rewrite (run_bind (log _)), run_log. cbv beta iota.
  rewrite (run_bind (call _)), run_call. cbn [remote add_event].
  rewrite Hnew. cbn [fst snd]. rewrite run_ret.
  rewrite (run_bind (lift _)), run_lift, Hx. cbv beta iota.
  rewrite (run_bind (print _)). unfold print at 1. rewrite run_log.
  rewrite (run_bind (print _)). unfold print at 1. rewrite run_log.
  reflexivity.
Qed.

Lemma main_starts_walk_witness :
  run (main (urllib := lenient_urllib) (R := sample_remote) 3 sample_args)
      empty_home
  = run (create_directory_if_not_exists "out" ;;
         try_except
           (process_folder (R := sample_remote) 3
              {| base_url := "https://platform.quip.example.com";
                 access_token := "tok" |} (JStr "ROOT") "out" 0 ;;
            print MsgCompleted)
           (λ e, print (MsgExtractionFailed e)) ;;
         mret 0%Z)
        (add_event (EvPrint (MsgSavingTo "out"))
           (add_event (EvPrint (MsgStarting "ROOT"))
              (set_remote tt
                 (add_event
                    (EvNewClient "tok" "https://platform.quip.example.com")
                    empty_home)))).
Proof.
  exact (main_starts_walk (urllib := lenient_urllib) (R := sample_remote) 3
           sample_args empty_home "quip.example.com" "ROOT" "" tt
           eq_refl eq_refl eq_refl eq_refl eq_refl ltac:(done) ltac:(done)
           eq_refl).
Defined.

(** ** Folders and directories *)

(** X17: a folder whose metadata have no [children] entry is an empty
    folder: its directory is found or made, the count printed is 0,
    no child is processed and the walk returns.  When the entry is
    there but is a value without a length, as [null], the directory is
    found or made all the same and the error is printed. *)
Theorem folder_without_children {W : Type} {R : Remote W}
    (fuel : nat) (client : Client) (folder_id : json) (base_path : string)
    (depth : nat) (s s1 : state W) (payload : json) (title : string)
    (w : W) :
  get_folder folder_id (remote s) = (Ok payload, w) →
  py_in "error" payload = Ok false →
  title_of payload "folder" "Unknown_Folder" = Ok title →
  run (create_directory_if_not_exists (os_path_join base_path title))
      (add_event (EvPrint (MsgDebugFolder payload))
         (set_remote w (add_event (EvGetFolder folder_id) s)))
  = (Ret tt, s1) →
  (py_in "children" payload = Ok false →
   run (process_folder (S fuel) client folder_id base_path depth) s
   = (Ret tt,
      add_event (EvPrint (MsgCompletedFolder depth title 0))
        (add_event (EvPrint (MsgFound title 0))
           (add_event (EvPrint (MsgProcessingFolder depth title)) s1))))
  ∧ (∀ children e,
       py_in "children" payload = Ok true →
       py_getitem payload "children" = Ok children →
       py_len children = Err e →
       run (process_folder (S fuel) client folder_id base_path depth) s
       = (Ret tt,
          add_event (EvPrint (MsgErrorProcessingFolder folder_id e))
            (add_event (EvPrint (MsgProcessingFolder depth title)) s1))).
Proof.
  intros Hget Herr Htitle Hdir.
  destruct (title_of_inv _ _ _ _ Htitle) as (info & raw & Hinfo & Hraw & Hsan).
  destruct (py_get_object _ _ _ _ Hinfo) as [d ->].
  split.
  - intros Hno. apply wp_eq. cbn [process_folder].
    repeat wp_step.
    eapply wp_of_run; [exact Hdir|]. cbv beta iota.
    repeat wp_step.
    all: repeat match goal with
                | H : py_len (JList _) = _ |- _ => simpl in H; simplify_eq
                | H : py_iter (JList _) = _ |- _ => simpl in H; simplify_eq
                | H : py_get (JDict _) _ _ = Err _ |- _ => by simpl in H
                end.
    cbn [for_each]. by repeat wp_step.
  - intros children e Hin Hch Hlen. apply wp_eq. cbn [process_folder].
    repeat wp_step.
    eapply wp_of_run; [exact Hdir|]. cbv beta iota.
    by repeat wp_step.
Qed.

Lemma folder_without_children_witness :
  ∃ s1,
    run (create_directory_if_not_exists "out/Leaf")
        (add_event (EvPrint (MsgDebugFolder
                               (JDict [("folder", obj_title "Leaf")])))
           (set_remote tt (add_event (EvGetFolder (JStr "LEAF")) sample_state)))
    = (Ret tt, s1)
    ∧ run (process_folder (R := odd_remote) 1 sample_client (JStr "LEAF")
             "out" 0) sample_state
      = (Ret tt,
         add_event (EvPrint (MsgCompletedFolder 0 "Leaf" 0))
           (add_event (EvPrint (MsgFound "Leaf" 0))
              (add_event (EvPrint (MsgProcessingFolder 0 "Leaf")) s1))).
Proof.
  eexists. split; [by vm_compute|].
  refine (proj1 (folder_without_children (R := odd_remote) 0 sample_client
                   (JStr "LEAF") "out" 0 sample_state _
                   (JDict [("folder", obj_title "Leaf")]) "Leaf" tt
                   eq_refl eq_refl eq_refl _) eq_refl).
  by vm_compute.
Defined.

(** X18: [create_directory_if_not_exists] changes the file tree only
    by adding directories: no entry is removed or altered.  On a path
    that exists it does nothing and returns, also when the path is a
    regular file.  When it returns the path exists, and if the path
    was missing it is a directory now and one creation is recorded.
    The empty path raises [FileNotFoundError]. *)
Theorem create_directory_effect {W : Type} (path : string) (s : state W) :
  ∃ r s',
    run (create_directory_if_not_exists path) s = (r, s')
    ∧ r ≠ OutOfFuel
    ∧ cwd s' = cwd s
    ∧ remote s' = remote s
    ∧ only_adds_dirs (fs s) (fs s')
    ∧ (exists_in (fs s) (cwd s) path = true → r = Ret tt ∧ s' = s)
    ∧ (r = Ret tt → exists_in (fs s') (cwd s') path = true)
    ∧ (r = Ret tt → exists_in (fs s) (cwd s) path = false →
       dir_in (fs s') (cwd s') path = true
       ∧ trace s' = trace s ++ [EvMakedirs path])
    ∧ (path = "" → r = Raise FileNotFoundError ∧ fs s' = fs s).
Proof.
  destruct (run (create_directory_if_not_exists path) s) as [r s'] eqn:Hrun.
  exists r, s'. split; [done|].
  pose proof (create_directory_steady _ _ _ _ Hrun) as [_ Hcwd].
  pose proof Hrun as Hrun'. rewrite create_directory_run in Hrun'.
  assert (path = "" → exists_in (fs s) (cwd s) path = false) as Hempty
    by by intros ->.
  assert (path = "" →
          makedirs (fs s) (cwd s) path = (fs s, Some FileNotFoundError))
    as Hmk by by intros ->.
  destruct (exists_in (fs s) (cwd s) path) eqn:Hex.
  - injection Hrun' as <- <-.
    split; [done|]. split; [done|]. split; [done|].
    split; [apply only_adds_dirs_refl|]. split; [done|]. split; [done|].
    split; [done|]. intros Hp. by specialize (Hempty Hp).
  - destruct (makedirs (fs s) (cwd s) path) as [t [e|]] eqn:Hm;
      injection Hrun' as <- <-; simpl.
    + split; [done|]. split; [done|]. split; [done|].
      split; [by eapply makedirs_adds|]. split; [done|]. split; [done|].
      split; [done|]. intros Hp. specialize (Hmk Hp). by simplify_eq.
    + split; [done|]. split; [done|]. split; [done|].
      split; [by eapply makedirs_adds|]. split; [done|].
      pose proof (makedirs_dir _ _ _ _ Hm) as Hd.
      split; [intros _; by apply dir_in_exists|].
      split; [done|]. intros Hp. specialize (Hmk Hp). by simplify_eq.
Qed.

(** ** The attachments of a document *)

(** The addresses of the downloads requested, in the order of the
    requests. *)
Fixpoint requested (evs : list event) : list json :=
  match evs with
  | [] => []
  | EvRequest (Download u) :: rest => u :: requested rest
  | _ :: rest => requested rest
  end.

Lemma requested_app (l1 l2 : list event) :
  requested (l1 ++ l2) = requested l1 ++ requested l2.
Proof.
  induction l1 as [|[| | |[|]| | | |] l1 IH]; simpl; by rewrite ?IH.
Qed.

(** An entry of the list of blobs that is an object whose name, if it
    has one, is a string; and the address it gives, [None] in Python
    when it gives none. *)
Definition blob_ok (blob : json) : Prop :=
  ∃ d, blob = JDict d
       ∧ (dict_lookup "name" d = None ∨ ∃ n, dict_lookup "name" d = Some (JStr n)).

Definition url_of (blob : json) : json :=
  match blob with
  | JDict d => from_option id JNull (dict_lookup "url" d)
  | _ => JNull
  end.

Section Blobs.
Context {W : Type} {R : Remote W}.
Implicit Types s : state W.

Lemma download_attachment_ok att blob s :
  blob_ok blob →
  ∃ s' evs,
    run (download_attachment att blob) s = (Ret tt, s')
    ∧ trace s' = trace s ++ evs
    ∧ requested evs = (if truthy (url_of blob) then [url_of blob] else []).
Proof.
  intros (d & -> & Hname).
  enough (wp (download_attachment att (JDict d)) s
            (λ r s', r = Ret tt
               ∧ ∃ evs, trace s' = trace s ++ evs
                        ∧ requested evs
                          = (if truthy (url_of (JDict d))
                             then [url_of (JDict d)] else []))) as H.
  { apply wp_elim in H as (r & s' & Hrun & -> & evs & Htr & Hreq).
    by exists s', evs. }
  unfold download_attachment, download_blob, raise_for_status.
  assert (∃ n, py_get (JDict d) "name" (JStr "Unknown_Attachment")
               = Ok (JStr n)) as [n Hn].
  { simpl. destruct Hname as [->|[n ->]]; by eexists. }
  assert (py_get (JDict d) "url" JNull = Ok (url_of (JDict d))) as Hu by done.
  assert (sanitize_filename (JStr n) = Ok (re_sub_reserved n)) as Hs by done.
  repeat wp_step.
  all: split; [done|].
  all: try (exists []; by rewrite app_nil_r).
  all: eexists; split; [simpl; rewrite <- ?app_assoc; reflexivity|done].
Qed.

Lemma attachments_loop_ok att items i s :
  Forall blob_ok items →
  ∃ s' evs,
    run (for_each items (λ _ blob, download_attachment att blob) i) s
    = (Ret tt, s')
    ∧ trace s' = trace s ++ evs
    ∧ requested evs = List.filter truthy (List.map url_of items).
Proof.
  intros Hok. revert i s.
  induction Hok as [|blob items Hb _ IH]; intros i s.
  - exists s, []. by rewrite app_nil_r.
  - destruct (download_attachment_ok att blob s Hb) as (s1 & evs1 & H1 & T1 & Q1).
    destruct (IH (S i) s1) as (s2 & evs2 & H2 & T2 & Q2).
    exists s2, (evs1 ++ evs2). split; [|split].
    + by rewrite (for_each_cons _ _ _ _ _ _ H1).
    + by rewrite T2, T1, app_assoc.
    + rewrite requested_app, Q1, Q2. simpl.
      by destruct (truthy (url_of blob)).
Qed.

End Blobs.

(** X19: when the list of blobs holds objects whose names, if any,
    are strings, and the attachments directory is there, every blob
    with an address is requested exactly once, in the order of the
    list, and the function returns: a download that fails or is
    refused does not stop the downloads that follow, and a blob
    without an address is passed over. *)
Theorem every_blob_attempted {W : Type} {R : Remote W}
    (current_path : string) (thread_data : json) (title : string)
    (items : list json) (s s1 : state W) :
  py_get thread_data "blobs" (JList []) = Ok (JList items) →
  items ≠ [] →
  Forall blob_ok items →
  run (create_directory_if_not_exists (attachments_path current_path title)) s
  = (Ret tt, s1) →
  ∃ s' evs,
    run (download_attachments current_path thread_data title) s = (Ret tt, s')
    ∧ trace s' = trace s1 ++ evs
    ∧ requested evs = List.filter truthy (List.map url_of items).
Proof.
  intros Hblobs Hne Hok Hdir.
  destruct (attachments_loop_ok (attachments_path current_path title) items 1
              s1 Hok) as (s' & evs & Hrun & Htr & Hreq).
  exists s', evs. split; [|done].
  rewrite (download_attachments_split _ _ _ _ (JList items) Hblobs);
    [|by destruct items].
  rewrite Hdir, run_bind, run_lift. done.
Qed.

Definition pack_blobs : list json :=
  [JDict [("url", JStr "https://b/9"); ("name", JStr "x")];
   JDict [("name", JStr "y")];
   JDict [("url", JStr "https://b/1")]].

Definition pack_data : json :=
  JDict [("thread", obj_title "Pack"); ("blobs", JList pack_blobs)].

Lemma every_blob_attempted_witness :
  ∃ s1 s' evs,
    run (create_directory_if_not_exists (attachments_path "out" "Pack"))
        sample_state = (Ret tt, s1)
    ∧ run (download_attachments (R := odd_remote) "out" pack_data "Pack")
          sample_state = (Ret tt, s')
    ∧ trace s' = trace s1 ++ evs
    ∧ requested evs = [JStr "https://b/9"; JStr "https://b/1"].
Proof.
  eexists.
  destruct (every_blob_attempted (R := odd_remote) "out" pack_data "Pack"
              pack_blobs sample_state _ eq_refl ltac:(done)
              ltac:(repeat constructor; eexists; (split; [done|]);
                    first [by left | right; by eexists])
              ltac:(by vm_compute))
    as (s' & evs & Hrun & Htr & Hreq).
  by exists s', evs.
Defined.

Section BadBlob.
Context {W : Type} {R : Remote W}.
Implicit Types s : state W.

Lemma attachments_loop_bad att good bad rest i s :
  Forall blob_ok good →
  (∀ d, bad ≠ JDict d) →
  ∃ s' evs,
    run (for_each (good ++ bad :: rest)
           (λ _ blob, download_attachment att blob) i) s
    = (Raise AttributeError, s')
    ∧ trace s' = trace s ++ evs
    ∧ requested evs = List.filter truthy (List.map url_of good).
Proof.
  intros Hok Hbad. revert i s.
  induction Hok as [|blob good Hb _ IH]; intros i s.
  - exists s, []. rewrite app_nil_r. split; [|done].
    cbn [app for_each]. rewrite run_bind.
    unfold download_attachment. rewrite run_bind, run_lift.
    destruct bad; try done. by destruct (Hbad d).
  - destruct (download_attachment_ok att blob s Hb) as (s1 & evs1 & H1 & T1 & Q1).
    destruct (IH (S i) s1) as (s2 & evs2 & H2 & T2 & Q2).
    exists s2, (evs1 ++ evs2). split; [|split].
    + cbn [app]. by rewrite (for_each_cons _ _ _ _ _ _ H1).
    + by rewrite T2, T1, app_assoc.
    + rewrite requested_app, Q1, Q2. simpl.
      by destruct (truthy (url_of blob)).
Qed.

End BadBlob.

(** X20: an entry of the list of blobs that is not an object ends the
    attachments of the document: the blobs before it have been
    requested, those after it are not, and [process_thread] prints the
    [AttributeError] and returns. *)
Theorem malformed_blob_stops_attachments {W : Type} {R : Remote W}
    (client : Client) (thread_id : json) (current_path : string)
    (thread_data : json) (title : string) (good rest : list json)
    (bad : json) (s s1 s2 : state W) (w : W) :
  get_thread thread_id (remote s) = (Ok thread_data, w) →
  py_in "error" thread_data = Ok false →
  title_of thread_data "thread" "Unknown_Document" = Ok title →
  py_get thread_data "blobs" (JList []) = Ok (JList (good ++ bad :: rest)) →
  Forall blob_ok good →
  (∀ d, bad ≠ JDict d) →
  run (export_document client thread_id current_path thread_data title)
      (set_remote w (add_event (EvGetThread thread_id) s)) = (Ret tt, s1) →
  run (create_directory_if_not_exists (attachments_path current_path title)) s1
  = (Ret tt, s2) →
  ∃ s3 evs,
    run (download_attachments current_path thread_data title) s1
    = (Raise AttributeError, s3)
    ∧ trace s3 = trace s2 ++ evs
    ∧ requested evs = List.filter truthy (List.map url_of good)
    ∧ run (process_thread client thread_id current_path) s
      = (Ret tt,
         add_event (EvPrint (MsgErrorProcessingDocument thread_id
                               AttributeError)) s3).
Proof.
  intros Hget Herr Htitle Hblobs Hok Hbad Hexp Hdir.
  destruct (attachments_loop_bad (attachments_path current_path title)
              good bad rest 1 s2 Hok Hbad) as (s3 & evs & Hrun & Htr & Hreq).
  assert (run (download_attachments current_path thread_data title) s1
          = (Raise AttributeError, s3)) as Hatt.
  { rewrite (download_attachments_split _ _ _ _ _ Hblobs);
      [|by destruct good].
    rewrite Hdir, run_bind, run_lift. done. }
  exists s3, evs. repeat split; try done.
  destruct (process_thread_phases client thread_id current_path s thread_data
              w title s1 Hget Herr Htitle Hexp) as (r2 & t2 & Hatt' & _ & Hp).
  rewrite Hatt in Hatt'. by injection Hatt' as <- <-.
Qed.

Lemma malformed_blob_stops_attachments_witness :
  ∃ s1 s2 s3 evs,
    run (export_document (R := odd_remote) sample_client (JStr "B1") "out"
           (JDict [("thread", obj_title "Mix");
                   ("blobs", JList [JDict [("url", JStr "https://b/1")];
                                    JStr "oops";
                                    JDict [("url", JStr "https://b/2")]])])
           "Mix")
        (set_remote tt (add_event (EvGetThread (JStr "B1")) sample_state))
    = (Ret tt, s1)
    ∧ run (create_directory_if_not_exists (attachments_path "out" "Mix")) s1
      = (Ret tt, s2)
    ∧ trace s3 = trace s2 ++ evs
    ∧ requested evs = [JStr "https://b/1"]
    ∧ run (process_thread (R := odd_remote) sample_client (JStr "B1") "out")
          sample_state
      = (Ret tt,
         add_event (EvPrint (MsgErrorProcessingDocument (JStr "B1")
                               AttributeError)) s3).
Proof.
  eexists _, _.
  destruct (malformed_blob_stops_attachments (R := odd_remote) sample_client
              (JStr "B1") "out" _ "Mix"
              [JDict [("url", JStr "https://b/1")]]
              [JDict [("url", JStr "https://b/2")]] (JStr "oops")
              sample_state _ _ tt eq_refl eq_refl eq_refl eq_refl
              ltac:(repeat constructor; eexists; (split; [done|]); by left)
              ltac:(done) ltac:(by vm_compute) ltac:(by vm_compute))
    as (s3 & evs & _ & Htr & Hreq & Hrun).
  exists s3, evs. repeat split; try done; by vm_compute.
Defined.
